(** * rfp_response_automation: the chat gateway of [app.py]

    A shallow embedding of [parse_llm_json] and of the [/chat] handler,
    together with the parts of CPython's [json] module, of [str] and of
    Flask's [jsonify] that the two functions call.  The first part holds
    the definitions, the second part the properties: what [parse_llm_json]
    returns on every string, what the handler answers, and how decoding
    behaves on encoded values and on texts wrapped in fences. *)

From Stdlib Require Import List NArith ZArith Lia Bool String Ascii Arith.
From Stdlib Require SpecFloat.
Import ListNotations.


Local Open Scope N_scope.

(** ** Python strings *)

(** A Python [str] is a sequence of code points. *)
Abbreviation char := N (only parsing).
Abbreviation str := (list N) (only parsing).

(** [u "abc"] is the [str] whose code points are the bytes of the literal. *)
Definition u (s : string) : str := map N_of_ascii (list_ascii_of_string s).

Fixpoint str_eqb (a b : str) : bool :=
  match a, b with
  | [], [] => true
  | x :: a', y :: b' => (x =? y) && str_eqb a' b'
  | _, _ => false
  end.

(** [s.startswith(p)] *)
Fixpoint startswith (p s : str) : bool :=
  match p, s with
  | [], _ => true
  | x :: p', y :: s' => (x =? y) && startswith p' s'
  | _ :: _, [] => false
  end.

(** [str.replace(old, new)]: every non-overlapping occurrence of [old], found
    scanning from the left, is replaced by [new].  [skip] counts the code
    points of a match that are still to be dropped. *)
Fixpoint replace_from (old new : str) (skip : nat) (s : str) : str :=
  match s with
  | [] => []
  | c :: s' =>
      match skip with
      | S k => replace_from old new k s'
      | O =>
          if startswith old s
          then new ++ replace_from old new (pred (List.length old)) s'
          else c :: replace_from old new 0 s'
      end
  end.

Definition str_replace (old new s : str) : str :=
  match old with
  | [] => new ++ flat_map (fun c => c :: new) s
  | _ :: _ => replace_from old new 0 s
  end.

(** [str.isspace] on one code point: the characters [str.strip()] removes. *)
Definition py_isspace (c : char) : bool :=
  ((9 <=? c) && (c <=? 13)) || ((28 <=? c) && (c <=? 32))
  || (c =? 133) || (c =? 160) || (c =? 5760)
  || ((8192 <=? c) && (c <=? 8202))
  || (c =? 8232) || (c =? 8233) || (c =? 8239) || (c =? 8287) || (c =? 12288).

Fixpoint lstrip (s : str) : str :=
  match s with
  | [] => []
  | c :: s' => if py_isspace c then lstrip s' else s
  end.

Definition rstrip (s : str) : str := rev (lstrip (rev s)).

(** [s.strip()] *)
Definition strip (s : str) : str := rstrip (lstrip s).

(** ** Python values, exceptions, outcomes *)

(** A [float] is an IEEE 754 double: a sign, a mantissa and a binary
    exponent when it is finite and not zero, or a zero, an infinity, NaN. *)
Abbreviation pyfloat := SpecFloat.spec_float (only parsing).

Unset Elimination Schemes.
Inductive value : Type :=
| VNone
| VBool (b : bool)
| VInt (z : Z)
| VFloat (f : SpecFloat.spec_float)
| VStr (s : str)
| VList (l : list value)
| VDict (d : list (str * value)).
Set Elimination Schemes.

(** Dictionaries keep insertion order and have one entry per key. *)
Abbreviation pydict := (list (list N * value)) (only parsing).

Section ValueInd.
Variable P : value -> Prop.
Hypothesis HNone : P VNone.
Hypothesis HBool : forall b, P (VBool b).
Hypothesis HInt : forall z, P (VInt z).
Hypothesis HFloat : forall f, P (VFloat f).
Hypothesis HStr : forall s, P (VStr s).
Hypothesis HList : forall l, Forall P l -> P (VList l).
Hypothesis HDict : forall d, Forall (fun kv => P (snd kv)) d -> P (VDict d).

Fixpoint value_ind (v : value) : P v :=
  match v with
  | VNone => HNone
  | VBool b => HBool b
  | VInt z => HInt z
  | VFloat f => HFloat f
  | VStr s => HStr s
  | VList l =>
      HList l ((fix go (l : list value) : Forall P l :=
                match l with
                | [] => Forall_nil _
                | x :: l' => Forall_cons x (value_ind x) (go l')
                end) l)
  | VDict d =>
      HDict d ((fix go (d : pydict) : Forall (fun kv => P (snd kv)) d :=
                match d with
                | [] => Forall_nil _
                | kv :: d' =>
                    @Forall_cons _ (fun kv => P (snd kv)) kv d'
                      (value_ind (snd kv)) (go d')
                end) d)
  end.
End ValueInd.

Fixpoint dict_get (d : pydict) (k : str) : option value :=
  match d with
  | [] => None
  | (k', v) :: d' => if str_eqb k k' then Some v else dict_get d' k
  end.

(** [d[k] = v] *)
Fixpoint dict_set (d : pydict) (k : str) (v : value) : pydict :=
  match d with
  | [] => [(k, v)]
  | (k', v') :: d' =>
      if str_eqb k k' then (k', v) :: d' else (k', v') :: dict_set d' k v
  end.

(** [dict(pairs)] *)
Definition dict_of_pairs (pairs : list (str * value)) : pydict :=
  fold_left (fun d kv => dict_set d (fst kv) (snd kv)) pairs [].

(** [type(v).__name__] *)
Definition type_name (v : value) : str :=
  match v with
  | VNone => u "NoneType"
  | VBool _ => u "bool"
  | VInt _ => u "int"
  | VFloat _ => u "float"
  | VStr _ => u "str"
  | VList _ => u "list"
  | VDict _ => u "dict"
  end.

(** The exception classes that occur, and whether [except Exception]
    catches them. *)
Inductive exc_class : Type :=
| BaseException
| SystemExit
| KeyboardInterrupt
| Exception
| StopIteration
| AttributeError
| ValueError
| RecursionError
| JSONDecodeError
| HTTPException.

Definition is_Exception (c : exc_class) : bool :=
  match c with
  | BaseException | SystemExit | KeyboardInterrupt => false
  | _ => true
  end.

(** An exception object: its class and the text of [str(e)], the message
    it was raised with (the position that [JSONDecodeError] appends is left
    out). *)
Record exn : Type := mk_exn { exn_class : exc_class; exn_msg : str }.

(** What running a piece of code gives.  [OutOfFuel] is only the way the
    loops of the model stop when their bound is used up. *)
Inductive outcome (A : Type) : Type :=
| Return (a : A)
| Raise (e : exn)
| OutOfFuel.
Arguments Return {A} a.
Arguments Raise {A} e.
Arguments OutOfFuel {A}.

Definition bind {A B} (m : outcome A) (k : A -> outcome B) : outcome B :=
  match m with
  | Return a => k a
  | Raise e => Raise e
  | OutOfFuel => OutOfFuel
  end.

Notation "x <- m ;; k" := (bind m (fun x => k))
  (at level 61, m at next level, right associativity).
Notation "' p <- m ;; k" := (bind m (fun x => let p := x in k))
  (at level 61, p pattern, m at next level, right associativity).

Definition decode_error {A} (msg : string) : outcome A :=
  Raise (mk_exn JSONDecodeError (u msg)).

(** [try: m  except StopIteration: raise JSONDecodeError("Expecting value")] *)
Definition expecting_value {A} (m : outcome A) : outcome A :=
  match m with
  | Raise (mk_exn StopIteration _) => decode_error "Expecting value"
  | _ => m
  end.

(** [int.__repr__] *)
Fixpoint repr_digits (fuel : nat) (n : N) (acc : str) : str :=
  match fuel with
  | O => acc
  | S fuel' =>
      let acc' := (48 + n mod 10) :: acc in
      if n <? 10 then acc' else repr_digits fuel' (n / 10) acc'
  end.

Definition repr_N (n : N) : str :=
  repr_digits (S (N.to_nat (N.log2 n))) n [].

Definition int_repr (z : Z) : str :=
  match z with
  | Z0 => [48]
  | Zpos p => repr_N (Npos p)
  | Zneg p => 45 :: repr_N (Npos p)
  end.

(** ** The limits of the interpreter

    [sys.get_int_max_str_digits()] bounds the digits of an integer that is
    read from text or written as text: 4300 unless the process is started
    otherwise, [0] for no bound.  The recursion limit bounds the nesting of
    what [json.loads] reads and of what [json.dumps] writes; how much of it
    is left depends on the stack the call is made on, so the room that is
    left is a parameter.  Two levels, a value and its members, are taken to
    fit always: the answers the handler builds itself need them. *)
Record limits : Type := mk_limits {
  max_str_digits : N;
  decoder_room : nat;
  encoder_room : nat
}.

(** How many values within one another [json.loads] can read, and how many
    lists and dictionaries within one another [json.dumps] can write. *)
Definition decoder_depth (L : limits) : nat := S (S (decoder_room L)).
Definition encoder_depth (L : limits) : nat := S (S (encoder_room L)).

(** The test of [int(text)] and of [int.__repr__]: more digits than
    [_PY_LONG_MAX_STR_DIGITS_THRESHOLD], and more than a limit that is set. *)
Definition too_many_digits (L : limits) (digits : nat) : bool :=
  (640 <? N.of_nat digits) && (0 <? max_str_digits L)
  && (max_str_digits L <? N.of_nat digits).

Definition int_from_str_error (L : limits) (digits : nat) : exn :=
  mk_exn ValueError
    (u "Exceeds the limit (" ++ repr_N (max_str_digits L)
     ++ u " digits) for integer string conversion: value has "
     ++ repr_N (N.of_nat digits)
     ++ u " digits; use sys.set_int_max_str_digits() to increase the limit").

Definition int_to_str_error (L : limits) : exn :=
  mk_exn ValueError
    (u "Exceeds the limit (" ++ repr_N (max_str_digits L)
     ++ u " digits) for integer string conversion; use sys.set_int_max_str_digits() to increase the limit").

Definition recursion_error : exn :=
  mk_exn RecursionError (u "maximum recursion depth exceeded").

(** ** [json.decoder] and [json.scanner]

    The decoder of CPython's [json] package as [Lib/json/decoder.py] and
    [Lib/json/scanner.py] write it, with the default hooks and [strict]
    on.  A text is given as what is left to read instead of a string and
    an index. *)

Definition is_ws (c : char) : bool :=
  (c =? 32) || (c =? 9) || (c =? 10) || (c =? 13).

(** [WHITESPACE.match(s, end).end()] *)
Fixpoint skip_ws (s : str) : str :=
  match s with
  | [] => []
  | c :: s' => if is_ws c then skip_ws s' else s
  end.

Definition is_digit (c : char) : bool := (48 <=? c) && (c <=? 57).

Definition hexval (c : char) : option N :=
  if (48 <=? c) && (c <=? 57) then Some (c - 48)
  else if (65 <=? c) && (c <=? 70) then Some (c - 55)
  else if (97 <=? c) && (c <=? 102) then Some (c - 87)
  else None.

(** [HEXDIGITS.match] followed by [int(esc, 16)] *)
Definition decode_hex4 (h1 h2 h3 h4 : char) : option N :=
  match hexval h1, hexval h2, hexval h3, hexval h4 with
  | Some a, Some b, Some c, Some d => Some (((a * 16 + b) * 16 + c) * 16 + d)
  | _, _, _, _ => None
  end.

(** The [BACKSLASH] table. *)
Definition backslash (esc : char) : option char :=
  if esc =? 34 then Some 34
  else if esc =? 92 then Some 92
  else if esc =? 47 then Some 47
  else if esc =? 98 then Some 8
  else if esc =? 102 then Some 12
  else if esc =? 110 then Some 10
  else if esc =? 114 then Some 13
  else if esc =? 116 then Some 9
  else None.

Definition is_high_surrogate (n : N) : bool := (55296 <=? n) && (n <=? 56319).
Definition is_low_surrogate (n : N) : bool := (56320 <=? n) && (n <=? 57343).

Definition join_surrogates (uni uni2 : N) : N :=
  65536 + N.lor (N.shiftl (uni - 55296) 10) (uni2 - 56320).

(** The escape branch of [py_scanstring] on its own: the decoded code point
    and the text after the escape; [s1] starts after the backslash. *)
Definition scan_escape (s1 : str) : outcome (char * str) :=
  match s1 with
  | [] => decode_error "Unterminated string starting at"
  | esc :: s2 =>
      if esc =? 117 then
        match s2 with
        | h1 :: h2 :: h3 :: h4 :: s3 =>
            match decode_hex4 h1 h2 h3 h4 with
            | None => decode_error "Invalid \uXXXX escape"
            | Some uni =>
                if is_high_surrogate uni && startswith [92; 117] s3 then
                  match s3 with
                  | _ :: _ :: g1 :: g2 :: g3 :: g4 :: s4 =>
                      match decode_hex4 g1 g2 g3 g4 with
                      | None => decode_error "Invalid \uXXXX escape"
                      | Some uni2 =>
                          if is_low_surrogate uni2
                          then Return (join_surrogates uni uni2, s4)
                          else Return (uni, s3)
                      end
                  | _ => decode_error "Invalid \uXXXX escape"
                  end
                else Return (uni, s3)
            end
        | _ => decode_error "Invalid \uXXXX escape"
        end
      else
        match backslash esc with
        | None => decode_error "Invalid \escape"
        | Some ch => Return (ch, s2)
        end
  end.

(** [py_scanstring(s, end, strict=True)]; [s] starts after the opening
    quote, [chunks] is what has been decoded so far. *)
Fixpoint py_scanstring (s : str) (chunks : str) : outcome (str * str) :=
  match s with
  | [] => decode_error "Unterminated string starting at"
  | c :: s1 =>
      if c =? 34 then Return (chunks, s1)
      else if c =? 92 then
        match s1 with
        | [] => decode_error "Unterminated string starting at"
        | esc :: s2 =>
            if esc =? 117 then
              match s2 with
              | h1 :: h2 :: h3 :: h4 :: s3 =>
                  match decode_hex4 h1 h2 h3 h4 with
                  | None => decode_error "Invalid \uXXXX escape"
                  | Some uni =>
                      if is_high_surrogate uni && startswith [92; 117] s3 then
                        match s3 with
                        | _ :: _ :: g1 :: g2 :: g3 :: g4 :: s4 =>
                            match decode_hex4 g1 g2 g3 g4 with
                            | None => decode_error "Invalid \uXXXX escape"
                            | Some uni2 =>
                                if is_low_surrogate uni2
                                then py_scanstring s4
                                       (chunks ++ [join_surrogates uni uni2])
                                else py_scanstring s3 (chunks ++ [uni])
                            end
                        | _ => decode_error "Invalid \uXXXX escape"
                        end
                      else py_scanstring s3 (chunks ++ [uni])
                  end
              | _ => decode_error "Invalid \uXXXX escape"
              end
            else
              match backslash esc with
              | None => decode_error "Invalid \escape"
              | Some ch => py_scanstring s2 (chunks ++ [ch])
              end
        end
      else if c <? 32 then decode_error "Invalid control character at"
      else py_scanstring s1 (chunks ++ [c])
  end.

(** The longest run of [[0-9]] at the head of [s], and what follows. *)
Fixpoint span_digits (s : str) : str * str :=
  match s with
  | c :: s' =>
      if is_digit c then let (ds, r) := span_digits s' in (c :: ds, r)
      else ([], s)
  | [] => ([], [])
  end.

(** The groups of [NUMBER_RE.match(s, idx)] and the text after the match.
    The integer group is an optional minus sign, then either a single zero
    or a digit from 1 to 9 and any digits; the fraction group is a dot and
    one digit or more; the exponent group is e or E, an optional sign and
    one digit or more.  A group that did not take part in the match is the
    empty string. *)
Definition match_integer (s : str) : option (str * str) :=
  match s with
  | c :: r =>
      if c =? 48 then Some ([c], r)
      else if is_digit c then let (ds, r') := span_digits r in Some (c :: ds, r')
      else None
  | [] => None
  end.

Definition match_frac (s : str) : str * str :=
  match s with
  | dot :: (d :: _) as r =>
      if (dot =? 46) && is_digit d
      then let (ds, r') := span_digits r in (dot :: ds, r')
      else ([], s)
  | _ => ([], s)
  end.

Definition match_exp (s : str) : str * str :=
  match s with
  | e :: r =>
      if (e =? 101) || (e =? 69) then
        match r with
        | sg :: (d :: _) as r1 =>
            if ((sg =? 45) || (sg =? 43)) && is_digit d
            then let (ds, r') := span_digits r1 in (e :: sg :: ds, r')
            else if is_digit sg
            then let (ds, r') := span_digits r in (e :: ds, r')
            else ([], s)
        | [d] => if is_digit d then ([e; d], []) else ([], s)
        | [] => ([], s)
        end
      else ([], s)
  | [] => ([], s)
  end.

Definition match_number (s : str) : option (str * str * str * str) :=
  let (sign, s1) :=
    match s with
    | c :: r => if c =? 45 then ([c], r) else ([], s)
    | [] => ([], s)
    end in
  match match_integer s1 with
  | None => None
  | Some (ip, r1) =>
      let (frac, r2) := match_frac r1 in
      let (exp, r3) := match_exp r2 in
      Some (sign ++ ip, frac, exp, r3)
  end.

(** [int(text)] for a text matched by the integer group. *)
Definition digits_value (ds : str) : Z :=
  fold_left (fun acc c => (acc * 10 + Z.of_N (c - 48))%Z) ds 0%Z.

Definition parse_int (text : str) : Z :=
  match text with
  | c :: ds => if c =? 45 then Z.opp (digits_value ds) else digits_value text
  | [] => 0%Z
  end.

(** The digits of an integer text, its sign apart. *)
Definition digit_count (text : str) : nat :=
  match text with
  | c :: ds => if c =? 45 then List.length ds else List.length text
  | [] => 0%nat
  end.

(** [int(text)] as the scanner calls it: refused with [ValueError] when the
    text has too many digits. *)
Definition py_int (L : limits) (text : str) : outcome Z :=
  if too_many_digits L (digit_count text)
  then Raise (int_from_str_error L (digit_count text))
  else Return (parse_int text).

(** The number an exponent group stands for. *)
Definition exponent_value (exp : str) : Z :=
  match exp with
  | _ :: sg :: ds =>
      if sg =? 45 then Z.opp (digits_value ds)
      else if sg =? 43 then digits_value ds
      else digits_value (sg :: ds)
  | _ => 0%Z
  end.

(** [float(integer + frac + exp)]: the double nearest to the decimal number
    the three groups write, ties to the even mantissa; a number too large
    for a double gives an infinity, one too small a zero.  The decimal
    number is the quotient of two integers, rounded once. *)
Definition py_float (integer frac exp : str) : SpecFloat.spec_float :=
  let negative := match integer with c :: _ => c =? 45 | [] => false end in
  let digits := (if negative then tl integer else integer) ++ tl frac in
  let e10 := (exponent_value exp - Z.of_nat (List.length (tl frac)))%Z in
  match digits_value digits with
  | Zpos m =>
      SpecFloat.SFdiv 53 1024
        (SpecFloat.S754_finite negative
           (m * Z.to_pos (10 ^ Z.max e10 0))%positive 0%Z)
        (SpecFloat.S754_finite false (Z.to_pos (10 ^ Z.max (- e10) 0)) 0%Z)
  | _ => SpecFloat.S754_zero negative
  end.

Definition scanner := str -> outcome (value * str).

(** The loop of [JSONArray], entered in front of a value. *)
Fixpoint array_loop (scan_once : scanner) (fuel : nat) (s : str)
    (values : list value) : outcome (value * str) :=
  match fuel with
  | O => OutOfFuel
  | S fuel' =>
      '(v, r) <- expecting_value (scan_once s) ;;
      let values := values ++ [v] in
      match skip_ws r with
      | c :: r1 =>
          if c =? 93 then Return (VList values, r1)
          else if c =? 44 then array_loop scan_once fuel' (skip_ws r1) values
          else decode_error "Expecting ',' delimiter"
      | [] => decode_error "Expecting ',' delimiter"
      end
  end.

(** [JSONArray((s, end), scan_once)]; [s] starts after the bracket. *)
Definition JSONArray (scan_once : scanner) (s : str) : outcome (value * str) :=
  let s := skip_ws s in
  match s with
  | c :: r =>
      if c =? 93 then Return (VList [], r)
      else array_loop scan_once (S (List.length s)) s []
  | [] => array_loop scan_once 1 s []
  end.

(** The loop of [JSONObject], entered after the opening quote of a key. *)
Fixpoint object_loop (scan_once : scanner) (fuel : nat) (s : str)
    (pairs : list (str * value)) : outcome (value * str) :=
  match fuel with
  | O => OutOfFuel
  | S fuel' =>
      '(key, r) <- py_scanstring s [] ;;
      match skip_ws r with
      | c :: r1 =>
          if c =? 58 then
            '(v, r2) <- expecting_value (scan_once (skip_ws r1)) ;;
            let pairs := pairs ++ [(key, v)] in
            match skip_ws r2 with
            | c' :: r3 =>
                if c' =? 125 then Return (VDict (dict_of_pairs pairs), r3)
                else if c' =? 44 then
                  match skip_ws r3 with
                  | q :: r4 =>
                      if q =? 34 then object_loop scan_once fuel' r4 pairs
                      else decode_error
                        "Expecting property name enclosed in double quotes"
                  | [] => decode_error
                        "Expecting property name enclosed in double quotes"
                  end
                else decode_error "Expecting ',' delimiter"
            | [] => decode_error "Expecting ',' delimiter"
            end
          else decode_error "Expecting ':' delimiter"
      | [] => decode_error "Expecting ':' delimiter"
      end
  end.

(** [JSONObject((s, end), strict, scan_once, ...)] with no hooks; [s]
    starts after the brace. *)
Definition JSONObject (scan_once : scanner) (s : str) : outcome (value * str) :=
  match skip_ws s with
  | c :: r =>
      if c =? 125 then Return (VDict [], r)
      else if c =? 34 then object_loop scan_once (S (List.length r)) r []
      else decode_error "Expecting property name enclosed in double quotes"
  | [] => decode_error "Expecting property name enclosed in double quotes"
  end.

(** [_scan_once(string, idx)] of [py_make_scanner].  Each call takes a
    frame of the interpreter; [depth] is the number of calls within one
    another that the recursion limit leaves room for. *)
Fixpoint scan_once (L : limits) (depth : nat) (s : str)
  : outcome (value * str) :=
  match depth with
  | O => Raise recursion_error
  | S depth' =>
      match s with
      | [] => Raise (mk_exn StopIteration [])
      | nextchar :: s1 =>
          if nextchar =? 34 then
            '(r, rest) <- py_scanstring s1 [] ;; Return (VStr r, rest)
          else if nextchar =? 123 then JSONObject (scan_once L depth') s1
          else if nextchar =? 91 then JSONArray (scan_once L depth') s1
          else if startswith (u "null") s then Return (VNone, skipn 4 s)
          else if startswith (u "true") s then Return (VBool true, skipn 4 s)
          else if startswith (u "false") s then Return (VBool false, skipn 5 s)
          else
            match match_number s with
            | Some (integer, frac, exp, rest) =>
                match frac ++ exp with
                | [] => n <- py_int L integer ;; Return (VInt n, rest)
                | _ :: _ => Return (VFloat (py_float integer frac exp), rest)
                end
            | None =>
                if startswith (u "NaN") s
                then Return (VFloat SpecFloat.S754_nan, skipn 3 s)
                else if startswith (u "Infinity") s
                then Return (VFloat (SpecFloat.S754_infinity false), skipn 8 s)
                else if startswith (u "-Infinity") s
                then Return (VFloat (SpecFloat.S754_infinity true), skipn 9 s)
                else Raise (mk_exn StopIteration [])
            end
      end
  end.

(** [json.loads(s)] for a [str]: [JSONDecoder.decode] with the default
    decoder. *)
Definition json_loads (L : limits) (s : str) : outcome value :=
  if startswith [65279] s then decode_error "Unexpected UTF-8 BOM (decode using utf-8-sig)"
  else
    '(obj, rest) <- expecting_value (scan_once L (decoder_depth L) (skip_ws s)) ;;
    match skip_ws rest with
    | [] => Return obj
    | _ :: _ => decode_error "Extra data"
    end.

(** ** [json.encoder] *)

Definition hexdigit (n : N) : char := if n <? 10 then 48 + n else 87 + n.

(** ['{0:04x}'.format(n)] for [n < 0x10000] *)
Definition format_04x (n : N) : str :=
  [hexdigit (n / 4096 mod 16); hexdigit (n / 256 mod 16);
   hexdigit (n / 16 mod 16); hexdigit (n mod 16)].

(** The [replace] callback of [py_encode_basestring_ascii]: [ESCAPE_DCT],
    the code points from space to tilde as they are, and [\uXXXX] escapes,
    a surrogate pair above the basic plane. *)
Definition escape_char (c : char) : str :=
  if c =? 92 then [92; 92]
  else if c =? 34 then [92; 34]
  else if c =? 8 then [92; 98]
  else if c =? 12 then [92; 102]
  else if c =? 10 then [92; 110]
  else if c =? 13 then [92; 114]
  else if c =? 9 then [92; 116]
  else if (32 <=? c) && (c <=? 126) then [c]
  else if c <? 65536 then 92 :: 117 :: format_04x c
  else
    let n := c - 65536 in
    let s1 := N.lor 55296 (N.land (N.shiftr n 10) 1023) in
    let s2 := N.lor 56320 (N.land n 1023) in
    (92 :: 117 :: format_04x s1) ++ (92 :: 117 :: format_04x s2).

Definition py_encode_basestring_ascii (s : str) : str :=
  [34] ++ flat_map escape_char s ++ [34].

(** [', '.join(parts)] and the like *)
Fixpoint join (sep : str) (parts : list str) : str :=
  match parts with
  | [] => []
  | p :: rest =>
      match rest with
      | [] => p
      | _ :: _ => p ++ sep ++ join sep rest
      end
  end.

Section Encoder.
(** [float.__repr__] *)
Variable float_repr : SpecFloat.spec_float -> str.

(** [floatstr] of [JSONEncoder.iterencode] *)
Definition floatstr (f : pyfloat) : str :=
  match f with
  | SpecFloat.S754_nan => u "NaN"
  | SpecFloat.S754_infinity false => u "Infinity"
  | SpecFloat.S754_infinity true => u "-Infinity"
  | _ => float_repr f
  end.

(** The text [json.dumps(x)] builds with its defaults, on values whose keys
    are strings, when nothing is raised on the way. *)
Fixpoint json_text (x : value) : str :=
  match x with
  | VNone => u "null"
  | VBool true => u "true"
  | VBool false => u "false"
  | VInt z => int_repr z
  | VFloat f => floatstr f
  | VStr s => py_encode_basestring_ascii s
  | VList l => [91] ++ join (u ", ") (map json_text l) ++ [93]
  | VDict d =>
      [123]
      ++ join (u ", ")
           (map (fun kv => py_encode_basestring_ascii (fst kv) ++ u ": "
                           ++ json_text (snd kv)) d)
      ++ [125]
  end.

(** What one key and its value are printed as. *)
Definition dump_pair (kv : str * value) : str :=
  py_encode_basestring_ascii (fst kv) ++ u ": " ++ json_text (snd kv).

(** The members that follow the first one, with their separators. *)
Definition members (d : pydict) : str :=
  match d with
  | [] => []
  | _ :: _ => u ", " ++ join (u ", ") (map dump_pair d)
  end.
End Encoder.

(** The decimal digits [int.__repr__] writes for [z], its sign apart. *)
Definition int_digits (z : Z) : nat := List.length (repr_N (Z.abs_N z)).

(** [a < b] on strings *)
Fixpoint str_ltb (a b : str) : bool :=
  match a, b with
  | _, [] => false
  | [], _ :: _ => true
  | x :: a', y :: b' => (x <? y) || ((x =? y) && str_ltb a' b')
  end.

(** [sorted(items)] for items whose keys are strings. *)
Fixpoint insert_item {A} (kv : str * A) (l : list (str * A))
  : list (str * A) :=
  match l with
  | [] => [kv]
  | kv' :: l' =>
      if str_ltb (fst kv) (fst kv') then kv :: l else kv' :: insert_item kv l'
  end.

Definition sort_items {A} (l : list (str * A)) : list (str * A) :=
  fold_right insert_item [] l.

(** The first exception of a run of steps. *)
Definition first_error (l : list (option exn)) : option exn :=
  fold_right (fun e rest => match e with Some _ => e | None => rest end) None l.

(** What encoding [x] raises, if anything.  An integer with too many digits
    is refused by [int.__repr__]; a list or a dictionary is entered only
    while the recursion limit leaves room, [depth] levels of them.  The
    members are encoded in order, the items of a dictionary sorted by key
    under [sort_keys], and the first exception ends the encoding. *)
Fixpoint dumps_error (L : limits) (sort_keys : bool) (depth : nat) (x : value)
  {struct x} : option exn :=
  match x with
  | VInt z =>
      if too_many_digits L (int_digits z) then Some (int_to_str_error L)
      else None
  | VList l =>
      match depth with
      | O => Some recursion_error
      | S depth' => first_error (map (dumps_error L sort_keys depth') l)
      end
  | VDict d =>
      match depth with
      | O => Some recursion_error
      | S depth' =>
          let items :=
            map (fun kv => (fst kv, dumps_error L sort_keys depth' (snd kv))) d
          in first_error (map snd (if sort_keys then sort_items items else items))
      end
  | _ => None
  end.

(** [json.dumps(x)] with its defaults, on values whose keys are strings. *)
Definition json_dumps (L : limits) (float_repr : SpecFloat.spec_float -> str)
    (x : value) : outcome str :=
  match dumps_error L false (encoder_depth L) x with
  | Some e => Raise e
  | None => Return (json_text float_repr x)
  end.

(** ** [app.py] *)

(** [try: body  except Exception as e: handler(e)] *)
Definition try_except {A} (body : outcome A) (handler : exn -> outcome A)
  : outcome A :=
  match body with
  | Raise e => if is_Exception (exn_class e) then handler e else Raise e
  | _ => body
  end.

Definition fence_json : str := u "```json".
Definition fence : str := u "```".

(** The dictionary of the [except] branch of [parse_llm_json]. *)
Definition failure_object (raw : str) : value :=
  VDict [ (u "answer", VStr (u "ERROR"));
          (u "justification", VStr (u "LLM returned invalid JSON"));
          (u "raw_output", VStr raw) ].

(** [parse_llm_json(raw)].  The two assignments rebind the local [raw];
    [str.replace] does not raise on a [str], so when [json.loads] raises the
    handler reads the second binding. *)
Definition parse_llm_json (L : limits) (raw : str) : outcome value :=
  let raw := str_replace fence_json [] raw in
  let raw := str_replace fence [] raw in
  try_except (json_loads L raw) (fun _ => Return (failure_object raw)).

(** The text [json.loads] is given. *)
Definition strip_fences (raw : str) : str :=
  str_replace fence [] (str_replace fence_json [] raw).

(** Attribute lookup that fails: [AttributeError] with CPython's message. *)
Definition no_attribute (v : value) (attr : string) : exn :=
  mk_exn AttributeError
    (u "'" ++ type_name v ++ u "' object has no attribute '" ++ u attr ++ u "'").

(** [data.get(k, default)]: of the values [get_json] returns only a [dict]
    has the method. *)
Definition py_get (data : value) (k : str) (default : value) : outcome value :=
  match data with
  | VDict d =>
      Return (match dict_get d k with Some v => v | None => default end)
  | _ => Raise (no_attribute data "get")
  end.

(** [x.strip()]: only a [str] has the method. *)
Definition py_strip (x : value) : outcome str :=
  match x with
  | VStr s => Return (strip s)
  | _ => Raise (no_attribute x "strip")
  end.

(** A Flask response: status code and the value given to [jsonify]. *)
Record response : Type := mk_response { status : N; body : value }.

(** [jsonify(v)]: Flask passes [v] to [json.dumps] with [sort_keys] on and
    puts the text in the response, which is kept here as [v] itself.  What
    [json.dumps] raises, [jsonify] raises. *)
Definition jsonify (L : limits) (v : value) : outcome value :=
  match dumps_error L true (encoder_depth L) v with
  | Some e => Raise e
  | None => Return v
  end.

(** A handler runs against the log of the calls made to the pipeline. *)
Definition io (A : Type) : Type := list str -> outcome A * list str.

Definition io_ret {A} (a : A) : io A := fun calls => (Return a, calls).

Definition io_bind {A B} (m : io A) (k : A -> io B) : io B :=
  fun calls =>
    match m calls with
    | (Return a, calls') => k a calls'
    | (Raise e, calls') => (Raise e, calls')
    | (OutOfFuel, calls') => (OutOfFuel, calls')
    end.

Definition io_lift {A} (m : outcome A) : io A := fun calls => (m, calls).

Definition io_try {A} (body : io A) (handler : exn -> io A) : io A :=
  fun calls =>
    match body calls with
    | (Raise e, calls') =>
        if is_Exception (exn_class e) then handler e calls'
        else (Raise e, calls')
    | r => r
    end.

Notation "x <~ m ;; k" := (io_bind m (fun x => k))
  (at level 61, m at next level, right associativity).

Section Chat.
Variable L : limits.

(** [answer_question] of [oci_genai_llm_graphrag_financial]: the external
    pipeline, a question in, raw text out, or an exception. *)
Variable answer_question : str -> outcome str.

(** What [request.get_json()] does for the request at hand: Flask either
    returns the decoded body or raises. *)
Variable get_json : outcome value.

Definition call_pipeline (question : str) : io str :=
  fun calls => (answer_question question, calls ++ [question]).

(** [chat()].  The status is 200 where the handler names none;
    [traceback.print_exc()] only writes to the error stream and is left
    out. *)
Definition chat : io response :=
  io_try
    (data <~ io_lift get_json ;;
     question <~ io_lift (x <- py_get data (u "question") (VStr []) ;;
                          py_strip x) ;;
     match question with
     | [] =>
         body <~ io_lift
                   (jsonify L (VDict [(u "error", VStr (u "Empty question"))])) ;;
         io_ret (mk_response 400 body)
     | _ :: _ =>
         raw_answer <~ call_pipeline question ;;
         parsed_answer <~ io_lift (parse_llm_json L raw_answer) ;;
         body <~ io_lift
                   (jsonify L (VDict [(u "question", VStr question);
                                      (u "result", parsed_answer)])) ;;
         io_ret (mk_response 200 body)
     end)
    (fun e =>
       body <~ io_lift (jsonify L (VDict [(u "error", VStr (exn_msg e))])) ;;
       io_ret (mk_response 500 body)).
End Chat.

(** Text helpers for the examples: a quoted JSON string, a line feed. *)
Definition quoted (s : string) : str := [34] ++ u s ++ [34].
Definition LF : str := [10].

(** ** Values that survive encoding and decoding *)

Fixpoint distinct (keys : list str) : bool :=
  match keys with
  | [] => true
  | k :: keys' => negb (existsb (str_eqb k) keys') && distinct keys'
  end.

(** No high surrogate is followed by a low one: such a pair is written as
    two escapes that are read back as one code point. *)
Fixpoint no_pair (s : str) : bool :=
  match s with
  | c :: s' =>
      match s' with
      | c' :: _ => negb (is_high_surrogate c && is_low_surrogate c')
      | [] => true
      end && no_pair s'
  | [] => true
  end.

(** A [str]: code points below [0x110000], with no surrogate pair. *)
Definition is_text (s : str) : bool :=
  forallb (fun c => c <? 1114112) s && no_pair s.

Definition float_eqb (a b : pyfloat) : bool :=
  match a, b with
  | SpecFloat.S754_zero s, SpecFloat.S754_zero s' => Bool.eqb s s'
  | SpecFloat.S754_infinity s, SpecFloat.S754_infinity s' => Bool.eqb s s'
  | SpecFloat.S754_nan, SpecFloat.S754_nan => true
  | SpecFloat.S754_finite s m e, SpecFloat.S754_finite s' m' e' =>
      Bool.eqb s s' && Pos.eqb m m' && Z.eqb e e'
  | _, _ => false
  end.

(** A float that [float()] reads back from what [float.__repr__] writes
    for it, as CPython's does for every float; NaN is left out, being
    different from every float. *)
Definition reads_back (float_repr : pyfloat -> str) (f : pyfloat) : bool :=
  match f with
  | SpecFloat.S754_nan => false
  | SpecFloat.S754_infinity _ => true
  | _ =>
      match match_number (float_repr f) with
      | Some (integer, frac, exp, []) =>
          match frac ++ exp with
          | [] => false
          | _ :: _ => float_eqb (py_float integer frac exp) f
          end
      | _ => false
      end
  end.

(** The values that [json.dumps] and [json.loads] exchange unchanged:
    strings without a surrogate pair, floats but NaN, dictionaries with one
    entry per key. *)
Fixpoint json_data (float_repr : pyfloat -> str) (x : value) : bool :=
  match x with
  | VNone | VBool _ | VInt _ => true
  | VFloat f => reads_back float_repr f
  | VStr s => is_text s
  | VList l => forallb (json_data float_repr) l
  | VDict d =>
      distinct (map fst d)
      && forallb (fun kv => is_text (fst kv) && json_data float_repr (snd kv)) d
  end.

(** How many lists and dictionaries within one another [x] holds: what
    [json.dumps] needs room for. *)
Fixpoint value_depth (x : value) : nat :=
  match x with
  | VList l => S (list_max (map value_depth l))
  | VDict d => S (list_max (map (fun kv => value_depth (snd kv)) d))
  | _ => 0
  end.

(** How many values within one another [x] holds, itself included: what
    [json.loads] needs room for. *)
Fixpoint read_depth (x : value) : nat :=
  match x with
  | VList l => S (list_max (map read_depth l))
  | VDict d => S (list_max (map (fun kv => read_depth (snd kv)) d))
  | _ => 1
  end.

(** No integer of [x] has too many digits to be written. *)
Fixpoint ints_ok (L : limits) (x : value) : bool :=
  match x with
  | VInt z => negb (too_many_digits L (int_digits z))
  | VList l => forallb (ints_ok L) l
  | VDict d => forallb (fun kv => ints_ok L (snd kv)) d
  | _ => true
  end.

(** [p in s] *)
Fixpoint contains (p s : str) : bool :=
  startswith p s ||
  match s with
  | [] => false
  | _ :: s' => contains p s'
  end.

(** ** Notions the statements are written with *)

(** [digits_value], started from [acc]. *)
Definition digits_from (ds : str) (acc : Z) : Z :=
  fold_left (fun acc c => (acc * 10 + Z.of_N (c - 48))%Z) ds acc.

(** What may follow a value in a JSON text: the end, white space, a comma,
    a closing bracket or brace. *)
Definition is_delim (c : char) : bool :=
  is_ws c || (c =? 44) || (c =? 93) || (c =? 125).

Definition at_delim (s : str) : bool :=
  match s with
  | [] => true
  | c :: _ => is_delim c
  end.

(** [scan] reads back every member of [l], whatever delimiter follows. *)
Definition reads (float_repr : pyfloat -> str) (scan : scanner)
    (l : list value) : Prop :=
  forall x, In x l ->
  forall rest,
    at_delim rest = true ->
    scan (json_text float_repr x ++ rest) = Return (x, rest).

(** What [json.loads] raises: its own error, [RecursionError] on a text
    nested too deep, [ValueError] on an integer with too many digits. *)
Definition decoder_error (c : exc_class) : bool :=
  match c with
  | JSONDecodeError | RecursionError | ValueError => true
  | _ => false
  end.

(** An outcome of scanning [s] is [behaved] when it is a result that left
    strictly less text than [s], or one of the decoder's exceptions
    ([StopIteration] only where [stop] allows it), and never [OutOfFuel]. *)
Definition behaved {A} (stop : bool) (s : str) (o : outcome (A * str)) : Prop :=
  match o with
  | Return (_, rest) => (List.length rest < List.length s)%nat
  | Raise e =>
      decoder_error (exn_class e) = true
      \/ (stop = true /\ exn_class e = StopIteration)
  | OutOfFuel => False
  end.

(** The head of a text, where it matters: not a backquote. *)
Definition head_ok (s : str) : Prop :=
  match s with
  | [] => True
  | c :: _ => c <> 96
  end.

(** What may follow the fraction of a number that [match_number] accepts
    in front of a delimiter. *)
Definition frac_stop (s : str) : Prop :=
  match s with
  | [] => True
  | c :: _ => c <> 96 /\ c <> 46
  end.

(** [scan'] follows [scan] on texts related by [R] and no longer than
    [bound]; with [exact] the two values are the same. *)
Definition follows (R : str -> str -> Prop) (exact : Prop)
    (scan scan' : scanner) (bound : nat) : Prop :=
  forall x v r x',
    scan x = Return (v, r) -> at_delim r = true -> R x x' ->
    (List.length x' <= bound)%nat ->
    exists v' r', scan' x' = Return (v', r') /\ R r r' /\
                  (List.length r' < List.length x')%nat /\ (exact -> v' = v).

(** A scanner that returns a value has read a text that does not start
    with a backquote. *)
Definition starts_ok (scan : scanner) : Prop :=
  forall x v r, scan x = Return (v, r) -> exists c t, x = c :: t /\ c <> 96.

(** [s'] is [s] followed by white space. *)
Definition padded (s s' : str) : Prop :=
  exists w, forallb is_ws w = true /\ s' = s ++ w.

(** Code points a JSON string holds as they are. *)
Definition plain (c : char) : bool :=
  (32 <=? c) && negb (c =? 34) && negb (c =? 92).

(** [s] with the occurrences of a marker that starts with a backquote
    taken out. *)
Definition removed (marker s : str) : str :=
  replace_from (96 :: marker) [] 0 s.

(** ** Requests, responses and sample texts *)

Definition has_key (v : value) (k : str) : Prop :=
  exists d x, v = VDict d /\ dict_get d k = Some x.

Definition error_body (msg : str) : value := VDict [(u "error", VStr msg)].

Definition empty_question : response :=
  mk_response 400 (error_body (u "Empty question")).

Definition server_error (e : exn) : response :=
  mk_response 500 (error_body (exn_msg e)).

(** Requests that bring no question: no payload (Flask raises one of its
    HTTP errors, or hands out [None]), a payload that is not an object, an
    object without a question, a question that trims to nothing. *)
Definition lacks_question (get_json : outcome value) : Prop :=
  (exists e, get_json = Raise e /\ exn_class e = HTTPException)
  \/ get_json = Return VNone
  \/ (exists v, get_json = Return v /\ forall d, v <> VDict d)
  \/ (exists d, get_json = Return (VDict d) /\ dict_get d (u "question") = None)
  \/ (exists d q, get_json = Return (VDict d) /\
                  dict_get d (u "question") = Some (VStr q) /\ strip q = []).

(** What the handler answers to each of them. *)
Inductive rejected : outcome value -> response -> Prop :=
| rejected_missing (d : pydict) :
    dict_get d (u "question") = None ->
    rejected (Return (VDict d)) empty_question
| rejected_blank (d : pydict) (q : str) :
    dict_get d (u "question") = Some (VStr q) -> strip q = [] ->
    rejected (Return (VDict d)) empty_question
| rejected_not_object (v : value) :
    (forall d, v <> VDict d) ->
    rejected (Return v) (server_error (no_attribute v "get"))
| rejected_absent (e : exn) :
    is_Exception (exn_class e) = true ->
    rejected (Raise e) (server_error e).

(** Limits for the examples: CPython's default for the digits of an
    integer, and room for eight more levels in the decoder and in the
    encoder. *)
Definition sample_limits : limits := mk_limits 4300 8 8.

Definition ebitda_answer : str :=
  fence_json ++ LF
  ++ u "{" ++ quoted "answer" ++ u ":" ++ quoted "X" ++ u ","
  ++ quoted "justification" ++ u ":" ++ quoted "Y" ++ u "}"
  ++ LF ++ fence.

(** [float.__repr__] on the floats of the examples. *)
Definition sample_float_repr (f : pyfloat) : str :=
  if float_eqb f (py_float (u "1") (u ".5") []) then u "1.5"
  else if float_eqb f (py_float (u "1") (u ".5") (u "e3")) then u "1500.0"
  else u "0.0".

Definition sample_answer : pydict :=
  [ (u "answer", VStr (u "EBITDA is 4.2 `approx`"));
    (u "justification", VList [VInt (-12); VNone; VBool true; VDict []]);
    (u "margin", VFloat (py_float (u "1") (u ".5") []));
    (u "pages",
     VDict [(u "first", VInt 3); (u "note", VStr [233; 10; 128512; 55357])]) ].

(** A JSON object with an integer of 4301 digits. *)
Definition long_integer_object : str :=
  u "{" ++ quoted "n" ++ u ": " ++ repeat 49 4301 ++ u "}".

(** Nine lists within one another, as a value and inside a fenced object. *)
Definition nested_lists : value :=
  Nat.iter 8 (fun v => VList [v]) (VList []).

Definition deep_answer : str :=
  fence_json ++ LF ++ u "{" ++ quoted "a" ++ u ": [[[[[[[[[]]]]]]]]]}"
  ++ LF ++ fence.

Definition fenced_sample : str :=
  u "{" ++ quoted "answer" ++ u ": " ++ quoted "see the ```json block"
  ++ u ", " ++ quoted "score" ++ u ": [1.5e3, -2, null]}".

(** ** Notions for the cleaned text and for the handler's answers *)

(** Code points a JSON value can start with: a quote, a bracket, the first
    letter of a literal or of a constant, a sign, a digit. *)
Definition value_start (c : char) : bool :=
  (c =? 34) || (c =? 123) || (c =? 91) || (c =? 110) || (c =? 116)
  || (c =? 102) || (c =? 45) || is_digit c || (c =? 78) || (c =? 73).

(** Past its leading white space the text is empty, or starts with a code
    point no JSON value starts with. *)
Definition no_value_ahead (s : str) : bool :=
  match skip_ws s with
  | [] => true
  | c :: _ => negb (value_start c)
  end.

(** A text with no white space at either end. *)
Definition trimmed (s : str) : Prop :=
  match s with [] => True | c :: _ => py_isspace c = false end /\
  match rev s with [] => True | c :: _ => py_isspace c = false end.

(** An outcome that [try ... except Exception] deals with: a result, or an
    exception derived from [Exception]. *)
Definition catchable {A} (o : outcome A) : Prop :=
  match o with
  | Return _ => True
  | Raise e => is_Exception (exn_class e) = true
  | OutOfFuel => False
  end.

(** The 200 answer of [chat]. *)
Definition answered (question : str) (result : value) : response :=
  mk_response 200
    (VDict [(u "question", VStr question); (u "result", result)]).

(** What the handler answers once [parse_llm_json] has returned [result]:
    200 with the question and the result, or, when [jsonify] raises on
    that answer, 500 with the text of the exception. *)
Definition final_answer (L : limits) (question : str) (result : value)
  : response :=
  match dumps_error L true (S (encoder_room L)) result with
  | Some e => mk_response 500 (VDict [(u "error", VStr (exn_msg e))])
  | None => answered question result
  end.

(** The value [data.get("question", "")] gives for an object payload. *)
Definition asked (d : pydict) : value :=
  match dict_get d (u "question") with
  | Some v => v
  | None => VStr []
  end.

Definition is_dict (v : value) : bool :=
  match v with
  | VDict _ => true
  | _ => false
  end.

(** Past its leading white space the text starts with an opening brace. *)
Definition opens_object (s : str) : bool :=
  match skip_ws s with
  | c :: _ => c =? 123
  | [] => false
  end.

Definition raises {A} (o : outcome A) : bool :=
  match o with
  | Raise _ => true
  | _ => false
  end.

Definition prose_answer : str :=
  u "Here is the JSON you asked for: {" ++ quoted "answer" ++ u ": 1}".

(** What may follow the escape of a high surrogate for it to be read on
    its own: no escape, or the escape of a code point that is not a low
    surrogate. *)
Definition after_high (t : str) : Prop :=
  startswith [92; 117] t = false \/
  exists g1 g2 g3 g4 r uni2,
    t = 92 :: 117 :: g1 :: g2 :: g3 :: g4 :: r /\
    decode_hex4 g1 g2 g3 g4 = Some uni2 /\ is_low_surrogate uni2 = false.

(** A list with a string, numbers and an object. *)
Definition sample_list : value :=
  VList [VStr (u "a ``b`` c"); VInt (-7);
         VFloat (py_float (u "1") (u ".5") (u "e3"));
         VDict sample_answer; VNone].

(** * Properties *)

(** ** Strings *)

Lemma str_eqb_eq (a b : str) : str_eqb a b = true <-> a = b.
Proof.
  revert b; induction a as [|x a IH]; intros [|y b]; simpl; split;
    try congruence; try reflexivity.
  - intros H. apply andb_true_iff in H as [Hx Hab].
    apply N.eqb_eq in Hx. apply IH in Hab. congruence.
  - intros H. injection H as -> ->. rewrite N.eqb_refl. simpl. now apply IH.
Qed.

Lemma str_eqb_refl (a : str) : str_eqb a a = true.
Proof. now apply str_eqb_eq. Qed.

Lemma startswith_app (p s : str) : startswith p (p ++ s) = true.
Proof. induction p as [|x p IH]; simpl; [easy|]. now rewrite N.eqb_refl. Qed.

Lemma startswith_split (p s : str) :
  startswith p s = true -> s = p ++ skipn (List.length p) s.
Proof.
  revert s; induction p as [|x p IH]; intros [|y s]; simpl; try easy.
  intros H. apply andb_true_iff in H as [Hx Hp].
  apply N.eqb_eq in Hx. subst y. f_equal. now apply IH.
Qed.

Lemma startswith_shorter (p s : str) :
  startswith p s = true -> p <> [] ->
  (List.length (skipn (List.length p) s) < List.length s)%nat.
Proof.
  intros H Hp. apply startswith_split in H.
  rewrite H at 2. rewrite length_app. destruct p; [easy|simpl; lia].
Qed.

(** ** The decoder stops, and raises nothing but its own errors *)

Lemma py_scanstring_eq (s : str) (chunks : str) :
  py_scanstring s chunks =
  match s with
  | [] => decode_error "Unterminated string starting at"
  | c :: s1 =>
      if c =? 34 then Return (chunks, s1)
      else if c =? 92 then
        '(ch, rest) <- scan_escape s1 ;; py_scanstring rest (chunks ++ [ch])
      else if c <? 32 then decode_error "Invalid control character at"
      else py_scanstring s1 (chunks ++ [c])
  end.
Proof.
  destruct s as [|c s1]; [reflexivity|].
  cbn [py_scanstring].
  destruct (c =? 34); [reflexivity|].
  destruct (c =? 92); [|reflexivity].
  destruct s1 as [|esc s2]; [reflexivity|].
  cbn [scan_escape].
  destruct (esc =? 117).
  - destruct s2 as [|h1 [|h2 [|h3 [|h4 s3]]]]; try reflexivity.
    destruct (decode_hex4 h1 h2 h3 h4) as [uni|]; [|reflexivity].
    destruct (is_high_surrogate uni && startswith [92; 117] s3);
      [|reflexivity].
    destruct s3 as [|a1 [|a2 [|g1 [|g2 [|g3 [|g4 s4]]]]]]; try reflexivity.
    destruct (decode_hex4 g1 g2 g3 g4) as [uni2|]; [|reflexivity].
    destruct (is_low_surrogate uni2); reflexivity.
  - destruct (backslash esc); reflexivity.
Qed.

Lemma scan_escape_shorter (s1 : str) (ch : char) (rest : str) :
  scan_escape s1 = Return (ch, rest) ->
  (List.length rest < List.length s1)%nat.
Proof.
  unfold scan_escape. destruct s1 as [|esc s2]; [discriminate|].
  destruct (esc =? 117).
  - destruct s2 as [|h1 [|h2 [|h3 [|h4 s3]]]]; try discriminate.
    destruct (decode_hex4 h1 h2 h3 h4) as [uni|]; [|discriminate].
    destruct (is_high_surrogate uni && startswith [92; 117] s3).
    + destruct s3 as [|a1 [|a2 [|g1 [|g2 [|g3 [|g4 s4]]]]]]; try discriminate.
      destruct (decode_hex4 g1 g2 g3 g4) as [uni2|]; [|discriminate].
      destruct (is_low_surrogate uni2); intros [= <- <-]; simpl; lia.
    + intros [= <- <-]; simpl; lia.
  - destruct (backslash esc); [|discriminate].
    intros [= <- <-]; simpl; lia.
Qed.

Lemma scan_escape_raises (s1 : str) (e : exn) :
  scan_escape s1 = Raise e -> exn_class e = JSONDecodeError.
Proof.
  unfold scan_escape, decode_error.
  repeat match goal with
         | |- context [match ?x with _ => _ end] => destruct x
         end; intros [= <-]; reflexivity.
Qed.

Lemma scan_escape_fuel (s1 : str) : scan_escape s1 <> OutOfFuel.
Proof.
  unfold scan_escape, decode_error.
  repeat match goal with
         | |- context [match ?x with _ => _ end] => destruct x
         end; discriminate.
Qed.

Lemma str_length_ind (P : str -> Prop) :
  (forall s, (forall s', (List.length s' < List.length s)%nat -> P s') -> P s) ->
  forall s, P s.
Proof.
  intros H s. remember (List.length s) as n eqn:Hn.
  revert s Hn. induction n as [n IH] using lt_wf_ind.
  intros s ->. apply H. intros s' Hlt. now apply (IH _ Hlt).
Qed.

Lemma behaved_weaken {A} (s : str) (o : outcome (A * str)) :
  behaved false s o -> behaved true s o.
Proof. destruct o as [[a r]|e|]; simpl; tauto. Qed.

Lemma behaved_longer {A} (b : bool) (s s' : str) (o : outcome (A * str)) :
  behaved b s o -> (List.length s <= List.length s')%nat -> behaved b s' o.
Proof. destruct o as [[a r]|e|]; simpl; intros; try tauto; lia. Qed.

Lemma expecting_value_behaved {A} (s : str) (o : outcome (A * str)) :
  behaved true s o -> behaved false s (expecting_value o).
Proof.
  destruct o as [[a r]|[c m]|]; simpl; try tauto.
  destruct c; simpl; intros [H|[_ H]]; try discriminate; auto.
Qed.

Lemma skip_ws_length (s : str) : (List.length (skip_ws s) <= List.length s)%nat.
Proof.
  induction s as [|c s IH]; simpl; [lia|].
  destruct (is_ws c); simpl; lia.
Qed.

Lemma py_scanstring_behaved (s chunks : str) :
  behaved false s (py_scanstring s chunks).
Proof.
  revert chunks. induction s as [s IH] using str_length_ind. intros chunks.
  rewrite py_scanstring_eq. destruct s as [|c s1]; [simpl; auto|].
  destruct (c =? 34); [simpl; lia|].
  destruct (c =? 92).
  - destruct (scan_escape s1) as [[ch rest]|e|] eqn:He; simpl.
    + apply scan_escape_shorter in He.
      specialize (IH rest ltac:(simpl; lia) (chunks ++ [ch])).
      eapply behaved_longer; [exact IH|simpl; lia].
    + left. now rewrite (scan_escape_raises _ _ He).
    + eapply scan_escape_fuel; eauto.
  - destruct (c <? 32); [simpl; auto|].
    specialize (IH s1 ltac:(simpl; lia) (chunks ++ [c])).
    eapply behaved_longer; [exact IH|simpl; lia].
Qed.

Section Loops.
Variable scan : scanner.

Lemma array_loop_behaved (fuel : nat) (s : str) (values : list value) :
  (forall s', (List.length s' <= List.length s)%nat -> behaved true s' (scan s')) ->
  (List.length s < fuel)%nat ->
  behaved false s (array_loop scan fuel s values).
Proof.
  revert s values. induction fuel as [|fuel IH]; intros s values Hscan Hfuel;
    [lia|].
  cbn [array_loop].
  pose proof (expecting_value_behaved _ _ (Hscan s (Nat.le_refl _))) as Hs.
  destruct (expecting_value (scan s)) as [[v r]|e|]; simpl in *; auto.
  pose proof (skip_ws_length r) as Hr.
  destruct (skip_ws r) as [|c r1] eqn:Er; simpl; auto.
  simpl in Hr.
  destruct (c =? 93); [simpl in *; lia|].
  destruct (c =? 44); [|simpl; auto].
  pose proof (skip_ws_length r1) as Hr1.
  eapply behaved_longer.
  - apply IH; [|lia]. intros s' Hs'. apply Hscan. lia.
  - lia.
Qed.

Lemma JSONArray_behaved (s : str) :
  (forall s', (List.length s' <= List.length s)%nat -> behaved true s' (scan s')) ->
  behaved false (91 :: s) (JSONArray scan s).
Proof.
  intros Hscan. unfold JSONArray.
  pose proof (skip_ws_length s) as Hs.
  destruct (skip_ws s) as [|c r] eqn:Es.
  - eapply behaved_longer; [apply array_loop_behaved|]; simpl; auto; try lia.
    intros s' Hs'. apply Hscan. simpl in Hs'. lia.
  - destruct (c =? 93); [simpl in *; lia|].
    eapply behaved_longer; [apply array_loop_behaved|]; simpl in *; try lia.
    intros s' Hs'. apply Hscan. lia.
Qed.

Lemma object_loop_behaved (fuel : nat) (s : str) (pairs : list (str * value)) :
  (forall s', (List.length s' <= List.length s)%nat -> behaved true s' (scan s')) ->
  (List.length s < fuel)%nat ->
  behaved false s (object_loop scan fuel s pairs).
Proof.
  revert s pairs. induction fuel as [|fuel IH]; intros s pairs Hscan Hfuel;
    [lia|].
  cbn [object_loop].
  pose proof (py_scanstring_behaved s []) as Hk.
  destruct (py_scanstring s []) as [[key r]|e|]; simpl in *; auto.
  pose proof (skip_ws_length r) as Hr.
  destruct (skip_ws r) as [|c r1]; simpl in *; auto.
  destruct (c =? 58); [|simpl; auto].
  pose proof (skip_ws_length r1) as Hr1.
  pose proof (expecting_value_behaved _ _
                (Hscan (skip_ws r1) ltac:(lia))) as Hv.
  destruct (expecting_value (scan (skip_ws r1))) as [[v r2]|e|];
    simpl in *; auto.
  pose proof (skip_ws_length r2) as Hr2.
  destruct (skip_ws r2) as [|c' r3]; simpl in *; auto.
  destruct (c' =? 125); [simpl in *; lia|].
  destruct (c' =? 44); [|simpl; auto].
  pose proof (skip_ws_length r3) as Hr3.
  destruct (skip_ws r3) as [|q r4]; simpl in *; auto.
  destruct (q =? 34); [|simpl; auto].
  eapply behaved_longer.
  - apply IH; [|lia]. intros s' Hs'. apply Hscan. lia.
  - lia.
Qed.

Lemma JSONObject_behaved (s : str) :
  (forall s', (List.length s' <= List.length s)%nat -> behaved true s' (scan s')) ->
  behaved false (123 :: s) (JSONObject scan s).
Proof.
  intros Hscan. unfold JSONObject.
  pose proof (skip_ws_length s) as Hs.
  destruct (skip_ws s) as [|c r] eqn:Es; [simpl; auto|].
  destruct (c =? 125); [simpl in *; lia|].
  destruct (c =? 34); [|simpl; auto].
  eapply behaved_longer; [apply object_loop_behaved|]; simpl in *; try lia.
  intros s' Hs'. apply Hscan. lia.
Qed.

End Loops.

Lemma span_digits_app (s : str) :
  s = fst (span_digits s) ++ snd (span_digits s).
Proof.
  induction s as [|c s IH]; simpl; [reflexivity|].
  destruct (is_digit c); [|reflexivity].
  destruct (span_digits s) as [ds r]. simpl in *. now f_equal.
Qed.

Lemma match_integer_app (s ip r : str) :
  match_integer s = Some (ip, r) -> s = ip ++ r /\ ip <> [].
Proof.
  unfold match_integer. destruct s as [|c s']; [discriminate|].
  destruct (c =? 48); [intros [= <- <-]; now split|].
  destruct (is_digit c); [|discriminate].
  pose proof (span_digits_app s') as Hs.
  destruct (span_digits s') as [ds r']. simpl in Hs.
  intros [= <- <-]. split; [simpl; now f_equal|discriminate].
Qed.

Lemma match_frac_app (s : str) :
  s = fst (match_frac s) ++ snd (match_frac s).
Proof.
  unfold match_frac. destruct s as [|dot [|d s']]; try reflexivity.
  destruct ((dot =? 46) && is_digit d); [|reflexivity].
  pose proof (span_digits_app (d :: s')) as Hs.
  destruct (span_digits (d :: s')) as [ds r']. simpl in *. now f_equal.
Qed.

Lemma match_exp_app (s : str) :
  s = fst (match_exp s) ++ snd (match_exp s).
Proof.
  unfold match_exp. destruct s as [|e r]; [reflexivity|].
  destruct ((e =? 101) || (e =? 69)); [|reflexivity].
  destruct r as [|sg [|d r']]; [reflexivity| |].
  - destruct (is_digit sg); reflexivity.
  - destruct (((sg =? 45) || (sg =? 43)) && is_digit d).
    + pose proof (span_digits_app (d :: r')) as Hs.
      destruct (span_digits (d :: r')) as [ds r'']. simpl in *.
      now do 2 f_equal.
    + destruct (is_digit sg); [|reflexivity].
      pose proof (span_digits_app (sg :: d :: r')) as Hs.
      destruct (span_digits (sg :: d :: r')) as [ds r'']. simpl in *.
      now f_equal.
Qed.

Lemma match_number_app (s integer frac exp rest : str) :
  match_number s = Some (integer, frac, exp, rest) ->
  s = integer ++ frac ++ exp ++ rest /\ integer <> [].
Proof.
  unfold match_number.
  set (p := match s with
            | [] => ([], s)
            | c :: r => if c =? 45 then ([c], r) else ([], s)
            end).
  assert (Hp : s = fst p ++ snd p).
  { subst p. destruct s as [|c r]; [reflexivity|].
    destruct (c =? 45); reflexivity. }
  destruct p as [sign s1]. simpl in Hp.
  destruct (match_integer s1) as [[ip r1]|] eqn:Hi; [|discriminate].
  apply match_integer_app in Hi as [Hs1 Hip].
  pose proof (match_frac_app r1) as Hf.
  destruct (match_frac r1) as [fr r2]. simpl in Hf.
  pose proof (match_exp_app r2) as He.
  destruct (match_exp r2) as [ex r3]. simpl in He.
  intros [= <- <- <- <-]. split.
  - rewrite Hp, Hs1, Hf, He. now rewrite <- !app_assoc.
  - destruct sign; simpl; [exact Hip|discriminate].
Qed.

Section Decoding.
Variable L : limits.

Lemma scan_once_behaved (depth : nat) (s : str) :
  behaved true s (scan_once L depth s).
Proof.
  revert s. induction depth as [|depth IH]; intros s; [now left|].
  cbn [scan_once]. destruct s as [|nextchar s1]; [simpl; auto|].
  destruct (nextchar =? 34).
  { pose proof (py_scanstring_behaved s1 []) as H.
    destruct (py_scanstring s1 []) as [[r rest]|e|]; simpl in *;
      [lia|tauto|exact H]. }
  destruct (nextchar =? 123).
  { apply behaved_weaken.
    eapply behaved_longer; [apply JSONObject_behaved|simpl; lia].
    intros s' Hs'. apply IH. }
  destruct (nextchar =? 91).
  { apply behaved_weaken.
    eapply behaved_longer; [apply JSONArray_behaved|simpl; lia].
    intros s' Hs'. apply IH. }
  destruct (startswith (u "null") (nextchar :: s1)) eqn:E1.
  { apply startswith_shorter in E1; [exact E1|discriminate]. }
  destruct (startswith (u "true") (nextchar :: s1)) eqn:E2.
  { apply startswith_shorter in E2; [exact E2|discriminate]. }
  destruct (startswith (u "false") (nextchar :: s1)) eqn:E3.
  { apply startswith_shorter in E3; [exact E3|discriminate]. }
  destruct (match_number (nextchar :: s1)) as [[[[integer frac] exp] rest]|]
    eqn:En.
  { apply match_number_app in En as [Hs Hi].
    assert (List.length rest < List.length (nextchar :: s1))%nat.
    { rewrite Hs, !length_app. destruct integer; [easy|simpl; lia]. }
    destruct (frac ++ exp); [|exact H]. unfold py_int.
    destruct (too_many_digits L (digit_count integer)); [now left|exact H]. }
  destruct (startswith (u "NaN") (nextchar :: s1)) eqn:E4.
  { apply startswith_shorter in E4; [exact E4|discriminate]. }
  destruct (startswith (u "Infinity") (nextchar :: s1)) eqn:E5.
  { apply startswith_shorter in E5; [exact E5|discriminate]. }
  destruct (startswith (u "-Infinity") (nextchar :: s1)) eqn:E6.
  { apply startswith_shorter in E6; [exact E6|discriminate]. }
  simpl; auto.
Qed.

(** [json.loads] gives a value or raises one of the decoder's exceptions,
    which all derive from [Exception]. *)
Lemma json_loads_outcome (s : str) :
  (exists v, json_loads L s = Return v) \/
  (exists e, json_loads L s = Raise e /\ decoder_error (exn_class e) = true).
Proof.
  unfold json_loads.
  destruct (startswith [65279] s); [right; eexists; split; reflexivity|].
  pose proof (expecting_value_behaved _ _
                (scan_once_behaved (decoder_depth L) (skip_ws s))) as H.
  destruct (expecting_value (scan_once L (decoder_depth L) (skip_ws s)))
    as [[obj rest]|e|]; simpl in *.
  - destruct (skip_ws rest); [left; eauto|right; eexists; split; reflexivity].
  - right. exists e. split; [reflexivity|]. destruct H as [H|[H _]]; easy.
  - contradiction.
Qed.

Lemma decoder_error_caught (c : exc_class) :
  decoder_error c = true -> is_Exception c = true.
Proof. now destruct c. Qed.

(** ** [parse_llm_json] *)

(** The two ways out of [parse_llm_json]: the decoded value, or the failure
    object built around the text that was given to [json.loads]. *)
Lemma parse_llm_json_cases (raw : str) :
  (exists v, json_loads L (strip_fences raw) = Return v /\
             parse_llm_json L raw = Return v) \/
  (exists e, json_loads L (strip_fences raw) = Raise e /\
             parse_llm_json L raw = Return (failure_object (strip_fences raw))).
Proof.
  unfold parse_llm_json. fold (strip_fences raw).
  destruct (json_loads_outcome (strip_fences raw)) as [[v Hv]|[e [He Hc]]].
  - left. exists v. rewrite Hv. now split.
  - right. exists e. rewrite He. split; [reflexivity|].
    unfold try_except. now rewrite (decoder_error_caught _ Hc).
Qed.

(** C4. [parse_llm_json] returns a value on every string: it does not
    raise and its loops always finish. *)
Theorem parse_llm_json_total (raw : str) :
  exists v, parse_llm_json L raw = Return v.
Proof.
  destruct (parse_llm_json_cases raw) as [[v [_ H]]|[e [_ H]]]; eauto.
Qed.

(** C7. On the text [not json at all], [parse_llm_json] returns the mapping
    with exactly the three entries answer, justification and raw_output,
    the last one holding that text. *)
Theorem parse_llm_json_not_json :
  parse_llm_json L (u "not json at all") =
  Return (VDict [ (u "answer", VStr (u "ERROR"));
                  (u "justification", VStr (u "LLM returned invalid JSON"));
                  (u "raw_output", VStr (u "not json at all")) ]).
Proof. vm_compute. reflexivity. Qed.

(** C1, amended. When the cleaned text does not parse, [parse_llm_json]
    returns the failure object whose raw_output is the cleaned text: the
    text received with every fence marker removed. *)
Theorem raw_output_is_cleaned_text (raw : str) (e : exn) :
  json_loads L (strip_fences raw) = Raise e ->
  parse_llm_json L raw = Return (failure_object (strip_fences raw)).
Proof.
  intros He.
  destruct (parse_llm_json_cases raw) as [[v [Hv _]]|[e' [_ H]]];
    [congruence|exact H].
Qed.

(** C2. A cleaned text that is a JSON array is returned as the list it
    decodes to, not replaced by the failure object. *)
Theorem parse_llm_json_returns_list :
  parse_llm_json L (fence_json ++ LF ++ u "[1, 2]" ++ LF ++ fence) =
  Return (VList [VInt 1; VInt 2]).
Proof. vm_compute. reflexivity. Qed.

(** C5, amended. For every string, either the cleaned text decodes and the
    decoded value is returned as it is, whatever its keys, or the returned
    object has the keys answer and justification (and raw_output). *)
Theorem answer_keys_on_failure (raw : str) :
  (exists v, json_loads L (strip_fences raw) = Return v /\
             parse_llm_json L raw = Return v) \/
  (exists v, parse_llm_json L raw = Return v /\
             has_key v (u "answer") /\ has_key v (u "justification") /\
             has_key v (u "raw_output")).
Proof.
  destruct (parse_llm_json_cases raw) as [H|[e [_ H]]]; [now left|right].
  exists (failure_object (strip_fences raw)). split; [exact H|].
  unfold has_key, failure_object.
  repeat split; do 2 eexists; (split; [reflexivity|]); vm_compute; reflexivity.
Qed.

End Decoding.

(** C1, as stated, fails: on a fenced text that is not JSON the failure
    object holds the text without its fences, not the text received. *)
Lemma raw_output_original_counterexample :
  ~ (forall L raw e,
        json_loads L (strip_fences raw) = Raise e ->
        parse_llm_json L raw = Return (failure_object raw)).
Proof.
  intros H.
  specialize (H sample_limits
                (fence_json ++ LF ++ u "no answer" ++ LF ++ fence)
                (mk_exn JSONDecodeError (u "Expecting value"))).
  vm_compute in H. specialize (H eq_refl). discriminate H.
Qed.

Lemma raw_output_is_cleaned_text_witness :
  parse_llm_json sample_limits
    (fence_json ++ LF ++ u "no answer" ++ LF ++ fence) =
  Return (failure_object (LF ++ u "no answer" ++ LF)).
Proof.
  apply (raw_output_is_cleaned_text sample_limits
           (fence_json ++ LF ++ u "no answer" ++ LF ++ fence)
           (mk_exn JSONDecodeError (u "Expecting value"))).
  vm_compute. reflexivity.
Defined.

(** C5, as stated, fails: the empty JSON object is returned as it is. *)
Lemma answer_keys_counterexample :
  ~ (forall L raw v,
        parse_llm_json L raw = Return v ->
        has_key v (u "answer") /\ has_key v (u "justification")).
Proof.
  intros H.
  destruct (H sample_limits (u "{}") (VDict []) eq_refl) as [[d [x [Hd Hx]]] _].
  injection Hd as <-. discriminate Hx.
Qed.

(** ** Trimming the question *)

Lemma lstrip_head (s : str) :
  match lstrip s with [] => True | c :: _ => py_isspace c = false end.
Proof.
  induction s as [|c s IH]; [exact I|]. cbn [lstrip].
  destruct (py_isspace c) eqn:E; [exact IH|exact E].
Qed.

Lemma lstrip_nil (s : str) : lstrip s = [] <-> forallb py_isspace s = true.
Proof.
  induction s as [|c s IH]; [easy|]. cbn [lstrip forallb].
  destruct (py_isspace c); cbn [andb]; [exact IH|easy].
Qed.

Lemma forallb_rev_eq {A} (f : A -> bool) (l : list A) :
  forallb f (rev l) = forallb f l.
Proof.
  induction l as [|a l IH]; [reflexivity|]. cbn [rev forallb].
  rewrite forallb_app, IH. cbn [forallb]. rewrite andb_true_r. apply andb_comm.
Qed.

Lemma lstrip_snoc (a : str) (c : char) :
  py_isspace c = false -> exists a', lstrip (a ++ [c]) = a' ++ [c].
Proof.
  intros H. induction a as [|x a IH]; cbn [app lstrip].
  - rewrite H. now exists [].
  - destruct (py_isspace x); [exact IH|]. now exists (x :: a).
Qed.

(** [strip] leaves nothing exactly of the texts made of white space. *)
Lemma strip_nil (s : str) : strip s = [] <-> forallb py_isspace s = true.
Proof.
  rewrite <- lstrip_nil. unfold strip, rstrip. split.
  - intros H. apply (f_equal (@rev N)) in H. rewrite rev_involutive in H.
    cbn [rev] in H. apply lstrip_nil in H. rewrite forallb_rev_eq in H.
    pose proof (lstrip_head s) as Hh.
    destruct (lstrip s) as [|c t]; [reflexivity|].
    cbn [forallb] in H. rewrite Hh in H. discriminate H.
  - intros ->. reflexivity.
Qed.

Lemma strip_trimmed (s : str) : trimmed (strip s).
Proof.
  unfold trimmed, strip, rstrip. rewrite rev_involutive.
  split; [|apply lstrip_head].
  pose proof (lstrip_head s) as H. destruct (lstrip s) as [|c t]; [exact I|].
  cbn [rev]. destruct (lstrip_snoc (rev t) c H) as (a' & ->).
  rewrite rev_app_distr. exact H.
Qed.

(** ** What [jsonify] encodes *)

Lemma first_error_none (l : list (option exn)) :
  (forall e, In e l -> e = None) -> first_error l = None.
Proof.
  induction l as [|e l IH]; intros H; [reflexivity|]. cbn [first_error fold_right].
  rewrite (H e (or_introl eq_refl)). apply IH. intros e' He'. apply H. now right.
Qed.

Lemma In_insert_item {A} (x kv : str * A) (l : list (str * A)) :
  In x (insert_item kv l) -> x = kv \/ In x l.
Proof.
  induction l as [|kv' l IH]; cbn [insert_item].
  - intros [<-|[]]. now left.
  - destruct (str_ltb (fst kv) (fst kv')).
    + intros [<-|H]; [now left|now right].
    + intros [<-|H]; [right; now left|].
      destruct (IH H) as [->|H']; [now left|right; now right].
Qed.

Lemma In_sort_items {A} (x : str * A) (l : list (str * A)) :
  In x (sort_items l) -> In x l.
Proof.
  induction l as [|kv l IH]; [easy|]. cbn [sort_items fold_right].
  intros H. apply In_insert_item in H as [->|H]; [now left|right; now apply IH].
Qed.

Section Encoding.
Variable L : limits.

(** A value with integers that can be written, and no deeper than there
    is room for, is encoded without an exception. *)
Lemma dumps_error_fits (sort_keys : bool) (x : value) :
  forall depth,
    (value_depth x <= depth)%nat -> ints_ok L x = true ->
    dumps_error L sort_keys depth x = None.
Proof.
  induction x as [| b | z | f | s | l IHl | d IHd] using value_ind;
    intros depth Hdepth Hints; try reflexivity.
  - cbn [dumps_error ints_ok] in *. apply negb_true_iff in Hints.
    now rewrite Hints.
  - cbn [value_depth] in Hdepth. destruct depth as [|depth]; [lia|].
    cbn [dumps_error]. apply first_error_none. intros e He.
    apply in_map_iff in He as (x & <- & Hx).
    rewrite Forall_forall in IHl. apply (IHl x Hx).
    + assert (Hle : (list_max (map value_depth l) <= depth)%nat) by lia.
      apply list_max_le in Hle. rewrite Forall_forall in Hle.
      apply Hle. now apply in_map.
    + cbn [ints_ok] in Hints. rewrite forallb_forall in Hints. now apply Hints.
  - cbn [value_depth] in Hdepth. destruct depth as [|depth]; [lia|].
    cbn [dumps_error]. apply first_error_none. intros e He.
    apply in_map_iff in He as ([k e'] & <- & Hk). cbn [snd].
    assert (Hin : In (k, e')
              (map (fun kv => (fst kv, dumps_error L sort_keys depth (snd kv))) d)).
    { destruct sort_keys; [now apply In_sort_items|exact Hk]. }
    apply in_map_iff in Hin as ([k' v] & [= <- <-] & Hv). cbn [snd].
    rewrite Forall_forall in IHd. apply (IHd (k', v) Hv).
    + assert (Hle : (list_max (map (fun kv => value_depth (snd kv)) d)
                     <= depth)%nat) by lia.
      apply list_max_le in Hle. rewrite Forall_forall in Hle.
      apply Hle. now apply (in_map (fun kv => value_depth (snd kv)) d (k', v)).
    + cbn [ints_ok] in Hints. rewrite forallb_forall in Hints.
      now apply (Hints (k', v)).
Qed.

Lemma jsonify_fits (v : value) :
  (value_depth v <= encoder_depth L)%nat -> ints_ok L v = true ->
  jsonify L v = Return v.
Proof.
  intros Hd Hi. unfold jsonify. now rewrite (dumps_error_fits true v _ Hd Hi).
Qed.

(** The answers the handler builds for an error are always encoded. *)
Lemma jsonify_error_body (msg : str) :
  jsonify L (error_body msg) = Return (error_body msg).
Proof. reflexivity. Qed.

(** The 200 answer is encoded when its result is, one level down. *)
Lemma jsonify_answer (question : str) (result : value) :
  jsonify L (body (answered question result)) =
  match dumps_error L true (S (encoder_room L)) result with
  | Some e => Raise e
  | None => Return (body (answered question result))
  end.
Proof.
  unfold jsonify, encoder_depth, answered. cbn [body dumps_error map fst snd].
  change (sort_items
            [(u "question", @None exn);
             (u "result", dumps_error L true (S (encoder_room L)) result)])
    with [(u "question", @None exn);
          (u "result", dumps_error L true (S (encoder_room L)) result)].
  cbn [map snd first_error fold_right].
  now destruct (dumps_error L true (S (encoder_room L)) result).
Qed.

End Encoding.

(** ** [json.encoder] *)

(** ** Strings survive encoding and decoding *)

Ltac cmp :=
  repeat match goal with
         | |- context [?a <=? ?b] => destruct (N.leb_spec a b)
         | |- context [?a <? ?b] => destruct (N.ltb_spec a b)
         | |- context [?a =? ?b] => destruct (N.eqb_spec a b)
         end.

Ltac dlia := zify; Z.to_euclidean_division_equations; lia.

Lemma hexval_hexdigit (d : N) : d < 16 -> hexval (hexdigit d) = Some d.
Proof.
  intros Hd. unfold hexval, hexdigit.
  destruct (N.ltb_spec d 10); cmp; cbn [andb orb]; cbv iota; try lia;
    f_equal; lia.
Qed.

Lemma decode_format_04x (n : N) :
  n < 65536 ->
  decode_hex4 (hexdigit (n / 4096 mod 16)) (hexdigit (n / 256 mod 16))
              (hexdigit (n / 16 mod 16)) (hexdigit (n mod 16)) = Some n.
Proof.
  intros Hn. unfold decode_hex4.
  rewrite !hexval_hexdigit by (apply N.mod_lt; discriminate).
  f_equal.
  zify. Z.to_euclidean_division_equations. lia.
Qed.

Lemma lor_low_bits (a b k : N) : b < 2 ^ k -> N.lor (a * 2 ^ k) b = a * 2 ^ k + b.
Proof.
  intros Hb.
  assert (Hland : N.land (a * 2 ^ k) b = 0).
  { apply N.bits_inj. intros i. rewrite N.land_spec, N.bits_0.
    destruct (N.lt_ge_cases i k) as [Hi|Hi].
    - now rewrite N.mul_pow2_bits_low.
    - rewrite <- (N.mod_small b (2 ^ k)) by exact Hb.
      rewrite N.mod_pow2_bits_high by exact Hi. apply andb_false_r. }
  rewrite (N.add_nocarry_lxor _ _ Hland). symmetry. now apply N.lxor_lor.
Qed.

Lemma land_1023 (x : N) : N.land x 1023 = x mod 1024.
Proof. change 1023 with (N.ones 10). now rewrite N.land_ones. Qed.

Lemma high_surrogate_value (n : N) :
  n < 1048576 ->
  N.lor 55296 (N.land (N.shiftr n 10) 1023) = 55296 + n / 1024.
Proof.
  intros Hn. rewrite land_1023, N.shiftr_div_pow2.
  change (2 ^ 10) with 1024.
  assert (Hq : n / 1024 < 1024) by (apply N.Div0.div_lt_upper_bound; lia).
  rewrite (N.mod_small _ _ Hq).
  change 55296 with (54 * 2 ^ 10). apply lor_low_bits. exact Hq.
Qed.

Lemma low_surrogate_value (n : N) :
  N.lor 56320 (N.land n 1023) = 56320 + n mod 1024.
Proof.
  rewrite land_1023. change 56320 with (55 * 2 ^ 10).
  apply lor_low_bits. apply N.mod_lt. discriminate.
Qed.

Lemma join_surrogates_value (n : N) :
  join_surrogates (55296 + n / 1024) (56320 + n mod 1024) = 65536 + n.
Proof.
  unfold join_surrogates. f_equal.
  replace (55296 + n / 1024 - 55296) with (n / 1024) by dlia.
  replace (56320 + n mod 1024 - 56320) with (n mod 1024) by dlia.
  rewrite N.shiftl_mul_pow2, lor_low_bits by (apply N.mod_lt; discriminate).
  change (2 ^ 10) with 1024. rewrite N.mul_comm. symmetry.
  apply N.div_mod. discriminate.
Qed.

Lemma escaped_after_high (s rest : str) :
  forallb (fun c => c <? 1114112) s = true ->
  match s with c :: _ => is_low_surrogate c = false | [] => True end ->
  after_high (flat_map escape_char s ++ 34 :: rest).
Proof.
  destruct s as [|c s]; [now left|]. cbn [forallb flat_map].
  intros Hv Hlow. apply andb_true_iff in Hv as [Hc _]. apply N.ltb_lt in Hc.
  rewrite <- app_assoc. unfold escape_char.
  destruct (N.eqb_spec c 92) as [->|H92]; [now left|].
  destruct (N.eqb_spec c 34) as [->|H34]; [now left|].
  destruct (N.eqb_spec c 8) as [->|H8]; [now left|].
  destruct (N.eqb_spec c 12) as [->|H12]; [now left|].
  destruct (N.eqb_spec c 10) as [->|H10]; [now left|].
  destruct (N.eqb_spec c 13) as [->|H13]; [now left|].
  destruct (N.eqb_spec c 9) as [->|H9]; [now left|].
  destruct ((32 <=? c) && (c <=? 126)) eqn:Hp.
  { left. cbn [app startswith]. destruct (N.eqb_spec 92 c); [congruence|reflexivity]. }
  destruct (N.ltb_spec c 65536) as [Hbmp|Hastral].
  - right. cbn [app format_04x]. do 4 eexists. exists (flat_map escape_char s ++ 34 :: rest), c.
    split; [reflexivity|]. split; [now apply decode_format_04x|exact Hlow].
  - right. set (n := c - 65536). assert (Hn : n < 1048576) by lia.
    cbv zeta. fold n. rewrite (high_surrogate_value _ Hn).
    assert (Hq : n / 1024 < 1024) by (apply N.Div0.div_lt_upper_bound; lia).
    cbn [app format_04x]. do 4 eexists.
    eexists. exists (55296 + n / 1024).
    split; [reflexivity|]. split; [apply decode_format_04x; lia|].
    unfold is_low_surrogate. cmp; cbn [andb]; try reflexivity; lia.
Qed.

(** Scanning the escape of one code point gives the code point back. *)
Lemma py_scanstring_escape_char (c : char) (rest chunks : str) :
  c < 1114112 ->
  (is_high_surrogate c = true -> after_high rest) ->
  py_scanstring (escape_char c ++ rest) chunks =
  py_scanstring rest (chunks ++ [c]).
Proof.
  intros Hc Hnext. unfold escape_char.
  destruct (N.eqb_spec c 92) as [->|H92]; [now rewrite py_scanstring_eq|].
  destruct (N.eqb_spec c 34) as [->|H34]; [now rewrite py_scanstring_eq|].
  destruct (N.eqb_spec c 8) as [->|H8]; [now rewrite py_scanstring_eq|].
  destruct (N.eqb_spec c 12) as [->|H12]; [now rewrite py_scanstring_eq|].
  destruct (N.eqb_spec c 10) as [->|H10]; [now rewrite py_scanstring_eq|].
  destruct (N.eqb_spec c 13) as [->|H13]; [now rewrite py_scanstring_eq|].
  destruct (N.eqb_spec c 9) as [->|H9]; [now rewrite py_scanstring_eq|].
  destruct ((32 <=? c) && (c <=? 126)) eqn:Hp.
  { apply andb_true_iff in Hp as [Hlo Hhi].
    apply N.leb_le in Hlo. apply N.leb_le in Hhi.
    rewrite py_scanstring_eq. cbn [app].
    destruct (N.eqb_spec c 34); [contradiction|].
    destruct (N.eqb_spec c 92); [contradiction|].
    destruct (N.ltb_spec c 32); [lia|reflexivity]. }
  destruct (N.ltb_spec c 65536) as [Hbmp|Hastral].
  - rewrite py_scanstring_eq. cbn [app format_04x N.eqb Pos.eqb].
    cbv iota. unfold scan_escape. cbn [N.eqb Pos.eqb]. cbv iota.
    rewrite (decode_format_04x _ Hbmp).
    destruct (is_high_surrogate c) eqn:Hs; [|reflexivity].
    destruct (Hnext eq_refl) as [Hno|(g1 & g2 & g3 & g4 & r & uni2 & -> & Hg & Hl)].
    + rewrite Hno. reflexivity.
    + cbn [andb startswith N.eqb Pos.eqb]. cbv iota. now rewrite Hg, Hl.
  - set (n := c - 65536). assert (Hn : n < 1048576) by lia.
    cbv zeta. fold n.
    rewrite (high_surrogate_value _ Hn), low_surrogate_value.
    assert (Hq : n / 1024 < 1024) by (apply N.Div0.div_lt_upper_bound; lia).
    assert (Hr : n mod 1024 < 1024) by (apply N.mod_lt; discriminate).
    rewrite py_scanstring_eq. cbn [app format_04x N.eqb Pos.eqb].
    cbv iota. unfold scan_escape. cbn [N.eqb Pos.eqb]. cbv iota.
    rewrite decode_format_04x by dlia.
    assert (Hs : is_high_surrogate (55296 + n / 1024) = true).
    { unfold is_high_surrogate. cmp; cbn [andb]; try reflexivity; dlia. }
    rewrite Hs. cbn [andb startswith N.eqb Pos.eqb]. cbv iota.
    rewrite decode_format_04x by dlia.
    assert (Hl : is_low_surrogate (56320 + n mod 1024) = true).
    { unfold is_low_surrogate. cmp; cbn [andb]; try reflexivity; dlia. }
    rewrite Hl. rewrite join_surrogates_value. cbn [bind].
    do 2 f_equal. subst n. f_equal. lia.
Qed.

Lemma py_scanstring_encoded (s rest chunks : str) :
  is_text s = true ->
  py_scanstring (flat_map escape_char s ++ 34 :: rest) chunks =
  Return (chunks ++ s, rest).
Proof.
  unfold is_text. revert chunks. induction s as [|c s IH]; intros chunks Hs.
  - cbn [flat_map app]. rewrite py_scanstring_eq. cbn. now rewrite app_nil_r.
  - apply andb_true_iff in Hs as [Hv Hp].
    cbn [forallb] in Hv. apply andb_true_iff in Hv as [Hc Hv].
    cbn [no_pair] in Hp. apply andb_true_iff in Hp as [Hhead Hp].
    cbn [flat_map]. rewrite <- app_assoc.
    rewrite py_scanstring_escape_char.
    + rewrite IH by (now rewrite Hv, Hp). now rewrite <- app_assoc.
    + now apply N.ltb_lt.
    + intros Hhigh. apply escaped_after_high; [exact Hv|].
      destruct s as [|c' s']; [exact I|].
      rewrite Hhigh in Hhead. now apply negb_true_iff in Hhead.
Qed.

(** ** Integers survive printing and reading *)

Lemma digits_from_app (ds ds' : str) (acc : Z) :
  digits_from (ds ++ ds') acc = digits_from ds' (digits_from ds acc).
Proof. apply fold_left_app. Qed.

Lemma repr_digits_S (fuel : nat) (n : N) (acc : str) :
  repr_digits (S fuel) n acc =
  if n <? 10 then (48 + n mod 10) :: acc
  else repr_digits fuel (n / 10) ((48 + n mod 10) :: acc).
Proof. reflexivity. Qed.

Lemma repr_digits_spec (fuel : nat) (n : N) (acc : str) :
  n < 2 ^ N.of_nat (S fuel) ->
  exists ds,
    repr_digits (S fuel) n acc = ds ++ acc /\
    forallb is_digit ds = true /\
    ds <> [] /\
    (forall a, digits_from ds a
               = (a * 10 ^ Z.of_nat (List.length ds) + Z.of_N n)%Z) /\
    (hd 0 ds = 48 -> n = 0).
Proof.
  revert n acc. induction fuel as [|fuel IH]; intros n acc Hn;
    rewrite repr_digits_S; destruct (N.ltb_spec n 10) as [Hlt|Hge].
  1, 3: exists [48 + n mod 10]; rewrite (N.mod_small _ _ Hlt);
    repeat split;
    [ unfold is_digit; cbn [forallb]; cmp; cbn [andb]; try reflexivity; lia
    | discriminate
    | intros a; unfold digits_from; cbn [fold_left List.length];
      change (10 ^ Z.of_nat 1)%Z with 10%Z; lia
    | cbn [hd]; lia ].
  - exfalso. change (2 ^ N.of_nat 1) with 2 in Hn. lia.
  - assert (Hq : n / 10 < 2 ^ N.of_nat (S fuel)).
    { rewrite Nat2N.inj_succ, N.pow_succ_r' in Hn.
      revert Hn. generalize (2 ^ N.of_nat (S fuel)). intros m Hn. dlia. }
    destruct (IH (n / 10) ((48 + n mod 10) :: acc) Hq)
      as (ds & Hds & Hdig & Hne & Hval & Hhd).
    exists (ds ++ [48 + n mod 10]). repeat split.
    + rewrite Hds. now rewrite <- app_assoc.
    + rewrite forallb_app, Hdig. unfold is_digit. cbn [forallb].
      cmp; cbn [andb]; try reflexivity; dlia.
    + destruct ds; discriminate.
    + intros a. rewrite digits_from_app, Hval, length_app.
      unfold digits_from. cbn [fold_left List.length].
      rewrite Nat.add_1_r, Nat2Z.inj_succ, Z.pow_succ_r by lia.
      generalize (10 ^ Z.of_nat (List.length ds))%Z. intros p. dlia.
    + destruct ds as [|d ds']; [contradiction|]. cbn [app hd]. intros Hd.
      specialize (Hhd Hd). dlia.
Qed.

Lemma repr_N_spec (n : N) :
  exists ds,
    repr_N n = ds /\
    forallb is_digit ds = true /\
    ds <> [] /\
    digits_from ds 0 = Z.of_N n /\
    (hd 0 ds = 48 -> n = 0).
Proof.
  unfold repr_N.
  destruct (repr_digits_spec (N.to_nat (N.log2 n)) n []) as
    (ds & Hds & Hdig & Hne & Hval & Hhd).
  - rewrite Nat2N.inj_succ, N2Nat.id.
    destruct n as [|p]; [reflexivity|]. apply N.log2_spec. reflexivity.
  - exists ds. rewrite Hds, List.app_nil_r. repeat split; auto.
Qed.

Lemma span_digits_exact (ds rest : str) :
  forallb is_digit ds = true -> at_delim rest = true ->
  span_digits (ds ++ rest) = (ds, rest).
Proof.
  intros Hds Hrest. induction ds as [|c ds IH].
  - destruct rest as [|c r]; [reflexivity|]. cbn [app span_digits].
    replace (is_digit c) with false; [reflexivity|].
    revert Hrest. unfold at_delim, is_delim, is_ws, is_digit.
    cmp; cbn [andb orb]; try reflexivity; try discriminate; lia.
  - cbn [forallb] in Hds. apply andb_true_iff in Hds as [Hc Hds].
    cbn [app span_digits]. rewrite Hc, (IH Hds). reflexivity.
Qed.

Lemma match_frac_delim (rest : str) :
  at_delim rest = true -> match_frac rest = ([], rest).
Proof.
  destruct rest as [|c [|d r]]; try reflexivity.
  unfold match_frac, at_delim, is_delim, is_ws.
  destruct (N.eqb_spec c 46) as [->|]; [discriminate|reflexivity].
Qed.

Lemma match_exp_delim (rest : str) :
  at_delim rest = true -> match_exp rest = ([], rest).
Proof.
  destruct rest as [|c r]; [reflexivity|].
  unfold match_exp, at_delim, is_delim, is_ws.
  destruct (N.eqb_spec c 101) as [->|]; [discriminate|].
  destruct (N.eqb_spec c 69) as [->|]; [discriminate|reflexivity].
Qed.

Lemma match_integer_digits (ds rest : str) :
  forallb is_digit ds = true -> ds <> [] ->
  (hd 0 ds = 48 -> ds = [48]) -> at_delim rest = true ->
  match_integer (ds ++ rest) = Some (ds, rest).
Proof.
  intros Hds Hne Hhd Hrest. destruct ds as [|c ds]; [contradiction|].
  cbn [forallb] in Hds. apply andb_true_iff in Hds as [Hc Hds].
  cbn [app match_integer].
  destruct (N.eqb_spec c 48) as [->|Hc0].
  - specialize (Hhd eq_refl). injection Hhd as ->. reflexivity.
  - rewrite Hc, (span_digits_exact _ _ Hds Hrest). reflexivity.
Qed.

Lemma startswith_head (p0 c : char) (p s : str) :
  p0 <> c -> startswith (p0 :: p) (c :: s) = false.
Proof.
  intros H. cbn [startswith]. now destruct (N.eqb_spec p0 c).
Qed.

Lemma digits_value_from (ds : str) : digits_value ds = digits_from ds 0.
Proof. reflexivity. Qed.

Lemma span_digits_digits (s : str) :
  forallb is_digit (fst (span_digits s)) = true.
Proof.
  induction s as [|c s IH]; [reflexivity|]. cbn [span_digits].
  destruct (is_digit c) eqn:Hc; [|reflexivity].
  destruct (span_digits s) as [ds r]. cbn [fst forallb] in *. now rewrite Hc.
Qed.

Lemma match_integer_is_digits (s ip r : str) :
  match_integer s = Some (ip, r) -> forallb is_digit ip = true /\ ip <> [].
Proof.
  unfold match_integer. destruct s as [|c s']; [discriminate|].
  destruct (N.eqb_spec c 48) as [->|_]; [intros [= <- <-]; now split|].
  destruct (is_digit c) eqn:Hc; [|discriminate].
  pose proof (span_digits_digits s') as Hd.
  destruct (span_digits s') as [ds r']. cbn [fst] in Hd.
  intros [= <- <-]. cbn [forallb]. rewrite Hc, Hd. now split.
Qed.

(** ** A number is read the same in front of a delimiter *)

Lemma is_delim_not_digit (c : char) : is_delim c = true -> is_digit c = false.
Proof.
  unfold is_delim, is_ws, is_digit.
  cmp; cbn [andb orb]; try reflexivity; try discriminate; lia.
Qed.

Lemma span_digits_end (s ds r rest : str) :
  span_digits s = (ds, r) -> at_delim rest = true ->
  span_digits (s ++ rest) = (ds, r ++ rest).
Proof.
  intros Hs Hrest. revert ds r Hs. induction s as [|c s IH]; intros ds r Hs.
  - injection Hs as <- <-. cbn [app]. destruct rest as [|c rest']; [reflexivity|].
    cbn [span_digits]. now rewrite (is_delim_not_digit _ Hrest).
  - cbn [span_digits app] in *. destruct (is_digit c); [|now injection Hs as <- <-].
    destruct (span_digits s) as [ds1 r1]. injection Hs as <- <-.
    now rewrite (IH ds1 r1 eq_refl).
Qed.

Lemma match_integer_end (s ip r rest : str) :
  match_integer s = Some (ip, r) -> at_delim rest = true ->
  match_integer (s ++ rest) = Some (ip, r ++ rest).
Proof.
  unfold match_integer. destruct s as [|c s']; [discriminate|]. cbn [app].
  intros H Hrest. destruct (c =? 48); [now injection H as <- <-|].
  destruct (is_digit c); [|discriminate].
  destruct (span_digits s') as [ds r'] eqn:E. injection H as <- <-.
  now rewrite (span_digits_end _ _ _ _ E Hrest).
Qed.

Lemma match_frac_end (s fr r rest : str) :
  match_frac s = (fr, r) -> at_delim rest = true ->
  match_frac (s ++ rest) = (fr, r ++ rest).
Proof.
  intros H Hrest. destruct s as [|dot [|d s']].
  - injection H as <- <-. now apply match_frac_delim.
  - injection H as <- <-. cbn [app]. destruct rest as [|c rest']; [reflexivity|].
    unfold match_frac. now rewrite (is_delim_not_digit _ Hrest), andb_false_r.
  - unfold match_frac in *. cbn [app].
    destruct ((dot =? 46) && is_digit d); [|now injection H as <- <-].
    destruct (span_digits (d :: s')) as [ds r'] eqn:E. injection H as <- <-.
    change (d :: s' ++ rest) with ((d :: s') ++ rest).
    now rewrite (span_digits_end _ _ _ _ E Hrest).
Qed.

Lemma is_delim_not_sign (c : char) :
  is_delim c = true -> (c =? 45) || (c =? 43) = false.
Proof.
  unfold is_delim, is_ws. cmp; cbn [orb]; try reflexivity; try discriminate; lia.
Qed.

Lemma match_exp_end (s ex r rest : str) :
  match_exp s = (ex, r) -> at_delim rest = true ->
  match_exp (s ++ rest) = (ex, r ++ rest).
Proof.
  intros H Hrest. destruct s as [|e r0].
  { injection H as <- <-. now apply match_exp_delim. }
  unfold match_exp in *. cbn [app].
  destruct ((e =? 101) || (e =? 69)); [|now injection H as <- <-].
  destruct r0 as [|sg [|d t0]]; cbn [app].
  - injection H as <- <-. destruct rest as [|c [|c2 rest']]; try reflexivity.
    + now rewrite (is_delim_not_digit _ Hrest).
    + now rewrite (is_delim_not_digit _ Hrest), (is_delim_not_sign _ Hrest).
  - destruct rest as [|c rest']; [now rewrite List.app_nil_r|].
    rewrite (is_delim_not_digit _ Hrest), andb_false_r.
    destruct (is_digit sg) eqn:Hsg; injection H as <- <-; [|reflexivity].
    cbn [span_digits]. now rewrite Hsg, (is_delim_not_digit _ Hrest).
  - destruct (((sg =? 45) || (sg =? 43)) && is_digit d).
    + destruct (span_digits (d :: t0)) as [ds r'] eqn:E. injection H as <- <-.
      change (d :: t0 ++ rest) with ((d :: t0) ++ rest).
      now rewrite (span_digits_end _ _ _ _ E Hrest).
    + destruct (is_digit sg); [|now injection H as <- <-].
      destruct (span_digits (sg :: d :: t0)) as [ds r'] eqn:E.
      injection H as <- <-.
      change (sg :: d :: t0 ++ rest) with ((sg :: d :: t0) ++ rest).
      now rewrite (span_digits_end _ _ _ _ E Hrest).
Qed.

Lemma match_number_end (s integer frac exp r rest : str) :
  match_number s = Some (integer, frac, exp, r) -> at_delim rest = true ->
  match_number (s ++ rest) = Some (integer, frac, exp, r ++ rest).
Proof.
  intros H Hrest. unfold match_number in *.
  assert (Hbody : forall sign s1,
    match match_integer s1 with
    | Some (ip, r1) =>
        let (fr, r2) := match_frac r1 in
        let (ex, r3) := match_exp r2 in Some (sign ++ ip, fr, ex, r3)
    | None => None
    end = Some (integer, frac, exp, r) ->
    match match_integer (s1 ++ rest) with
    | Some (ip, r1) =>
        let (fr, r2) := match_frac r1 in
        let (ex, r3) := match_exp r2 in Some (sign ++ ip, fr, ex, r3)
    | None => None
    end = Some (integer, frac, exp, r ++ rest)).
  { intros sign s1 H1.
    destruct (match_integer s1) as [[ip r1]|] eqn:Ei; [|discriminate].
    rewrite (match_integer_end _ _ _ _ Ei Hrest).
    destruct (match_frac r1) as [fr r2] eqn:Ef.
    rewrite (match_frac_end _ _ _ _ Ef Hrest).
    destruct (match_exp r2) as [ex r3] eqn:Ee.
    rewrite (match_exp_end _ _ _ _ Ee Hrest). now injection H1 as <- <- <- <-. }
  destruct s as [|c s1]; [discriminate H|]. cbn [app].
  destruct (c =? 45); [exact (Hbody [c] s1 H)|exact (Hbody [] (c :: s1) H)].
Qed.

Lemma match_number_head (c : char) (s : str) (m : str * str * str * str) :
  match_number (c :: s) = Some m -> is_digit c = true \/ c = 45.
Proof.
  unfold match_number. destruct (N.eqb_spec c 45) as [->|Hc]; [now right|].
  cbn [match_integer]. destruct (N.eqb_spec c 48) as [->|]; [now left|].
  destruct (is_digit c); [now left|discriminate].
Qed.

Section Numbers.
Variable L : limits.

(** A value that starts with a digit or a minus sign reaches the number
    branch of [scan_once]. *)
Lemma scan_once_number (depth : nat) (c : char) (s : str) :
  is_digit c = true \/ c = 45 ->
  scan_once L (S depth) (c :: s) =
  match match_number (c :: s) with
  | Some (integer, frac, exp, rest) =>
      match frac ++ exp with
      | [] => n <- py_int L integer ;; Return (VInt n, rest)
      | _ :: _ => Return (VFloat (py_float integer frac exp), rest)
      end
  | None =>
      if startswith (u "NaN") (c :: s)
      then Return (VFloat SpecFloat.S754_nan, skipn 3 (c :: s))
      else if startswith (u "Infinity") (c :: s)
      then Return (VFloat (SpecFloat.S754_infinity false), skipn 8 (c :: s))
      else if startswith (u "-Infinity") (c :: s)
      then Return (VFloat (SpecFloat.S754_infinity true), skipn 9 (c :: s))
      else Raise (mk_exn StopIteration [])
  end.
Proof.
  intros Hc.
  assert (Hr : 48 <= c <= 57 \/ c = 45).
  { destruct Hc as [Hc|Hc]; [left|now right].
    unfold is_digit in Hc. apply andb_true_iff in Hc as [H1 H2].
    apply N.leb_le in H1. apply N.leb_le in H2. lia. }
  cbn [scan_once].
  destruct (N.eqb_spec c 34); [lia|].
  destruct (N.eqb_spec c 123); [lia|].
  destruct (N.eqb_spec c 91); [lia|].
  change (u "null") with (110 :: u "ull").
  change (u "true") with (116 :: u "rue").
  change (u "false") with (102 :: u "alse").
  rewrite !startswith_head by lia. reflexivity.
Qed.

Lemma scan_once_int (depth : nat) (z : Z) (rest : str) :
  at_delim rest = true ->
  too_many_digits L (int_digits z) = false ->
  scan_once L (S depth) (int_repr z ++ rest) = Return (VInt z, rest).
Proof.
  intros Hrest Hdigits.
  assert (Hpos : forall p,
    exists c ds, repr_N (Npos p) = c :: ds /\ is_digit c = true /\ c <> 45 /\
                 match_integer (repr_N (Npos p) ++ rest)
                 = Some (repr_N (Npos p), rest) /\
                 digits_value (repr_N (Npos p)) = Zpos p).
  { intros p. destruct (repr_N_spec (Npos p)) as (ds & Hds & Hdig & Hne & Hval & Hhd).
    rewrite Hds. destruct ds as [|c ds']; [contradiction|].
    exists c, ds'. split; [reflexivity|].
    assert (Hc : is_digit c = true).
    { cbn [forallb] in Hdig. now apply andb_true_iff in Hdig as [Hc _]. }
    split; [exact Hc|]. split.
    { intros ->. discriminate Hc. }
    split.
    - apply match_integer_digits; auto. intros H. now specialize (Hhd H).
    - rewrite digits_value_from, Hval. reflexivity. }
  unfold int_digits in Hdigits.
  destruct z as [|p|p].
  - unfold int_repr. cbn [app]. rewrite scan_once_number by now left.
    unfold match_number. cbn [N.eqb Pos.eqb match_integer]. cbv iota.
    now rewrite (match_frac_delim _ Hrest), (match_exp_delim _ Hrest).
  - destruct (Hpos p) as (c & ds & Hcd & Hc & Hm & Hi & Hv).
    cbn [Z.abs_N] in Hdigits.
    unfold int_repr. rewrite Hcd in *. cbn [app] in *.
    rewrite scan_once_number by now left.
    unfold match_number. destruct (N.eqb_spec c 45); [contradiction|].
    rewrite Hi, (match_frac_delim _ Hrest), (match_exp_delim _ Hrest).
    cbn [app]. unfold py_int, digit_count, parse_int.
    destruct (N.eqb_spec c 45); [contradiction|].
    now rewrite Hdigits, Hv.
  - destruct (Hpos p) as (c & ds & Hcd & Hc & Hm & Hi & Hv).
    cbn [Z.abs_N] in Hdigits.
    unfold int_repr. rewrite Hcd in *. cbn [app] in *.
    rewrite scan_once_number by now right.
    unfold match_number. cbn [N.eqb Pos.eqb]. cbv iota.
    rewrite Hi, (match_frac_delim _ Hrest), (match_exp_delim _ Hrest).
    cbn [app]. unfold py_int, digit_count, parse_int.
    cbn [N.eqb Pos.eqb]. cbv iota.
    now rewrite Hdigits, Hv.
Qed.

Lemma float_eqb_eq (a b : pyfloat) : float_eqb a b = true -> a = b.
Proof.
  destruct a as [s|s| |s m e], b as [s'|s'| |s' m' e']; cbn [float_eqb];
    try discriminate; try reflexivity.
  - intros H. apply Bool.eqb_prop in H. now subst.
  - intros H. apply Bool.eqb_prop in H. now subst.
  - intros H. apply andb_true_iff in H as [H He].
    apply andb_true_iff in H as [Hs Hm].
    apply Bool.eqb_prop in Hs. apply Pos.eqb_eq in Hm. apply Z.eqb_eq in He.
    now subst.
Qed.

Lemma startswith_here (p s : str) : startswith p (p ++ s) = true.
Proof. apply startswith_app. Qed.

(** A float is read back from what is written for it. *)
Lemma scan_once_float (float_repr : pyfloat -> str) (depth : nat)
    (f : pyfloat) (rest : str) :
  reads_back float_repr f = true -> at_delim rest = true ->
  scan_once L (S depth) (floatstr float_repr f ++ rest) = Return (VFloat f, rest).
Proof.
  intros Hf Hrest.
  assert (Hfinite : forall text,
    match match_number text with
    | Some (integer, frac, exp, []) =>
        match frac ++ exp with
        | [] => false
        | _ :: _ => float_eqb (py_float integer frac exp) f
        end
    | _ => false
    end = true ->
    scan_once L (S depth) (text ++ rest) = Return (VFloat f, rest)).
  { intros text H.
    destruct (match_number text) as [[[[integer frac] exp] r]|] eqn:Em;
      [|discriminate].
    destruct r as [|c r]; [|discriminate].
    destruct text as [|c t]; [discriminate Em|].
    pose proof (match_number_head _ _ _ Em) as Hhead.
    pose proof (match_number_end _ _ _ _ _ _ Em Hrest) as Em'.
    cbn [app] in *. rewrite (scan_once_number _ _ _ Hhead), Em'.
    destruct (frac ++ exp); [discriminate|].
    now rewrite (float_eqb_eq _ _ H). }
  destruct f as [s|s| |s m e]; cbn [reads_back floatstr] in *.
  - now apply Hfinite.
  - destruct s; reflexivity.
  - discriminate.
  - now apply Hfinite.
Qed.

End Numbers.

(** ** Values survive encoding and decoding *)

Lemma skip_ws_head (c : char) (s : str) :
  is_ws c = false -> skip_ws (c :: s) = c :: s.
Proof. intros H. cbn [skip_ws]. now rewrite H. Qed.

Lemma join_cons (sep p q : str) (l : list str) :
  join sep (p :: q :: l) = p ++ sep ++ join sep (q :: l).
Proof. reflexivity. Qed.

Lemma join_length_In (sep p : str) (l : list str) :
  In p l -> (List.length p <= List.length (join sep l))%nat.
Proof.
  induction l as [|q l IH]; [contradiction|].
  intros [->|Hin].
  - destruct l; cbn [join]; rewrite ?length_app; lia.
  - destruct l as [|q' l']; [contradiction|].
    rewrite join_cons, !length_app. specialize (IH Hin). lia.
Qed.

Lemma join_length_count (sep : str) (l : list str) :
  Forall (fun p => p <> []) l ->
  (List.length l <= List.length (join sep l))%nat.
Proof.
  induction 1 as [|p l Hp Hl IH]; [simpl; lia|].
  destruct l as [|q l'].
  - cbn [join List.length]. destruct p; [contradiction|simpl; lia].
  - rewrite join_cons, !length_app. cbn [List.length] in *.
    destruct p; [contradiction|cbn [List.length]; lia].
Qed.

Lemma dict_set_fresh (d : pydict) (k : str) (v : value) :
  existsb (str_eqb k) (map fst d) = false -> dict_set d k v = d ++ [(k, v)].
Proof.
  induction d as [|[k' v'] d IH]; [reflexivity|].
  cbn [map fst existsb dict_set app]. intros H.
  apply orb_false_iff in H as [Hk Hd]. rewrite Hk. f_equal. now apply IH.
Qed.

Lemma existsb_str_eqb_app (k : str) (a b : list str) :
  existsb (str_eqb k) (a ++ b) = existsb (str_eqb k) a || existsb (str_eqb k) b.
Proof. apply existsb_app. Qed.

Lemma dict_of_pairs_distinct (d0 d : pydict) :
  distinct (map fst d) = true ->
  (forall k, In k (map fst d) -> existsb (str_eqb k) (map fst d0) = false) ->
  fold_left (fun d kv => dict_set d (fst kv) (snd kv)) d d0 = d0 ++ d.
Proof.
  revert d0. induction d as [|[k v] d IH]; intros d0 Hd Hfresh.
  - cbn. now rewrite List.app_nil_r.
  - cbn [map fst distinct] in Hd. apply andb_true_iff in Hd as [Hk Hd].
    apply negb_true_iff in Hk.
    cbn [fold_left fst snd].
    rewrite dict_set_fresh by (apply Hfresh; now left).
    rewrite IH; [now rewrite <- app_assoc|exact Hd|].
    intros k' Hk'. rewrite map_app, existsb_str_eqb_app.
    rewrite (Hfresh k') by now right. cbn [map fst existsb orb].
    rewrite orb_false_r.
    destruct (str_eqb k' k) eqn:E; [|reflexivity].
    apply str_eqb_eq in E. subst k'.
    exfalso. clear - Hk Hk'.
    induction (map fst d) as [|a l IHl]; [contradiction|].
    cbn [existsb] in Hk. apply orb_false_iff in Hk as [Ha Hl].
    destruct Hk' as [->|Hin]; [now rewrite str_eqb_refl in Ha|auto].
Qed.

Lemma dict_of_pairs_id (d : pydict) :
  distinct (map fst d) = true -> dict_of_pairs d = d.
Proof.
  intros Hd. unfold dict_of_pairs.
  now rewrite (dict_of_pairs_distinct [] d Hd) by reflexivity.
Qed.

Section RoundTrip.
Variable L : limits.
Variable float_repr : pyfloat -> str.

Local Abbreviation dumps := (json_text float_repr).
Local Abbreviation data := (json_data float_repr).

Lemma dumps_head (x : value) :
  data x = true ->
  exists c t, dumps x = c :: t /\ is_ws c = false /\ c <> 93 /\ c <> 125
              /\ c < 128.
Proof.
  intros Hx.
  assert (Hlit : forall c t, is_ws c = false -> c <> 93 -> c <> 125 ->
            c < 128 ->
            exists c' t', c :: t = c' :: t' /\ is_ws c' = false /\
                          c' <> 93 /\ c' <> 125 /\ c' < 128).
  { intros c t H1 H2 H3 H4. exists c, t. auto. }
  assert (Hnum : forall c t, is_digit c = true \/ c = 45 ->
            exists c' t', c :: t = c' :: t' /\ is_ws c' = false /\
                          c' <> 93 /\ c' <> 125 /\ c' < 128).
  { intros c t Hc. exists c, t. split; [reflexivity|].
    destruct Hc as [Hc| ->]; [|repeat split; (discriminate || reflexivity)].
    revert Hc. unfold is_digit, is_ws.
    cmp; cbn [andb orb]; try discriminate; repeat split; lia. }
  assert (Hrepr : forall f,
            match match_number (float_repr f) with
            | Some (integer, frac, exp, []) =>
                match frac ++ exp with
                | [] => false
                | _ :: _ => float_eqb (py_float integer frac exp) f
                end
            | _ => false
            end = true ->
            exists c' t', float_repr f = c' :: t' /\ is_ws c' = false /\
                          c' <> 93 /\ c' <> 125 /\ c' < 128).
  { intros f H.
    destruct (match_number (float_repr f)) as [m|] eqn:Em; [|discriminate].
    destruct (float_repr f) as [|c t]; [discriminate Em|].
    apply Hnum. exact (match_number_head _ _ _ Em). }
  destruct x as [| [|] |z|f|s|l|d].
  1-3, 6-8: apply Hlit; [reflexivity|discriminate|discriminate|reflexivity].
  - destruct z as [|p|p].
    1, 3: apply Hlit; [reflexivity|discriminate|discriminate|reflexivity].
    unfold json_text, int_repr.
    destruct (repr_N_spec (Npos p)) as (ds & Hds & Hdig & Hne & _).
    rewrite Hds. destruct ds as [|c ds']; [contradiction|].
    apply Hnum. left.
    cbn [forallb] in Hdig. now apply andb_true_iff in Hdig as [Hc _].
  - cbn [json_data json_text] in *.
    destruct f as [sg|sg| |sg m e]; cbn [reads_back floatstr] in *.
    + now apply Hrepr.
    + destruct sg; apply Hlit;
        (reflexivity || discriminate).
    + discriminate.
    + now apply Hrepr.
Qed.

Lemma dumps_nonempty (x : value) : data x = true -> dumps x <> [].
Proof.
  intros Hx. destruct (dumps_head x Hx) as (c & t & -> & _). discriminate.
Qed.

Lemma array_loop_dumps (scan : scanner) (l : list value) :
  forall (fuel : nat) (x : value) (values : list value) (rest : str),
    reads float_repr scan (x :: l) ->
    forallb data (x :: l) = true ->
    (List.length l < fuel)%nat ->
    array_loop scan fuel (join (u ", ") (map dumps (x :: l)) ++ 93 :: rest) values
    = Return (VList (values ++ x :: l), rest).
Proof.
  induction l as [|y l IH]; intros fuel x values rest Hscan Hdata Hfuel;
    (destruct fuel as [|fuel]; [lia|]); cbn [array_loop].
  - cbn [map join]. rewrite (Hscan x (or_introl eq_refl)) by reflexivity.
    reflexivity.
  - cbn [map]. rewrite join_cons. change (u ", ") with [44; 32].
    rewrite <- !app_assoc.
    rewrite (Hscan x (or_introl eq_refl)) by reflexivity.
    cbn [expecting_value bind app skip_ws is_ws N.eqb Pos.eqb orb]. cbv iota.
    cbn [forallb] in Hdata. apply andb_true_iff in Hdata as [Hx Hdata].
    assert (Hy : data y = true).
    { cbn [forallb] in Hdata. now apply andb_true_iff in Hdata as [Hy _]. }
    destruct (dumps_head y Hy) as (c & t & Hc & Hws & _).
    assert (Hskip : forall tail,
      skip_ws (join [44; 32] (dumps y :: map dumps l) ++ tail)
      = join [44; 32] (dumps y :: map dumps l) ++ tail).
    { intros tail. destruct (map dumps l) as [|p ps].
      - cbn [join]. rewrite Hc. cbn [app]. now apply skip_ws_head.
      - rewrite join_cons, Hc. cbn [app]. now apply skip_ws_head. }
    rewrite Hskip.
    change (dumps y :: map dumps l) with (map dumps (y :: l)).
    change [44; 32] with (u ", ").
    rewrite (IH fuel y (values ++ [x]) rest).
    + now rewrite <- app_assoc.
    + intros z Hz. apply Hscan. now right.
    + exact Hdata.
    + cbn [List.length] in Hfuel. lia.
Qed.

Lemma join_dump_pairs (kv : str * value) (d : pydict) :
  join (u ", ") (map (dump_pair float_repr) (kv :: d))
  = dump_pair float_repr kv ++ members float_repr d.
Proof.
  destruct d as [|kv' d']; [cbn; now rewrite List.app_nil_r|].
  cbn [map]. now rewrite join_cons.
Qed.

Lemma members_delim (d : pydict) (rest : str) :
  at_delim (members float_repr d ++ 125 :: rest) = true.
Proof. destruct d; reflexivity. Qed.

Lemma object_loop_dumps (scan : scanner) (d : pydict) :
  forall (fuel : nat) (k : str) (v : value) (pairs : pydict) (rest : str),
    reads float_repr scan (map snd ((k, v) :: d)) ->
    forallb (fun kv => is_text (fst kv) && data (snd kv))
            ((k, v) :: d) = true ->
    (List.length d < fuel)%nat ->
    object_loop scan fuel
      (flat_map escape_char k ++ 34 :: u ": " ++ dumps v
       ++ members float_repr d ++ 125 :: rest) pairs
    = Return (VDict (dict_of_pairs (pairs ++ (k, v) :: d)), rest).
Proof.
  induction d as [|[k' v'] d IH]; intros fuel k v pairs rest Hscan Hdata Hfuel;
    (destruct fuel as [|fuel]; [lia|]); cbn [object_loop];
    cbn [forallb fst snd] in Hdata;
    apply andb_true_iff in Hdata as [Hkv Hdata];
    apply andb_true_iff in Hkv as [Hk Hv];
    rewrite (py_scanstring_encoded _ _ _ Hk);
    change (u ": ") with [58; 32];
    cbn [bind app skip_ws is_ws N.eqb Pos.eqb orb]; cbv iota;
    destruct (dumps_head v Hv) as (c & t & Hc & Hws & _);
    rewrite Hc; cbn [app]; rewrite (skip_ws_head _ _ Hws);
    change (c :: t ++ ?x) with ((c :: t) ++ x); rewrite <- Hc;
    rewrite (Hscan v (or_introl eq_refl)) by apply members_delim;
    cbn [expecting_value bind].
  - reflexivity.
  - unfold members at 1. change (u ", ") with [44; 32].
    rewrite join_dump_pairs. unfold dump_pair at 1.
    unfold py_encode_basestring_ascii. cbn [fst snd].
    rewrite <- !app_assoc.
    cbn [app skip_ws is_ws N.eqb Pos.eqb orb]. cbv iota.
    rewrite (IH fuel k' v' (pairs ++ [(k, v)]) rest).
    + now rewrite <- app_assoc.
    + intros z Hz. apply Hscan. now right.
    + exact Hdata.
    + cbn [List.length] in Hfuel. lia.
Qed.

Lemma list_max_In (n : nat) (l : list nat) :
  In n l -> (n <= list_max l)%nat.
Proof.
  intros H. pose proof (proj1 (list_max_le l (list_max l)) (Nat.le_refl _)) as Hl.
  rewrite Forall_forall in Hl. now apply Hl.
Qed.

Lemma scan_once_dumps (x : value) :
  data x = true -> ints_ok L x = true ->
  forall (depth : nat) (rest : str),
    (read_depth x <= depth)%nat ->
    at_delim rest = true ->
    scan_once L depth (dumps x ++ rest) = Return (x, rest).
Proof.
  induction x as [| b | z | f | s | l IHl | d IHd] using value_ind;
    intros Hx Hints depth rest Hdepth Hrest; cbn [read_depth] in Hdepth;
    (destruct depth as [|depth]; [lia|]).
  - reflexivity.
  - destruct b; reflexivity.
  - apply scan_once_int; [exact Hrest|].
    cbn [ints_ok] in Hints. now apply negb_true_iff in Hints.
  - now apply scan_once_float.
  - cbn [json_text]. unfold py_encode_basestring_ascii.
    rewrite <- !app_assoc. cbn [app scan_once N.eqb Pos.eqb]. cbv iota.
    rewrite (py_scanstring_encoded _ _ _ Hx). reflexivity.
  - cbn [json_text] in *.
    rewrite <- !app_assoc. cbn [app scan_once N.eqb Pos.eqb]. cbv iota.
    destruct l as [|x l]; [reflexivity|].
    cbn [json_data] in Hx. cbn [ints_ok] in Hints.
    assert (Hx0 : data x = true).
    { cbn [forallb] in Hx. now apply andb_true_iff in Hx as [Hx0 _]. }
    destruct (dumps_head x Hx0) as (c & t & Hc & Hws & Hc93 & _).
    assert (Hhead : exists t', join (u ", ") (map dumps (x :: l)) = c :: t').
    { cbn [map]. destruct (map dumps l) as [|q ql].
      - cbn [join]. eauto.
      - rewrite join_cons, Hc. cbn [app]. eauto. }
    destruct Hhead as [t' Ht']. unfold JSONArray.
    rewrite Ht'. cbn [app]. rewrite (skip_ws_head _ _ Hws).
    destruct (N.eqb_spec c 93); [contradiction|].
    change (c :: t' ++ 93 :: rest) with ((c :: t') ++ 93 :: rest).
    rewrite <- Ht'.
    rewrite array_loop_dumps with (values := []); [reflexivity| |exact Hx|].
    + intros z Hz rest' Hrest'.
      rewrite Forall_forall in IHl. apply (IHl z Hz); [| | |exact Hrest'].
      * rewrite forallb_forall in Hx. now apply Hx.
      * rewrite forallb_forall in Hints. now apply Hints.
      * pose proof (list_max_In (read_depth z) (map read_depth (x :: l))
                      (in_map read_depth _ _ Hz)). lia.
    + assert (Hcount := join_length_count (u ", ") (map dumps (x :: l))).
      rewrite length_map in Hcount.
      rewrite length_app. cbn [List.length] in *.
      enough (S (List.length l)
              <= List.length (join (u ", ") (map dumps (x :: l))))%nat by lia.
      apply Hcount. rewrite Forall_map, Forall_forall. intros z Hz.
      apply dumps_nonempty. rewrite forallb_forall in Hx. now apply Hx.
  - cbn [json_text] in *.
    change (fun kv : list N * value =>
              py_encode_basestring_ascii (fst kv) ++ u ": " ++ dumps (snd kv))
      with (dump_pair float_repr) in *.
    rewrite <- !app_assoc. cbn [app scan_once N.eqb Pos.eqb]. cbv iota.
    destruct d as [|[k v] d]; [reflexivity|].
    cbn [json_data] in Hx. apply andb_true_iff in Hx as [Hkeys Hx].
    cbn [ints_ok] in Hints.
    rewrite join_dump_pairs in *. unfold dump_pair at 1.
    unfold py_encode_basestring_ascii. cbn [fst snd].
    rewrite <- !app_assoc. cbn [app]. unfold JSONObject.
    cbn [skip_ws is_ws N.eqb Pos.eqb orb]. cbv iota.
    rewrite object_loop_dumps with (pairs := []).
    + cbn [app]. now rewrite dict_of_pairs_id.
    + intros z Hz rest' Hrest'.
      apply in_map_iff in Hz as [[k' v'] [<- Hin]]. cbn [snd].
      rewrite Forall_forall in IHd. apply (IHd (k', v') Hin); [| | |exact Hrest'].
      * rewrite forallb_forall in Hx. specialize (Hx _ Hin).
        now apply andb_true_iff in Hx as [_ Hx].
      * rewrite forallb_forall in Hints. now apply (Hints (k', v')).
      * pose proof (list_max_In (read_depth v')
                      (map (fun kv => read_depth (snd kv)) ((k, v) :: d))
                      (in_map (fun kv => read_depth (snd kv)) _ (k', v') Hin)).
        cbn [snd] in *. lia.
    + exact Hx.
    + assert (Hcount : (List.length ((k, v) :: d)
                        <= List.length (dump_pair float_repr (k, v)
                                        ++ members float_repr d))%nat).
      { rewrite <- join_dump_pairs, <- (length_map (dump_pair float_repr)).
        apply join_length_count. rewrite Forall_map, Forall_forall.
        intros [k' v'] _. discriminate. }
      unfold dump_pair, py_encode_basestring_ascii in Hcount.
      cbn [fst snd] in Hcount.
      repeat (rewrite length_app in Hcount
              || (progress cbn [List.length] in Hcount)).
      repeat (rewrite length_app || (progress cbn [List.length])).
      lia.
Qed.

Lemma json_loads_text (x : value) :
  data x = true -> ints_ok L x = true ->
  (read_depth x <= decoder_depth L)%nat ->
  json_loads L (dumps x) = Return x.
Proof.
  intros Hx Hints Hdepth. unfold json_loads.
  destruct (dumps_head x Hx) as (c & t & Hc & Hws & _ & _ & Hascii).
  rewrite Hc. cbn [startswith].
  destruct (N.eqb_spec 65279 c); [lia|]. cbn [andb].
  rewrite (skip_ws_head _ _ Hws), <- Hc.
  rewrite <- (List.app_nil_r (dumps x)) at 1.
  rewrite (scan_once_dumps x Hx Hints) by (reflexivity || exact Hdepth).
  reflexivity.
Qed.

Lemma first_error_inv (l : list (option exn)) :
  first_error l = None -> forall e, In e l -> e = None.
Proof.
  induction l as [|e l IH]; [easy|]. cbn [first_error fold_right].
  destruct e as [e|]; [discriminate|]. intros H e' [<-|He']; auto.
Qed.

(** What is encoded has integers that can be written. *)
Lemma dumps_error_ints (x : value) :
  forall depth, dumps_error L false depth x = None -> ints_ok L x = true.
Proof.
  induction x as [| b | z | f | s | l IHl | d IHd] using value_ind;
    intros depth H; try reflexivity.
  - cbn [dumps_error ints_ok] in *.
    now destruct (too_many_digits L (int_digits z)).
  - cbn [dumps_error ints_ok] in *. destruct depth as [|depth]; [discriminate|].
    apply forallb_forall. intros x Hx. rewrite Forall_forall in IHl.
    apply (IHl x Hx depth). apply (first_error_inv _ H). now apply in_map.
  - cbn [dumps_error ints_ok] in *. destruct depth as [|depth]; [discriminate|].
    apply forallb_forall. intros [k v] Hkv. rewrite Forall_forall in IHd.
    apply (IHd (k, v) Hkv depth). apply (first_error_inv _ H).
    apply in_map_iff. exists (k, dumps_error L false depth v). split; [reflexivity|].
    apply in_map_iff. now exists (k, v).
Qed.

(** What [json.dumps] writes, [json.loads] reads back, when it has room
    for the nesting. *)
Lemma json_loads_dumps (x : value) (t : str) :
  data x = true -> json_dumps L float_repr x = Return t ->
  (read_depth x <= decoder_depth L)%nat ->
  json_loads L t = Return x.
Proof.
  unfold json_dumps. intros Hx Ht Hdepth.
  destruct (dumps_error L false (encoder_depth L) x) eqn:E; [discriminate|].
  injection Ht as <-. apply json_loads_text; auto.
  exact (dumps_error_ints _ _ E).
Qed.

End RoundTrip.

Lemma replace_from_absent (old new s : str) :
  old <> [] -> contains old s = false -> replace_from old new 0 s = s.
Proof.
  intros Hold. induction s as [|c s IH]; [reflexivity|].
  cbn [contains replace_from]. intros H.
  apply orb_false_iff in H as [Hs Hc]. rewrite Hs. f_equal. now apply IH.
Qed.

Lemma startswith_prefix (p q s : str) :
  startswith (p ++ q) s = true -> startswith p s = true.
Proof.
  revert s. induction p as [|x p IH]; intros s; [reflexivity|].
  destruct s as [|y s]; cbn [app startswith]; [discriminate|].
  intros H. apply andb_true_iff in H as [Hx Hp].
  rewrite Hx. cbn [andb]. now apply IH.
Qed.

Lemma contains_prefix (p q s : str) :
  contains p s = false -> contains (p ++ q) s = false.
Proof.
  induction s as [|c s IH]; cbn [contains]; intros H;
    apply orb_false_iff in H as [Hs Hc]; apply orb_false_iff; split; auto;
    destruct (startswith (p ++ q) _) eqn:E; auto;
    apply startswith_prefix in E; congruence.
Qed.

Lemma strip_fences_absent (s : str) :
  contains fence s = false -> strip_fences s = s.
Proof.
  intros H. unfold strip_fences, str_replace.
  assert (Hj : contains fence_json s = false).
  { change fence_json with (fence ++ u "json"). now apply contains_prefix. }
  change fence_json with (96 :: u "``json"). change fence with (96 :: u "``").
  cbv iota.
  rewrite (replace_from_absent (96 :: u "``json") [] s) by (discriminate || exact Hj).
  apply replace_from_absent; [discriminate|exact H].
Qed.

(** C6, amended. For every object built from [None], booleans, integers,
    floats other than NaN, strings without a surrogate pair, lists and
    objects with distinct string keys, that [json.dumps] encodes to a text
    without the fence marker and that is nested no deeper than [json.loads]
    has room for, normalizing the encoding returns the object. *)
Theorem parse_llm_json_round_trip (L : limits) (float_repr : pyfloat -> str)
    (d : pydict) (t : str) :
  json_data float_repr (VDict d) = true ->
  json_dumps L float_repr (VDict d) = Return t ->
  contains fence t = false ->
  (read_depth (VDict d) <= decoder_depth L)%nat ->
  parse_llm_json L t = Return (VDict d).
Proof.
  intros Hd Ht Hfence Hdepth.
  pose proof (json_loads_dumps L float_repr _ _ Hd Ht Hdepth) as Hl.
  destruct (parse_llm_json_cases L t) as [[v [Hv ->]]|[e [He _]]];
    rewrite (strip_fences_absent _ Hfence) in *; congruence.
Qed.

Lemma parse_llm_json_round_trip_witness :
  parse_llm_json sample_limits
    (json_text sample_float_repr (VDict sample_answer))
  = Return (VDict sample_answer).
Proof.
  apply (parse_llm_json_round_trip sample_limits sample_float_repr
           sample_answer (json_text sample_float_repr (VDict sample_answer))).
  - vm_compute. reflexivity.
  - vm_compute. reflexivity.
  - vm_compute. reflexivity.
  - vm_compute. lia.
Defined.

(** X7. Every value of that kind comes back from [parse_llm_json] as it
    was, a list as a list, a string as a string, a number as a number,
    a float included: what the round trip asks of the object it asks of
    nothing else. *)
Theorem parse_llm_json_round_trip_value (L : limits)
    (float_repr : pyfloat -> str) (x : value) (t : str) :
  json_data float_repr x = true ->
  json_dumps L float_repr x = Return t ->
  contains fence t = false ->
  (read_depth x <= decoder_depth L)%nat ->
  parse_llm_json L t = Return x.
Proof.
  intros Hx Ht Hfence Hdepth.
  pose proof (json_loads_dumps L float_repr _ _ Hx Ht Hdepth) as Hl.
  destruct (parse_llm_json_cases L t) as [[v [Hv ->]]|[e [He _]]];
    rewrite (strip_fences_absent _ Hfence) in *; congruence.
Qed.

Lemma parse_llm_json_round_trip_value_witness :
  parse_llm_json sample_limits (json_text sample_float_repr sample_list)
  = Return sample_list.
Proof.
  apply (parse_llm_json_round_trip_value sample_limits sample_float_repr
           sample_list (json_text sample_float_repr sample_list)).
  - vm_compute. reflexivity.
  - vm_compute. reflexivity.
  - vm_compute. reflexivity.
  - vm_compute. lia.
Defined.

(** C6, as stated, fails: a fence marker inside a string of the object is
    removed before decoding. *)
Lemma round_trip_counterexample :
  ~ (forall (L : limits) (float_repr : pyfloat -> str) (d : pydict) (t : str),
        json_data float_repr (VDict d) = true ->
        json_dumps L float_repr (VDict d) = Return t ->
        parse_llm_json L t = Return (VDict d)).
Proof.
  intros H.
  specialize (H sample_limits sample_float_repr
                [(u "answer", VStr (u "```"))]
                (json_text sample_float_repr
                   (VDict [(u "answer", VStr (u "```"))]))
                eq_refl eq_refl).
  vm_compute in H. discriminate H.
Qed.

(** The other conditions of the amended claim are needed as well: a high
    surrogate followed by a low one comes back as one code point, and an
    object nested deeper than the decoder has room for comes back as the
    failure object. *)
Lemma round_trip_surrogate_pair :
  parse_llm_json sample_limits
    (json_text sample_float_repr (VDict [(u "a", VStr [55357; 56832])]))
  = Return (VDict [(u "a", VStr [128512])]).
Proof. vm_compute. reflexivity. Qed.

Lemma round_trip_too_deep :
  let x := VDict [(u "a", VList [VList [VInt 1]])] in
  let L := mk_limits 4300 1 8 in
  json_dumps L sample_float_repr x
  = Return (u "{" ++ quoted "a" ++ u ": [[1]]}") /\
  parse_llm_json L (u "{" ++ quoted "a" ++ u ": [[1]]}")
  = Return (failure_object (u "{" ++ quoted "a" ++ u ": [[1]]}")).
Proof. vm_compute. split; reflexivity. Qed.

(** ** Decoding related texts *)

Lemma bind_Return {A B} (m : outcome A) (k : A -> outcome B) (b : B) :
  bind m k = Return b -> exists a, m = Return a /\ k a = Return b.
Proof. destruct m as [a|e|]; simpl; try discriminate. eauto. Qed.

Lemma expecting_value_Return {A} (m : outcome A) (a : A) :
  expecting_value m = Return a -> m = Return a.
Proof.
  destruct m as [x|[c msg]|]; simpl; try discriminate; auto.
  destruct c; discriminate.
Qed.

Lemma is_ws_not_backquote (c : char) : is_ws c = true -> c <> 96.
Proof. intros H ->. discriminate H. Qed.

Lemma is_delim_not_backquote (c : char) : is_delim c = true -> c <> 96.
Proof. intros H ->. discriminate H. Qed.

Lemma at_delim_head_ok (s : str) : at_delim s = true -> head_ok s.
Proof. destruct s; [easy|]. apply is_delim_not_backquote. Qed.

Lemma skip_ws_delim (s r : str) (c : char) :
  skip_ws s = c :: r -> is_delim c = true -> at_delim s = true.
Proof.
  destruct s as [|c0 s]; [discriminate|]. cbn [skip_ws at_delim].
  destruct (is_ws c0) eqn:Hc0.
  - intros _ _. unfold is_delim. now rewrite Hc0.
  - intros [= -> ->]. auto.
Qed.

Lemma skip_ws_all (w : str) : forallb is_ws w = true -> skip_ws w = [].
Proof.
  induction w as [|c w IH]; [reflexivity|]. cbn [forallb skip_ws].
  intros H. apply andb_true_iff in H as [Hc Hw]. rewrite Hc. auto.
Qed.

Section Simulation.
Variable L : limits.

(** [R s s'] relates a text to a variant of it, with the same code points
    up to the first backquote of [s], and more white space at most where
    [s] ends.  With [exact], strings are decoded to the same value on both
    sides. *)
Variable R : str -> str -> Prop.
Variable exact : Prop.

Hypothesis R_cons : forall c s s',
  R (c :: s) s' -> c <> 96 -> exists s'', s' = c :: s'' /\ R s s''.
Hypothesis R_nil : forall s', R [] s' -> forallb is_ws s' = true /\ R [] [].
Hypothesis R_string : forall s s' chunks a r,
  R s s' -> py_scanstring s chunks = Return (a, r) ->
  exists a' r', py_scanstring s' chunks = Return (a', r') /\ R r r' /\
                (exact -> a' = a).

Lemma R_app (x r s' : str) :
  R (x ++ r) s' -> Forall (fun c => c <> 96) x ->
  exists r', s' = x ++ r' /\ R r r'.
Proof.
  revert s'. induction x as [|c x IH]; intros s' HR Hx.
  - exists s'. auto.
  - inversion Hx as [|? ? Hc Hx']; subst.
    destruct (R_cons _ _ _ HR Hc) as (s'' & -> & HR').
    destruct (IH _ HR' Hx') as (r' & -> & Hr'). exists r'. auto.
Qed.

Lemma R_startswith (p s s' : str) :
  R s s' -> startswith p s = true -> Forall (fun c => c <> 96) p ->
  exists r', s' = p ++ r' /\ R (skipn (List.length p) s) r'.
Proof.
  intros HR Hp Hok. apply startswith_split in Hp.
  rewrite Hp in HR. exact (R_app _ _ _ HR Hok).
Qed.

Lemma R_skip_ws (s s' : str) :
  R s s' -> head_ok (skip_ws s) -> R (skip_ws s) (skip_ws s').
Proof.
  revert s'. induction s as [|c s IH]; intros s' HR Hok.
  - destruct (R_nil _ HR) as [Hw Hnil]. now rewrite (skip_ws_all _ Hw).
  - cbn [skip_ws] in *. destruct (is_ws c) eqn:Hc.
    + destruct (R_cons _ _ _ HR (is_ws_not_backquote _ Hc)) as (s'' & -> & HR').
      cbn [skip_ws]. rewrite Hc. now apply IH.
    + destruct (R_cons _ _ _ HR Hok) as (s'' & -> & HR').
      cbn [skip_ws]. now rewrite Hc.
Qed.

(** After white space both texts show the same code point. *)
Lemma R_skip_ws_cons (s s' r : str) (c : char) :
  R s s' -> skip_ws s = c :: r -> c <> 96 ->
  exists r', skip_ws s' = c :: r' /\ R r r'.
Proof.
  intros HR Hs Hc.
  assert (HR' : R (skip_ws s) (skip_ws s')).
  { apply R_skip_ws; [exact HR|]. now rewrite Hs. }
  rewrite Hs in HR'. exact (R_cons _ _ _ HR' Hc).
Qed.

Lemma is_digit_not_backquote (c : char) : is_digit c = true -> c <> 96.
Proof. intros H ->. discriminate H. Qed.

Lemma R_nil_no_digit (s' : str) :
  R [] s' -> match s' with [] => True | c :: _ => is_digit c = false end.
Proof.
  intros HR. destruct (R_nil _ HR) as [Hw _]. destruct s' as [|c s']; [easy|].
  cbn [forallb] in Hw. apply andb_true_iff in Hw as [Hc _].
  revert Hc. unfold is_ws, is_digit. cmp; cbn [andb orb]; try reflexivity;
    try discriminate; lia.
Qed.

Lemma span_digits_sim (s : str) :
  forall s' ds r,
    span_digits s = (ds, r) -> R s s' -> head_ok r ->
    exists r', span_digits s' = (ds, r') /\ R r r'.
Proof.
  induction s as [|c s IH]; intros s' ds r Hs HR Hok.
  - injection Hs as <- <-. exists s'. split; [|exact HR].
    pose proof (R_nil_no_digit _ HR) as Hd.
    destruct s' as [|c' s']; [reflexivity|]. cbn [span_digits]. now rewrite Hd.
  - cbn [span_digits] in Hs. destruct (is_digit c) eqn:Hc.
    + destruct (R_cons _ _ _ HR (is_digit_not_backquote _ Hc))
        as (s'' & -> & HR').
      destruct (span_digits s) as [ds1 r1] eqn:E. injection Hs as <- <-.
      destruct (IH s'' ds1 r1 eq_refl HR' Hok) as (r' & Hr' & HRr).
      exists r'. cbn [span_digits]. now rewrite Hc, Hr'.
    + injection Hs as <- <-. cbn [head_ok] in Hok.
      destruct (R_cons _ _ _ HR Hok) as (s'' & -> & HR').
      exists (c :: s''). cbn [span_digits]. now rewrite Hc.
Qed.

Lemma match_integer_sim (s s' ip r : str) :
  match_integer s = Some (ip, r) -> R s s' -> head_ok r ->
  exists r', match_integer s' = Some (ip, r') /\ R r r'.
Proof.
  unfold match_integer. destruct s as [|c s1]; [discriminate|].
  intros Hs HR Hok. destruct (N.eqb_spec c 48) as [->|Hc0].
  - injection Hs as <- <-.
    destruct (R_cons _ _ _ HR ltac:(discriminate)) as (s'' & -> & HR').
    exists s''. now split.
  - destruct (is_digit c) eqn:Hc; [|discriminate].
    destruct (R_cons _ _ _ HR (is_digit_not_backquote _ Hc)) as (s'' & -> & HR').
    destruct (span_digits s1) as [ds r1] eqn:E. injection Hs as <- <-.
    destruct (span_digits_sim _ _ _ _ E HR' Hok) as (r' & Hr' & HRr).
    exists r'. destruct (N.eqb_spec c 48); [contradiction|].
    now rewrite Hc, Hr'.
Qed.

Lemma match_frac_sim (s s' fr r : str) :
  match_frac s = (fr, r) -> R s s' -> frac_stop r ->
  exists r', match_frac s' = (fr, r') /\ R r r'.
Proof.
  intros Hs HR Hstop.
  assert (Hno : forall t, R s t -> fr = [] -> r = s ->
                          exists r', match_frac t = ([], r') /\ R s r').
  { intros t Ht -> ->. exists t. split; [|exact Ht].
    destruct s as [|c s1].
    - pose proof (R_nil_no_digit _ Ht) as Hd. destruct (R_nil _ Ht) as [Hw _].
      destruct t as [|c' [|d' t']]; try reflexivity.
      unfold match_frac. cbn [forallb] in Hw.
      apply andb_true_iff in Hw as [Hc' _].
      destruct (N.eqb_spec c' 46) as [->|]; [discriminate Hc'|reflexivity].
    - destruct Hstop as [H96 H46].
      destruct (R_cons _ _ _ Ht H96) as (t' & -> & _).
      unfold match_frac. destruct t' as [|d' t'']; [reflexivity|].
      destruct (N.eqb_spec c 46); [contradiction|reflexivity]. }
  unfold match_frac in Hs.
  destruct s as [|dot [|d s1]].
  1, 2: injection Hs as <- <-; destruct (Hno _ HR eq_refl eq_refl) as (r' & ? & ?);
    eauto.
  destruct ((dot =? 46) && is_digit d) eqn:Hm.
  - apply andb_true_iff in Hm as [Hdot Hd]. apply N.eqb_eq in Hdot. subst dot.
    destruct (R_cons _ _ _ HR ltac:(discriminate)) as (t & -> & HR1).
    destruct (R_cons _ _ _ HR1 (is_digit_not_backquote _ Hd)) as (t1 & -> & HR2).
    destruct (span_digits (d :: s1)) as [ds r1] eqn:E. injection Hs as <- <-.
    assert (Hok : head_ok r1) by (destruct r1; [easy|apply Hstop]).
    destruct (span_digits_sim _ (d :: t1) _ _ E HR1 Hok) as (r' & Hr' & HRr).
    exists r'. unfold match_frac. cbn [N.eqb Pos.eqb andb].
    now rewrite Hd, Hr'.
  - injection Hs as <- <-. destruct (Hno _ HR eq_refl eq_refl) as (r' & ? & ?).
    eauto.
Qed.

Lemma exponent_mark (e : char) :
  (e =? 101) || (e =? 69) = true -> e <> 96 /\ e <> 46 /\ is_delim e = false.
Proof.
  intros H. apply orb_true_iff in H as [H|H]; apply N.eqb_eq in H; subst e;
    repeat split; discriminate.
Qed.

Lemma sign_mark (c : char) : (c =? 45) || (c =? 43) = true -> c <> 96.
Proof.
  intros H. apply orb_true_iff in H as [H|H]; apply N.eqb_eq in H; subst c;
    discriminate.
Qed.

Lemma match_exp_sim (s s' ex r : str) :
  match_exp s = (ex, r) -> R s s' -> at_delim r = true ->
  exists r', match_exp s' = (ex, r') /\ R r r'.
Proof.
  intros Hs HR Hr. unfold match_exp in Hs.
  destruct s as [|e r0].
  { injection Hs as <- <-. exists s'. split; [|exact HR].
    destruct (R_nil _ HR) as [Hw _]. destruct s' as [|c' t]; [reflexivity|].
    cbn [forallb] in Hw. apply andb_true_iff in Hw as [Hc' _].
    unfold match_exp.
    destruct ((c' =? 101) || (c' =? 69)) eqn:E; [|reflexivity].
    apply exponent_mark in E as (_ & _ & E).
    unfold is_delim in E. now rewrite Hc' in E. }
  destruct ((e =? 101) || (e =? 69)) eqn:He.
  2: { injection Hs as <- <-. cbn [at_delim] in Hr.
       destruct (R_cons _ _ _ HR (is_delim_not_backquote _ Hr)) as (t & -> & HR').
       exists (e :: t). split; [|exact HR]. unfold match_exp. now rewrite He. }
  destruct (exponent_mark _ He) as (He96 & _ & Hed).
  assert (Hcontra : forall A : Prop, r = e :: r0 -> A).
  { intros A ->. cbn [at_delim] in Hr. congruence. }
  destruct (R_cons _ _ _ HR He96) as (t & -> & HR0).
  destruct r0 as [|sg [|d t0]].
  - injection Hs as <- <-. now apply Hcontra.
  - destruct (is_digit sg) eqn:Hsg.
    + injection Hs as <- <-.
      destruct (R_cons _ _ _ HR0 (is_digit_not_backquote _ Hsg))
        as (w & -> & HRw).
      exists w. split; [|exact HRw]. unfold match_exp. rewrite He.
      pose proof (R_nil_no_digit _ HRw) as Hd.
      destruct w as [|c' w']; [now rewrite Hsg|].
      rewrite Hd, andb_false_r, Hsg. cbn [span_digits]. now rewrite Hsg, Hd.
    + injection Hs as <- <-. now apply Hcontra.
  - destruct (((sg =? 45) || (sg =? 43)) && is_digit d) eqn:Hsd.
    + apply andb_true_iff in Hsd as [Hsg Hd].
      destruct (R_cons _ _ _ HR0 (sign_mark _ Hsg)) as (t1 & -> & HR1).
      destruct (span_digits (d :: t0)) as [ds r1] eqn:E. injection Hs as <- <-.
      destruct (span_digits_sim _ _ _ _ E HR1 (at_delim_head_ok _ Hr))
        as (r' & Hr' & HRr).
      destruct (R_cons _ _ _ HR1 (is_digit_not_backquote _ Hd)) as (t2 & -> & _).
      exists r'. split; [|exact HRr]. unfold match_exp.
      now rewrite He, Hsg, Hd, Hr'.
    + destruct (is_digit sg) eqn:Hsg0.
      * destruct (span_digits (sg :: d :: t0)) as [ds r1] eqn:E.
        injection Hs as <- <-.
        destruct (span_digits_sim _ _ _ _ E HR0 (at_delim_head_ok _ Hr))
          as (r' & Hr' & HRr).
        destruct (R_cons _ _ _ HR0 (is_digit_not_backquote _ Hsg0))
          as (t1 & -> & HR1).
        assert (Hd96 : d <> 96).
        { intros ->. cbn [span_digits] in E. rewrite Hsg0 in E.
          cbn in E. injection E as <- <-. discriminate Hr. }
        destruct (R_cons _ _ _ HR1 Hd96) as (t2 & -> & _).
        exists r'. split; [|exact HRr]. unfold match_exp.
        now rewrite He, Hsd, Hsg0, Hr'.
      * injection Hs as <- <-. now apply Hcontra.
Qed.

Lemma match_exp_stop (s ex r : str) :
  match_exp s = (ex, r) -> at_delim r = true -> frac_stop s.
Proof.
  destruct s as [|c t]; [easy|]. unfold match_exp.
  destruct ((c =? 101) || (c =? 69)) eqn:He.
  - intros _ _. destruct (exponent_mark _ He) as (H1 & H2 & _). now split.
  - intros [= <- <-] Hr. cbn [at_delim] in Hr. split; intros ->; discriminate Hr.
Qed.

Lemma match_frac_stop (s fr r : str) :
  match_frac s = (fr, r) -> frac_stop r -> head_ok s.
Proof.
  destruct s as [|c [|d t]]; try easy.
  - intros [= <- <-] [H _]. exact H.
  - unfold match_frac. destruct (N.eqb_spec c 46) as [->|Hc].
    + intros _ _. discriminate.
    + cbn [andb]. intros [= <- <-] [H _]. exact H.
Qed.

Lemma match_number_sim (s s' integer frac exp r : str) :
  match_number s = Some (integer, frac, exp, r) -> R s s' ->
  at_delim r = true ->
  exists r', match_number s' = Some (integer, frac, exp, r') /\ R r r'.
Proof.
  intros Hs HR Hr. unfold match_number in Hs.
  assert (Hbody : forall sign s1 t1,
    R s1 t1 ->
    match match_integer s1 with
    | Some (ip, r1) =>
        let (fr, r2) := match_frac r1 in
        let (ex, r3) := match_exp r2 in Some (sign ++ ip, fr, ex, r3)
    | None => None
    end = Some (integer, frac, exp, r) ->
    exists r',
      match match_integer t1 with
      | Some (ip, r1) =>
          let (fr, r2) := match_frac r1 in
          let (ex, r3) := match_exp r2 in Some (sign ++ ip, fr, ex, r3)
      | None => None
      end = Some (integer, frac, exp, r') /\ R r r').
  { intros sign s1 t1 HR1 H.
    destruct (match_integer s1) as [[ip r1]|] eqn:Ei; [|discriminate].
    destruct (match_frac r1) as [fr r2] eqn:Ef.
    destruct (match_exp r2) as [ex r3] eqn:Ee.
    injection H as <- <- <- <-.
    pose proof (match_exp_stop _ _ _ Ee Hr) as Hstop.
    pose proof (match_frac_stop _ _ _ Ef Hstop) as Hok.
    destruct (match_integer_sim _ _ _ _ Ei HR1 Hok) as (r1' & -> & HRi).
    destruct (match_frac_sim _ _ _ _ Ef HRi Hstop) as (r2' & -> & HRf).
    destruct (match_exp_sim _ _ _ _ Ee HRf Hr) as (r3' & -> & HRe).
    exists r3'. now split. }
  unfold match_number. destruct s as [|c s1].
  - destruct (Hbody [] [] s' HR Hs) as (r' & H' & HRr).
    exists r'. split; [|exact HRr].
    destruct s' as [|c' t']; [exact H'|].
    destruct (R_nil _ HR) as [Hw _]. cbn [forallb] in Hw.
    apply andb_true_iff in Hw as [Hc' _].
    destruct (N.eqb_spec c' 45) as [->|]; [discriminate Hc'|exact H'].
  - destruct (N.eqb_spec c 45) as [->|Hc].
    + destruct (R_cons _ _ _ HR ltac:(discriminate)) as (t & -> & HR1).
      cbn [N.eqb Pos.eqb]. cbv iota. exact (Hbody [45] s1 t HR1 Hs).
    + assert (Hc96 : c <> 96).
      { intros ->. discriminate Hs. }
      destruct (R_cons _ _ _ HR Hc96) as (t & -> & HR1).
      destruct (N.eqb_spec c 45); [contradiction|].
      exact (Hbody [] (c :: s1) (c :: t) HR Hs).
Qed.

Lemma follows_le (scan scan' : scanner) (n m : nat) :
  follows R exact scan scan' n -> (m <= n)%nat -> follows R exact scan scan' m.
Proof.
  intros H Hle x v r x' Hx Hr HR Hlen. apply (H x v r x'); auto. lia.
Qed.

Lemma starts_ok_head (scan : scanner) (x : str) (v : value) (r : str) :
  starts_ok scan -> scan x = Return (v, r) -> head_ok x.
Proof. intros H Hx. destruct (H _ _ _ Hx) as (c & t & -> & Hc). exact Hc. Qed.

Section LoopSimulation.
Variables scan scan' : scanner.
Hypothesis scan_starts_ok : starts_ok scan.

Lemma array_loop_sim (fuel : nat) :
  forall y values v r,
    array_loop scan fuel (skip_ws y) values = Return (v, r) ->
    forall fuel' y' values',
      R y y' ->
      follows R exact scan scan' (List.length (skip_ws y')) ->
      (List.length (skip_ws y') < fuel')%nat ->
      (exact -> values' = values) ->
      exists v' r',
        array_loop scan' fuel' (skip_ws y') values' = Return (v', r') /\
        R r r' /\ (exact -> v' = v).
Proof.
  induction fuel as [|fuel IH]; intros y values v r H fuel' y' values' HR
    Hscan Hfuel Hvalues; [discriminate|].
  cbn [array_loop] in H.
  apply bind_Return in H as ([v0 r0] & H0 & H).
  apply expecting_value_Return in H0.
  pose proof (R_skip_ws _ _ HR (starts_ok_head _ _ _ _ scan_starts_ok H0))
    as HRy.
  destruct (skip_ws r0) as [|c r1] eqn:Er0; [discriminate|].
  assert (Hdelim : is_delim c = true).
  { destruct (N.eqb_spec c 93) as [->|]; [reflexivity|].
    destruct (N.eqb_spec c 44) as [->|]; [reflexivity|discriminate]. }
  destruct (Hscan _ _ _ _ H0 (skip_ws_delim _ _ _ Er0 Hdelim) HRy (Nat.le_refl _))
    as (v0' & r0' & H0' & HR0 & Hlen0 & Hv0).
  destruct (R_skip_ws_cons _ _ _ _ HR0 Er0 (is_delim_not_backquote _ Hdelim))
    as (r1' & Er0' & HR1).
  destruct fuel' as [|fuel']; [lia|].
  cbn [array_loop]. rewrite H0'. cbn [expecting_value bind]. rewrite Er0'.
  pose proof (skip_ws_length r0') as Hl1. rewrite Er0' in Hl1.
  cbn [List.length] in Hl1.
  destruct (N.eqb_spec c 93) as [->|Hc93].
  - injection H as <- <-. do 2 eexists. split; [reflexivity|].
    split; [exact HR1|]. intros He. now rewrite (Hvalues He), (Hv0 He).
  - destruct (N.eqb_spec c 44) as [->|Hc44]; [|discriminate].
    pose proof (skip_ws_length r1') as Hl2.
    apply (IH _ _ _ _ H); auto.
    + eapply follows_le; [exact Hscan|lia].
    + lia.
    + intros He. now rewrite (Hvalues He), (Hv0 He).
Qed.

Lemma JSONArray_sim (s : str) (v : value) (r s' : str) :
  JSONArray scan s = Return (v, r) -> R s s' ->
  follows R exact scan scan' (List.length s') ->
  exists v' r', JSONArray scan' s' = Return (v', r') /\ R r r' /\
                (exact -> v' = v).
Proof.
  intros H HR Hscan. unfold JSONArray in *. cbv zeta in *.
  pose proof (skip_ws_length s') as Hlen.
  destruct (skip_ws s) as [|c r1] eqn:Es.
  { cbn [array_loop] in H. apply bind_Return in H as ([v0 r0] & H0 & _).
    apply expecting_value_Return in H0.
    destruct (scan_starts_ok _ _ _ H0) as (? & ? & ? & _). discriminate. }
  destruct (N.eqb_spec c 93) as [->|Hc93].
  - injection H as <- <-.
    destruct (R_skip_ws_cons _ _ _ _ HR Es ltac:(discriminate))
      as (r1' & -> & HR1).
    cbn [N.eqb Pos.eqb]. cbv iota. do 2 eexists. split; [reflexivity|].
    split; [exact HR1|reflexivity].
  - assert (Hc96 : c <> 96).
    { cbn [array_loop] in H. apply bind_Return in H as ([v0 r0] & H0 & _).
      apply expecting_value_Return in H0.
      destruct (scan_starts_ok _ _ _ H0) as (? & ? & [= <- <-] & Hc). exact Hc. }
    destruct (R_skip_ws_cons _ _ _ _ HR Es Hc96) as (r1' & Es' & HR1).
    rewrite <- Es in H.
    destruct (array_loop_sim _ _ _ _ _ H (S (List.length (skip_ws s'))) s' []
                HR (follows_le _ _ _ _ Hscan Hlen) (Nat.lt_succ_diag_r _)
                (fun _ => eq_refl)) as (v' & r' & H' & HRr & Hv).
    rewrite Es' in *. destruct (N.eqb_spec c 93); [contradiction|].
    exists v', r'. auto.
Qed.

Lemma object_loop_sim (fuel : nat) :
  forall s pairs v r,
    object_loop scan fuel s pairs = Return (v, r) ->
    forall fuel' s' pairs',
      R s s' ->
      follows R exact scan scan' (List.length s') ->
      (List.length s' < fuel')%nat ->
      (exact -> pairs' = pairs) ->
      exists v' r',
        object_loop scan' fuel' s' pairs' = Return (v', r') /\
        R r r' /\ (exact -> v' = v).
Proof.
  induction fuel as [|fuel IH]; intros s pairs v r H fuel' s' pairs' HR
    Hscan Hfuel Hpairs; [discriminate|].
  cbn [object_loop] in H.
  apply bind_Return in H as ([key r0] & Hkey & H).
  destruct (R_string _ _ _ _ _ HR Hkey) as (key' & r0' & Hkey' & HR0 & Hk).
  pose proof (py_scanstring_behaved s' []) as Hl0. rewrite Hkey' in Hl0.
  cbn [behaved] in Hl0.
  destruct (skip_ws r0) as [|c r1] eqn:Er0; [discriminate|].
  destruct (N.eqb_spec c 58) as [->|]; [|discriminate].
  destruct (R_skip_ws_cons _ _ _ _ HR0 Er0 ltac:(discriminate))
    as (r1' & Er0' & HR1).
  pose proof (skip_ws_length r0') as Hl1. rewrite Er0' in Hl1.
  cbn [List.length] in Hl1.
  apply bind_Return in H as ([v0 r2] & H0 & H).
  apply expecting_value_Return in H0.
  pose proof (R_skip_ws _ _ HR1 (starts_ok_head _ _ _ _ scan_starts_ok H0))
    as HRv.
  pose proof (skip_ws_length r1') as Hl2.
  destruct (skip_ws r2) as [|c' r3] eqn:Er2; [discriminate|].
  assert (Hdelim : is_delim c' = true).
  { destruct (N.eqb_spec c' 125) as [->|]; [reflexivity|].
    destruct (N.eqb_spec c' 44) as [->|]; [reflexivity|discriminate]. }
  destruct (Hscan _ _ _ _ H0 (skip_ws_delim _ _ _ Er2 Hdelim) HRv ltac:(lia))
    as (v0' & r2' & H0' & HR2 & Hlen2 & Hv0).
  destruct (R_skip_ws_cons _ _ _ _ HR2 Er2 (is_delim_not_backquote _ Hdelim))
    as (r3' & Er2' & HR3).
  pose proof (skip_ws_length r2') as Hl3. rewrite Er2' in Hl3.
  cbn [List.length] in Hl3.
  destruct fuel' as [|fuel']; [lia|].
  cbn [object_loop]. rewrite Hkey'. cbn [bind]. rewrite Er0'.
  cbn [N.eqb Pos.eqb]. cbv iota. rewrite H0'. cbn [expecting_value bind].
  rewrite Er2'.
  destruct (N.eqb_spec c' 125) as [->|Hc125].
  - injection H as <- <-. do 2 eexists. split; [reflexivity|].
    split; [exact HR3|]. intros He.
    now rewrite (Hpairs He), (Hk He), (Hv0 He).
  - destruct (N.eqb_spec c' 44) as [->|Hc44]; [|discriminate].
    destruct (skip_ws r3) as [|q r4] eqn:Er3; [discriminate|].
    destruct (N.eqb_spec q 34) as [->|]; [|discriminate].
    destruct (R_skip_ws_cons _ _ _ _ HR3 Er3 ltac:(discriminate))
      as (r4' & Er3' & HR4).
    pose proof (skip_ws_length r3') as Hl4. rewrite Er3' in Hl4.
    cbn [List.length] in Hl4.
    rewrite Er3'. cbn [N.eqb Pos.eqb]. cbv iota.
    apply (IH _ _ _ _ H); auto.
    + eapply follows_le; [exact Hscan|lia].
    + lia.
    + intros He. now rewrite (Hpairs He), (Hk He), (Hv0 He).
Qed.

Lemma JSONObject_sim (s : str) (v : value) (r s' : str) :
  JSONObject scan s = Return (v, r) -> R s s' ->
  follows R exact scan scan' (List.length s') ->
  exists v' r', JSONObject scan' s' = Return (v', r') /\ R r r' /\
                (exact -> v' = v).
Proof.
  intros H HR Hscan. unfold JSONObject in *.
  pose proof (skip_ws_length s') as Hlen.
  destruct (skip_ws s) as [|c r1] eqn:Es; [discriminate|].
  destruct (N.eqb_spec c 125) as [->|Hc125].
  - injection H as <- <-.
    destruct (R_skip_ws_cons _ _ _ _ HR Es ltac:(discriminate))
      as (r1' & -> & HR1).
    cbn [N.eqb Pos.eqb]. cbv iota. do 2 eexists. split; [reflexivity|].
    split; [exact HR1|reflexivity].
  - destruct (N.eqb_spec c 34) as [->|]; [|discriminate].
    destruct (R_skip_ws_cons _ _ _ _ HR Es ltac:(discriminate))
      as (r1' & Es' & HR1).
    rewrite Es' in *. cbn [N.eqb Pos.eqb List.length] in *. cbv iota.
    apply (object_loop_sim _ _ _ _ _ H); auto.
    eapply follows_le; [exact Hscan|lia].
Qed.

End LoopSimulation.

Lemma scan_once_starts_ok (depth : nat) : starts_ok (scan_once L depth).
Proof.
  intros x v r H. destruct depth as [|depth]; [discriminate|].
  destruct x as [|c t]; [discriminate|]. exists c, t. split; [reflexivity|].
  intros ->. discriminate H.
Qed.

Lemma scan_once_literal (depth : nat) (s s' lit : str) (v : value) :
  R s s' -> startswith lit s = true -> Forall (fun c => c <> 96) lit ->
  (forall r', scan_once L (S depth) (lit ++ r') = Return (v, r')) ->
  exists r', scan_once L (S depth) s' = Return (v, r') /\
             R (skipn (List.length lit) s) r'.
Proof.
  intros HR Hs Hlit Hscan.
  destruct (R_startswith _ _ _ HR Hs Hlit) as (r' & -> & HRr).
  exists r'. split; [apply Hscan|exact HRr].
Qed.

(** A text related to one that is read is read to the same depth. *)
Lemma scan_once_sim (depth : nat) :
  forall s v r,
    scan_once L depth s = Return (v, r) -> at_delim r = true ->
    forall s',
      R s s' ->
      exists v' r', scan_once L depth s' = Return (v', r') /\ R r r' /\
                    (exact -> v' = v).
Proof.
  induction depth as [|depth IH]; intros s v r H Hr s' HR;
    [discriminate|].
  destruct (scan_once_starts_ok _ _ _ _ H) as (c & s1 & -> & Hc96).
  destruct (R_cons _ _ _ HR Hc96) as (s1' & -> & HR1).
  assert (Hfollows : follows R exact (scan_once L depth) (scan_once L depth)
                       (List.length s1')).
  { intros x v0 r0 x' Hx Hr0 HRx Hlen.
    destruct (IH _ _ _ Hx Hr0 x' HRx) as (v' & r' & H' & HR' & Hv).
    exists v', r'. repeat split; auto.
    pose proof (scan_once_behaved L depth x') as Hb.
    rewrite H' in Hb. exact Hb. }
  cbn [scan_once] in H.
  destruct (N.eqb_spec c 34) as [->|Hc34].
  { apply bind_Return in H as ([a rest] & Ha & H). injection H as <- <-.
    destruct (R_string _ _ _ _ _ HR1 Ha) as (a' & r' & Ha' & HRr & Hexact).
    exists (VStr a'), r'. cbn [scan_once N.eqb Pos.eqb]. cbv iota.
    rewrite Ha'. repeat split; auto. intros He. now rewrite (Hexact He). }
  destruct (N.eqb_spec c 123) as [->|Hc123].
  { exact (JSONObject_sim _ _ (scan_once_starts_ok depth) _ _ _ _ H HR1 Hfollows). }
  destruct (N.eqb_spec c 91) as [->|Hc91].
  { exact (JSONArray_sim _ _ (scan_once_starts_ok depth) _ _ _ _ H HR1 Hfollows). }
  assert (Hlit : forall lit v0,
            startswith lit (c :: s1) = true -> Forall (fun c => c <> 96) lit ->
            (forall r', scan_once L (S depth) (lit ++ r') = Return (v0, r')) ->
            Return (v0, skipn (List.length lit) (c :: s1)) = Return (v, r) ->
            exists v' r', scan_once L (S depth) (c :: s1') = Return (v', r') /\
                          R r r' /\ (exact -> v' = v)).
  { intros lit v0 Hs Hl Hscan [= <- <-].
    destruct (scan_once_literal depth _ _ _ _ HR Hs Hl Hscan) as (r' & H' & HRr).
    exists v0, r'. auto. }
  destruct (startswith (u "null") (c :: s1)) eqn:E1.
  { apply (Hlit (u "null") VNone E1); auto.
    repeat constructor; discriminate. }
  destruct (startswith (u "true") (c :: s1)) eqn:E2.
  { apply (Hlit (u "true") (VBool true) E2); auto.
    repeat constructor; discriminate. }
  destruct (startswith (u "false") (c :: s1)) eqn:E3.
  { apply (Hlit (u "false") (VBool false) E3); auto.
    repeat constructor; discriminate. }
  destruct (match_number (c :: s1)) as [[[[integer frac] exp] rest]|] eqn:En.
  { assert (Hrest : rest = r).
    { destruct (frac ++ exp); [|now injection H].
      apply bind_Return in H as (n & _ & H). now injection H. }
    subst rest.
    destruct (match_number_sim _ _ _ _ _ _ En HR Hr) as (r' & En' & HRr).
    rewrite (scan_once_number _ _ _ _ (match_number_head _ _ _ En)), En'.
    destruct (frac ++ exp).
    - apply bind_Return in H as (n & Hn & H). injection H as <-.
      rewrite Hn. do 2 eexists. split; [reflexivity|]. auto.
    - injection H as <-. do 2 eexists. split; [reflexivity|]. auto. }
  destruct (startswith (u "NaN") (c :: s1)) eqn:E4.
  { apply (Hlit (u "NaN") (VFloat SpecFloat.S754_nan) E4); auto.
    repeat constructor; discriminate. }
  destruct (startswith (u "Infinity") (c :: s1)) eqn:E5.
  { apply (Hlit (u "Infinity") (VFloat (SpecFloat.S754_infinity false)) E5);
      auto.
    repeat constructor; discriminate. }
  destruct (startswith (u "-Infinity") (c :: s1)) eqn:E6.
  { apply (Hlit (u "-Infinity") (VFloat (SpecFloat.S754_infinity true)) E6);
      auto.
    repeat constructor; discriminate. }
  discriminate H.
Qed.

(** [json.loads] on texts that are related once their leading white space
    is dropped. *)
Lemma json_loads_sim_ws (s s' : str) (v : value) :
  json_loads L s = Return v -> R (skip_ws s) (skip_ws s') ->
  startswith [65279] s' = false ->
  exists v', json_loads L s' = Return v' /\ (exact -> v' = v).
Proof.
  unfold json_loads. intros H HRs Hbom.
  destruct (startswith [65279] s) eqn:Ebom; [discriminate|].
  apply bind_Return in H as ([obj rest] & Hobj & H).
  apply expecting_value_Return in Hobj.
  destruct (skip_ws rest) as [|c t] eqn:Erest; [|discriminate].
  injection H as <-.
  assert (Hrest : at_delim rest = true).
  { destruct rest as [|c rest']; [reflexivity|]. cbn [skip_ws] in Erest.
    cbn [at_delim]. unfold is_delim.
    destruct (is_ws c); [reflexivity|discriminate]. }
  destruct (scan_once_sim _ _ _ _ Hobj Hrest (skip_ws s') HRs)
    as (v' & r' & H' & HRr & Hv).
  rewrite Hbom, H'. cbn [expecting_value bind].
  assert (Hr' : skip_ws r' = []).
  { pose proof (R_skip_ws _ _ HRr) as HRk. rewrite Erest in HRk.
    specialize (HRk I). destruct (R_nil _ HRk) as [Hw _].
    rewrite <- (skip_ws_all _ Hw). clear.
    induction r' as [|c r' IH]; [reflexivity|]. cbn [skip_ws].
    destruct (is_ws c) eqn:E; [exact IH|]. cbn [skip_ws]. now rewrite E. }
  rewrite Hr'. exists v'. auto.
Qed.

(** [json.loads] on related texts. *)
Lemma json_loads_sim (s s' : str) (v : value) :
  json_loads L s = Return v -> R s s' ->
  exists v', json_loads L s' = Return v' /\ (exact -> v' = v).
Proof.
  intros H HR.
  assert (Hobj : exists obj rest,
            scan_once L (decoder_depth L) (skip_ws s) = Return (obj, rest)).
  { unfold json_loads in H. destruct (startswith [65279] s); [discriminate|].
    apply bind_Return in H as ([obj rest] & Hobj & _).
    apply expecting_value_Return in Hobj. eauto. }
  destruct Hobj as (obj & rest & Hobj).
  destruct (scan_once_starts_ok _ _ _ _ Hobj) as (c & t & Hs & Hc).
  apply (json_loads_sim_ws s s' v H).
  - apply R_skip_ws; [exact HR|]. now rewrite Hs.
  - unfold json_loads in H.
    destruct s as [|c0 s0]; [discriminate|].
    destruct (N.eqb_spec c0 96) as [->|Hc0].
    + cbn in Hs. injection Hs as <- <-. contradiction.
    + destruct (R_cons _ _ _ HR Hc0) as (s'' & -> & _).
      cbn [startswith] in *. destruct (65279 =? c0); [discriminate|reflexivity].
Qed.

End Simulation.

(** ** Text followed by more white space *)

Lemma padded_cons (c : char) (s s' : str) :
  padded (c :: s) s' -> c <> 96 -> exists s'', s' = c :: s'' /\ padded s s''.
Proof. intros (w & Hw & ->) _. exists (s ++ w). split; [reflexivity|now exists w]. Qed.

Lemma padded_nil (s' : str) :
  padded [] s' -> forallb is_ws s' = true /\ padded [] [].
Proof. intros (w & Hw & ->). split; [exact Hw|now exists []]. Qed.

Lemma startswith_escape_pad (s w : str) :
  forallb is_ws w = true ->
  startswith [92; 117] (s ++ w) = startswith [92; 117] s.
Proof.
  intros Hw. destruct w as [|c w]; [now rewrite List.app_nil_r|].
  cbn [forallb] in Hw. apply andb_true_iff in Hw as [Hc _].
  assert (H92 : (92 =? c) = false).
  { destruct (N.eqb_spec 92 c) as [<-|]; [discriminate Hc|reflexivity]. }
  assert (H117 : (117 =? c) = false).
  { destruct (N.eqb_spec 117 c) as [<-|]; [discriminate Hc|reflexivity]. }
  destruct s as [|a [|b s]]; cbn [app startswith].
  - rewrite H92. reflexivity.
  - rewrite H117. reflexivity.
  - reflexivity.
Qed.

Lemma scan_escape_pad (s1 w : str) (ch : char) (rest : str) :
  forallb is_ws w = true ->
  scan_escape s1 = Return (ch, rest) ->
  scan_escape (s1 ++ w) = Return (ch, rest ++ w).
Proof.
  intros Hw. unfold scan_escape. destruct s1 as [|esc s2]; [discriminate|].
  cbn [app]. destruct (esc =? 117).
  - destruct s2 as [|h1 [|h2 [|h3 [|h4 s3]]]]; try discriminate. cbn [app].
    destruct (decode_hex4 h1 h2 h3 h4) as [uni|]; [|discriminate].
    rewrite (startswith_escape_pad _ _ Hw).
    destruct (is_high_surrogate uni && startswith [92; 117] s3).
    + destruct s3 as [|a1 [|a2 [|g1 [|g2 [|g3 [|g4 s4]]]]]]; try discriminate.
      cbn [app]. destruct (decode_hex4 g1 g2 g3 g4) as [uni2|]; [|discriminate].
      destruct (is_low_surrogate uni2); now intros [= <- <-].
    + now intros [= <- <-].
  - destruct (backslash esc); [|discriminate]. now intros [= <- <-].
Qed.

Lemma py_scanstring_pad (s w chunks a r : str) :
  forallb is_ws w = true ->
  py_scanstring s chunks = Return (a, r) ->
  py_scanstring (s ++ w) chunks = Return (a, r ++ w).
Proof.
  intros Hw. revert chunks.
  induction s as [s IH] using str_length_ind. intros chunks.
  rewrite (py_scanstring_eq s), (py_scanstring_eq (s ++ w)).
  destruct s as [|c s1]; [discriminate|]. cbn [app].
  destruct (c =? 34); [now intros [= <- <-]|].
  destruct (c =? 92).
  - intros H. apply bind_Return in H as ([ch rest] & He & H).
    rewrite (scan_escape_pad _ _ _ _ Hw He). cbn [bind].
    apply IH; [|exact H]. apply scan_escape_shorter in He. simpl. lia.
  - destruct (c <? 32); [discriminate|]. apply IH. simpl. lia.
Qed.

Lemma padded_string (s s' chunks a r : str) :
  padded s s' -> py_scanstring s chunks = Return (a, r) ->
  exists a' r', py_scanstring s' chunks = Return (a', r') /\ padded r r' /\
                (True -> a' = a).
Proof.
  intros (w & Hw & ->) H. exists a, (r ++ w).
  split; [now apply py_scanstring_pad|]. split; [now exists w|reflexivity].
Qed.

Lemma skip_ws_more (s w : str) :
  skip_ws s <> [] -> skip_ws (s ++ w) = skip_ws s ++ w.
Proof.
  induction s as [|c s IH]; [contradiction|]. cbn [app skip_ws].
  destruct (is_ws c); [exact IH|reflexivity].
Qed.

(** White space around a text that decodes does not change the value. *)
Lemma json_loads_padded (L : limits) (s : str) (v : value) :
  json_loads L s = Return v -> json_loads L (LF ++ s ++ LF) = Return v.
Proof.
  intros H.
  destruct (json_loads_sim_ws L padded True padded_cons padded_nil padded_string
              s (LF ++ s ++ LF) v H) as (v' & H' & Hv).
  - unfold json_loads in H. destruct (startswith [65279] s); [discriminate|].
    apply bind_Return in H as ([obj rest] & Hobj & _).
    apply expecting_value_Return in Hobj.
    destruct (scan_once_starts_ok _ _ _ _ _ Hobj) as (c & t & Hs & _).
    change (skip_ws (LF ++ s ++ LF)) with (skip_ws (s ++ LF)).
    rewrite skip_ws_more by (rewrite Hs; discriminate).
    now exists LF.
  - reflexivity.
  - now rewrite H', (Hv I).
Qed.

(** ** Text with the occurrences of a marker removed *)

Lemma py_scanstring_plain (p s chunks : str) :
  forallb plain p = true ->
  py_scanstring (p ++ s) chunks = py_scanstring s (chunks ++ p).
Proof.
  revert chunks. induction p as [|c p IH]; intros chunks Hp.
  - now rewrite List.app_nil_r.
  - cbn [forallb] in Hp. apply andb_true_iff in Hp as [Hc Hp].
    unfold plain in Hc. apply andb_true_iff in Hc as [Hc H92].
    apply andb_true_iff in Hc as [H32 H34].
    apply negb_true_iff in H92, H34. apply N.leb_le in H32.
    cbn [app]. rewrite py_scanstring_eq, H34, H92.
    destruct (N.ltb_spec c 32); [lia|].
    rewrite (IH _ Hp). now rewrite <- app_assoc.
Qed.

(** The decoded text grows at the end of [chunks]; nothing else depends
    on it. *)
Lemma py_scanstring_chunks (s chunks : str) :
  py_scanstring s chunks =
  '(a, r) <- py_scanstring s [] ;; Return (chunks ++ a, r).
Proof.
  revert chunks. induction s as [s IH] using str_length_ind. intros chunks.
  rewrite (py_scanstring_eq s chunks), (py_scanstring_eq s []).
  destruct s as [|c s1]; [reflexivity|].
  destruct (c =? 34); [cbn; now rewrite List.app_nil_r|].
  assert (Hrec : forall s' x,
            (List.length s' < List.length (c :: s1))%nat ->
            py_scanstring s' (chunks ++ [x]) =
            '(a, r) <- py_scanstring s' ([] ++ [x]) ;; Return (chunks ++ a, r)).
  { intros s' x Hlen. rewrite (IH s' Hlen (chunks ++ [x])), (IH s' Hlen ([] ++ [x])).
    destruct (py_scanstring s' []) as [[a r]|e|]; cbn [bind]; try reflexivity.
    now rewrite <- app_assoc. }
  destruct (c =? 92).
  - destruct (scan_escape s1) as [[ch rest]|e|] eqn:He; cbn [bind]; try reflexivity.
    apply Hrec. apply scan_escape_shorter in He. simpl. lia.
  - destruct (c <? 32); [reflexivity|]. apply Hrec. simpl. lia.
Qed.

Lemma py_scanstring_any_chunks (s chunks chunks' a r : str) :
  py_scanstring s chunks = Return (a, r) ->
  exists a', py_scanstring s chunks' = Return (a', r).
Proof.
  rewrite (py_scanstring_chunks s chunks), (py_scanstring_chunks s chunks').
  destruct (py_scanstring s []) as [[a0 r0]|e|]; cbn [bind]; try discriminate.
  intros [= <- <-]. eauto.
Qed.

Lemma replace_from_skip (old new : str) (k : nat) (s : str) :
  replace_from old new k s = replace_from old new 0 (skipn k s).
Proof.
  revert k. induction s as [|c s IH]; intros k.
  - now destruct k.
  - destruct k as [|k]; [reflexivity|]. cbn [replace_from skipn]. apply IH.
Qed.

Lemma hexval_not_backquote (h : char) (n : N) : hexval h = Some n -> h <> 96.
Proof. intros H ->. discriminate H. Qed.

Lemma decode_hex4_not_backquote (h1 h2 h3 h4 : char) (n : N) :
  decode_hex4 h1 h2 h3 h4 = Some n ->
  h1 <> 96 /\ h2 <> 96 /\ h3 <> 96 /\ h4 <> 96.
Proof.
  unfold decode_hex4.
  destruct (hexval h1) eqn:E1; [|discriminate].
  destruct (hexval h2) eqn:E2; [|discriminate].
  destruct (hexval h3) eqn:E3; [|discriminate].
  destruct (hexval h4) eqn:E4; [|discriminate].
  intros _. repeat split; eapply hexval_not_backquote; eauto.
Qed.

Lemma backslash_not_backquote (esc ch : char) :
  backslash esc = Some ch -> esc <> 96.
Proof. intros H ->. discriminate H. Qed.

Lemma low_not_high (n : N) :
  is_low_surrogate n = true -> is_high_surrogate n = false.
Proof.
  unfold is_low_surrogate, is_high_surrogate.
  cmp; cbn [andb]; try reflexivity; try discriminate; lia.
Qed.

Section Removal.
Variable L : limits.

(** The marker starts with a backquote and is made of plain code points. *)
Variable marker : str.
Hypothesis marker_plain : forallb plain (96 :: marker) = true.

Lemma removed_cons (c : char) (s : str) :
  c <> 96 -> removed marker (c :: s) = c :: removed marker s.
Proof.
  intros Hc. unfold removed. cbn [replace_from startswith].
  destruct (N.eqb_spec 96 c); [congruence|reflexivity].
Qed.

Lemma removed_no_match (c : char) (s : str) :
  startswith (96 :: marker) (c :: s) = false ->
  removed marker (c :: s) = c :: removed marker s.
Proof. intros H. unfold removed. cbn [replace_from]. now rewrite H. Qed.

Lemma removed_match (s : str) :
  startswith (96 :: marker) s = true ->
  exists s2, s = (96 :: marker) ++ s2 /\ removed marker s = removed marker s2.
Proof.
  intros H. exists (skipn (List.length (96 :: marker)) s).
  split; [now apply startswith_split|].
  destruct s as [|c s1]; [discriminate|].
  unfold removed. cbn [replace_from]. rewrite H. cbn [app List.length pred skipn].
  apply replace_from_skip.
Qed.

Lemma removed_related_cons (c : char) (s s' : str) :
  s' = removed marker (c :: s) -> c <> 96 ->
  exists s'', s' = c :: s'' /\ s'' = removed marker s.
Proof. intros -> Hc. exists (removed marker s). now rewrite removed_cons. Qed.

Lemma removed_related_nil (s' : str) :
  s' = removed marker [] -> forallb is_ws s' = true /\ [] = removed marker [].
Proof. intros ->. now split. Qed.

(** The escape at the head of [s1] after the removal: the same escape,
    unless the removal has brought a second escape next to a high
    surrogate. *)
Lemma scan_escape_removed (s1 : str) (ch : char) (rest : str) :
  scan_escape s1 = Return (ch, rest) ->
  scan_escape (removed marker s1) = Return (ch, removed marker rest)
  \/ exists tl,
       removed marker rest = 92 :: 117 :: tl /\
       scan_escape (removed marker s1) =
       match tl with
       | g1 :: g2 :: g3 :: g4 :: s4 =>
           match decode_hex4 g1 g2 g3 g4 with
           | None => decode_error "Invalid \uXXXX escape"
           | Some uni2 =>
               if is_low_surrogate uni2
               then Return (join_surrogates ch uni2, s4)
               else Return (ch, removed marker rest)
           end
       | _ => decode_error "Invalid \uXXXX escape"
       end.
Proof.
  unfold scan_escape at 1. destruct s1 as [|esc s2]; [discriminate|].
  destruct (N.eqb_spec esc 117) as [->|Hesc].
  - destruct s2 as [|h1 [|h2 [|h3 [|h4 s3]]]]; try discriminate.
    destruct (decode_hex4 h1 h2 h3 h4) as [uni|] eqn:Eh; [|discriminate].
    destruct (decode_hex4_not_backquote _ _ _ _ _ Eh) as (H1 & H2 & H3 & H4).
    rewrite !removed_cons by (discriminate || assumption).
    unfold scan_escape. cbn [N.eqb Pos.eqb]. cbv iota. rewrite Eh.
    destruct (is_high_surrogate uni) eqn:Ehigh; cbn [andb].
    + destruct (startswith [92; 117] s3) eqn:Es3.
      * destruct s3 as [|a1 [|a2 [|g1 [|g2 [|g3 [|g4 s4]]]]]]; try discriminate.
        destruct (decode_hex4 g1 g2 g3 g4) as [uni2|] eqn:Eg; [|discriminate].
        destruct (decode_hex4_not_backquote _ _ _ _ _ Eg) as (G1 & G2 & G3 & G4).
        cbn [startswith] in Es3. apply andb_true_iff in Es3 as [Ea1 Ea2].
        apply andb_true_iff in Ea2 as [Ea2 _].
        apply N.eqb_eq in Ea1, Ea2. subst a1 a2.
        intros H. left.
        rewrite !removed_cons by (discriminate || assumption).
        cbn [startswith N.eqb Pos.eqb andb]. cbv iota. rewrite Eg.
        destruct (is_low_surrogate uni2); injection H as <- <-;
          rewrite ?removed_cons by (discriminate || assumption); reflexivity.
      * intros [= <- <-].
        destruct (startswith [92; 117] (removed marker s3)) eqn:Er; [|now left].
        right. destruct (removed marker s3) as [|b1 [|b2 tl]];
          cbn [startswith] in Er;
          [discriminate Er|rewrite andb_false_r in Er; discriminate Er|].
        apply andb_true_iff in Er as [Eb1 Eb2].
        apply andb_true_iff in Eb2 as [Eb2 _].
        apply N.eqb_eq in Eb1, Eb2. subst b1 b2.
        exists tl. split; [reflexivity|].
        destruct tl as [|g1 [|g2 [|g3 [|g4 s4]]]]; reflexivity.
    + intros [= <- <-]. now left.
  - destruct (backslash esc) as [c|] eqn:Eb; [|discriminate].
    intros [= <- <-]. left.
    rewrite removed_cons by (eapply backslash_not_backquote; eauto).
    unfold scan_escape. destruct (N.eqb_spec esc 117); [contradiction|].
    now rewrite Eb.
Qed.

Lemma removed_string (s : str) :
  forall chunks a r,
    py_scanstring s chunks = Return (a, r) ->
    exists a', py_scanstring (removed marker s) chunks = Return (a', removed marker r).
Proof.
  induction s as [s IH] using str_length_ind. intros chunks a r H.
  destruct s as [|c s1]; [rewrite py_scanstring_eq in H; discriminate|].
  destruct (startswith (96 :: marker) (c :: s1)) eqn:Em.
  - destruct (removed_match _ Em) as (s2 & Hs & ->). rewrite Hs in H.
    rewrite (py_scanstring_plain _ _ _ marker_plain) in H.
    assert (Hlen : (List.length s2 < List.length (c :: s1))%nat).
    { rewrite Hs, length_app. simpl. lia. }
    destruct (IH s2 Hlen _ _ _ H) as (a1 & Ha1).
    eapply py_scanstring_any_chunks; eauto.
  - rewrite (removed_no_match _ _ Em).
    rewrite py_scanstring_eq in H. rewrite py_scanstring_eq.
    destruct (c =? 34); [injection H as <- <-; eauto|].
    destruct (c =? 92).
    + apply bind_Return in H as ([ch rest] & He & H).
      pose proof (scan_escape_shorter _ _ _ He) as Hlen.
      destruct (IH rest ltac:(simpl; lia) _ _ _ H) as (a1 & Ha1).
      destruct (scan_escape_removed _ _ _ He) as [->|(tl & Hrm & ->)];
        [cbn [bind]; eauto|].
      pose proof Ha1 as Hcontinue.
      rewrite Hrm, py_scanstring_eq in Ha1.
      cbn [N.eqb Pos.eqb] in Ha1. cbv iota in Ha1.
      apply bind_Return in Ha1 as ([ch2 rest2] & He2 & Ha2).
      unfold scan_escape in He2. cbn [N.eqb Pos.eqb] in He2. cbv iota in He2.
      destruct tl as [|g1 [|g2 [|g3 [|g4 s4]]]]; try discriminate.
      destruct (decode_hex4 g1 g2 g3 g4) as [uni2|]; [|discriminate].
      destruct (is_low_surrogate uni2) eqn:Elow; cbn [bind].
      * rewrite (low_not_high _ Elow) in He2. cbn [andb] in He2.
        injection He2 as <- <-.
        eapply py_scanstring_any_chunks; eauto.
      * eauto.
    + destruct (c <? 32); [discriminate|].
      apply (IH s1 ltac:(simpl; lia) _ _ _ H).
Qed.

Lemma removed_related_string (s s' chunks a r : str) :
  s' = removed marker s -> py_scanstring s chunks = Return (a, r) ->
  exists a' r', py_scanstring s' chunks = Return (a', r') /\ r' = removed marker r /\
                (False -> a' = a).
Proof.
  intros -> H. destruct (removed_string _ _ _ _ H) as (a' & Ha').
  exists a', (removed marker r). repeat split; [exact Ha'|contradiction].
Qed.

(** A text that decodes still decodes once the marker is taken out. *)
Lemma json_loads_removed (s : str) (v : value) :
  json_loads L s = Return v ->
  exists v', json_loads L (removed marker s) = Return v'.
Proof.
  intros H.
  destruct (json_loads_sim L (fun s s' => s' = removed marker s) False
              removed_related_cons removed_related_nil removed_related_string
              s (removed marker s) v H eq_refl) as (v' & Hv' & _).
  eauto.
Qed.

End Removal.

Lemma startswith_stop (old s s' : str) (c : char) :
  ~ In c old -> old <> [] ->
  startswith old (s ++ c :: s') = startswith old s.
Proof.
  intros Hc Hold. revert s. induction old as [|x old IH]; intros s;
    [contradiction|].
  destruct s as [|y s1]; cbn [app startswith].
  - destruct (N.eqb_spec x c) as [->|]; [|reflexivity].
    exfalso. apply Hc. now left.
  - destruct (x =? y); [|reflexivity]. cbn [andb].
    destruct old as [|x' old']; [reflexivity|].
    apply IH; [|discriminate]. intros H. apply Hc. now right.
Qed.

Lemma startswith_length (p s : str) :
  startswith p s = true -> (List.length p <= List.length s)%nat.
Proof.
  intros H. apply startswith_split in H. rewrite H.
  rewrite length_app. lia.
Qed.

(** A code point that is not part of the marker splits the text in two
    parts that are searched on their own. *)
Lemma replace_from_split (old new s s' : str) (c : char) :
  ~ In c old -> old <> [] ->
  forall k, (k <= List.length s)%nat ->
  replace_from old new k (s ++ c :: s') =
  replace_from old new k s ++ c :: replace_from old new 0 s'.
Proof.
  intros Hc Hold. induction s as [|a s1 IH]; intros k Hk.
  - assert (k = 0)%nat by (simpl in Hk; lia). subst k.
    cbn [app replace_from].
    pose proof (startswith_stop old [] s' c Hc Hold) as E. cbn [app] in E.
    rewrite E. destruct old; [contradiction|reflexivity].
  - destruct k as [|k]; cbn [app replace_from].
    + change (a :: s1 ++ c :: s') with ((a :: s1) ++ c :: s').
      rewrite (startswith_stop old (a :: s1) s' c Hc Hold).
      destruct (startswith old (a :: s1)) eqn:E.
      * apply startswith_length in E. cbn [List.length] in E.
        rewrite IH by lia. now rewrite <- app_assoc.
      * now rewrite IH by lia.
    + apply IH. simpl in Hk. lia.
Qed.

Lemma replace_from_match (old new s : str) :
  old <> [] ->
  replace_from old new 0 (old ++ s) = new ++ replace_from old new 0 s.
Proof.
  intros Hold. destruct old as [|x old]; [contradiction|].
  cbn [app replace_from]. change (x :: old ++ s) with ((x :: old) ++ s).
  rewrite startswith_app, replace_from_skip. cbn [List.length pred].
  now rewrite skipn_app, skipn_all, Nat.sub_diag.
Qed.

Lemma replace_from_lines (old x y : str) :
  ~ In 10 old -> old <> [] ->
  replace_from old [] 0 (10 :: x ++ 10 :: y)
  = 10 :: replace_from old [] 0 x ++ 10 :: replace_from old [] 0 y.
Proof.
  intros H10 Hold.
  change (10 :: x ++ 10 :: y) with ([] ++ 10 :: x ++ 10 :: y).
  rewrite (replace_from_split old [] [] (x ++ 10 :: y) 10 H10 Hold 0
             (Nat.le_0_l _)).
  change (replace_from old [] 0 []) with (@nil N). cbn [app]. f_equal.
  apply (replace_from_split old [] x y 10 H10 Hold 0 (Nat.le_0_l _)).
Qed.

(** Cleaning a wrapped text cleans the text and leaves the two line feeds. *)
Lemma strip_fences_wrapped (t : str) :
  strip_fences (fence_json ++ LF ++ t ++ LF ++ fence)
  = LF ++ strip_fences t ++ LF.
Proof.
  unfold strip_fences, str_replace.
  change fence_json with (96 :: u "``json"). change fence with (96 :: u "``").
  cbv iota.
  assert (Hj : ~ In 10 (96 :: u "``json")).
  { cbn. intros H. repeat (destruct H as [H|H]; [discriminate H|]). exact H. }
  assert (Hf : ~ In 10 (96 :: u "``")).
  { cbn. intros H. repeat (destruct H as [H|H]; [discriminate H|]). exact H. }
  rewrite (replace_from_match (96 :: u "``json") []) by discriminate.
  unfold LF. cbn [app].
  rewrite (replace_from_lines (96 :: u "``json") t (96 :: u "``") Hj)
    by discriminate.
  change (replace_from (96 :: u "``json") [] 0 (96 :: u "``"))
    with (96 :: u "``").
  rewrite (replace_from_lines (96 :: u "``") _ (96 :: u "``") Hf)
    by discriminate.
  reflexivity.
Qed.

(** A text that decodes still decodes once it is cleaned. *)
Lemma json_loads_strip_fences (L : limits) (t : str) (v : value) :
  json_loads L t = Return v ->
  exists v', json_loads L (strip_fences t) = Return v'.
Proof.
  intros H.
  destruct (json_loads_removed L (u "``json") eq_refl t v H) as (v1 & H1).
  exact (json_loads_removed L (u "``") eq_refl _ v1 H1).
Qed.

Lemma parse_llm_json_wrapped (L : limits) (t : str) (v : value) :
  json_loads L t = Return v ->
  parse_llm_json L (fence_json ++ LF ++ t ++ LF ++ fence) = parse_llm_json L t.
Proof.
  intros H. destruct (json_loads_strip_fences L t v H) as (v' & Hv').
  unfold parse_llm_json. fold (strip_fences t).
  fold (strip_fences (fence_json ++ LF ++ t ++ LF ++ fence)).
  rewrite strip_fences_wrapped, (json_loads_padded _ _ _ Hv'), Hv'. reflexivity.
Qed.

(** C9, amended. For every text that [json.loads] decodes to an object,
    under the limits of the interpreter on the digits of an integer and on
    nesting, wrapping it between the json fence and the closing fence,
    each on a line of its own, does not change what [parse_llm_json]
    returns. *)
Theorem fence_wrapping (L : limits) (t : str) (m : pydict) :
  json_loads L t = Return (VDict m) ->
  parse_llm_json L (fence_json ++ LF ++ t ++ LF ++ fence) = parse_llm_json L t.
Proof. apply parse_llm_json_wrapped. Qed.

Lemma fence_wrapping_witness :
  parse_llm_json sample_limits (fence_json ++ LF ++ fenced_sample ++ LF ++ fence)
  = parse_llm_json sample_limits fenced_sample.
Proof.
  apply (fence_wrapping sample_limits fenced_sample
           [ (u "answer", VStr (u "see the ```json block"));
             (u "score",
              VList [VFloat (py_float (u "1") (u ".5") (u "e3")); VInt (-2); VNone]) ]).
  vm_compute. reflexivity.
Defined.

(** C9, as stated, fails: an object with an integer of 4301 digits is a
    JSON encoding, read by an interpreter that sets no limit on digits,
    but under the default limit it is not decoded, wrapped or not, and the
    two failure objects hold different texts. *)
Lemma fence_wrapping_counterexample :
  ~ (forall (L : limits) (t : str) (m : pydict),
        (exists L', json_loads L' t = Return (VDict m)) ->
        parse_llm_json L (fence_json ++ LF ++ t ++ LF ++ fence)
        = parse_llm_json L t).
Proof.
  intros H.
  assert (Ht : json_loads (mk_limits 0 8 8) long_integer_object
               = Return (VDict [(u "n", VInt (digits_value (repeat 49 4301)))])).
  { vm_compute. reflexivity. }
  specialize (H sample_limits long_integer_object _ (ex_intro _ _ Ht)).
  apply (f_equal (fun o => match o with
                           | Return (VDict [_; _; (_, VStr raw)]) =>
                               List.length raw
                           | _ => 0%nat
                           end)) in H.
  vm_compute in H. discriminate H.
Qed.

(** ** The cleaned text holds no fence *)

Lemma replace_fence_other (x : char) (s : str) :
  x <> 96 ->
  replace_from [96; 96; 96] [] 0 (x :: s)
  = x :: replace_from [96; 96; 96] [] 0 s.
Proof.
  intros H. cbn [replace_from startswith].
  destruct (N.eqb_spec 96 x); [congruence|reflexivity].
Qed.

(** Each run of backquotes loses its groups of three, and what is left of
    it is shorter than a fence. *)
Lemma replace_fence_clean (s : str) :
  contains [96; 96; 96] (replace_from [96; 96; 96] [] 0 s) = false.
Proof.
  induction s as [s IH] using str_length_ind.
  destruct s as [|c s1]; [reflexivity|].
  destruct (startswith [96; 96; 96] (c :: s1)) eqn:E.
  - cbn [replace_from]. rewrite E. cbn [app List.length pred].
    rewrite replace_from_skip. apply IH.
    pose proof (length_skipn 2 s1). cbn [List.length]. lia.
  - cbn [replace_from]. rewrite E. cbn [contains].
    rewrite (IH s1) by (cbn [List.length]; lia). rewrite orb_false_r.
    cbn [startswith]. destruct (N.eqb_spec 96 c) as [<-|]; [|reflexivity].
    cbn [andb]. cbn [startswith] in E. rewrite N.eqb_refl in E.
    cbn [andb] in E.
    destruct s1 as [|x s2]; [reflexivity|].
    destruct (N.eqb_spec 96 x) as [<-|Hx].
    + cbn [andb] in E. cbn [replace_from startswith]. rewrite N.eqb_refl.
      cbn [andb]. destruct s2 as [|y s3]; [reflexivity|].
      destruct (N.eqb_spec 96 y) as [<-|Hy]; [discriminate E|].
      cbn [andb]. rewrite N.eqb_refl. cbn [andb].
      rewrite replace_fence_other by congruence. cbn [startswith].
      destruct (N.eqb_spec 96 y); [congruence|reflexivity].
    + rewrite replace_fence_other by congruence. cbn [startswith].
      destruct (N.eqb_spec 96 x); [congruence|reflexivity].
Qed.

Lemma strip_fences_clean (raw : str) :
  contains fence (strip_fences raw) = false.
Proof. apply replace_fence_clean. Qed.

(** X1. The text [parse_llm_json] gives to [json.loads], and stores as
    raw_output when decoding fails, holds no fence marker of either kind,
    whatever the text it was given. *)
Theorem cleaned_text_has_no_fence (raw : str) :
  contains fence (strip_fences raw) = false /\
  contains fence_json (strip_fences raw) = false.
Proof.
  split; [apply strip_fences_clean|].
  change fence_json with (fence ++ u "json").
  apply contains_prefix, strip_fences_clean.
Qed.

(** X2. Cleaning twice is cleaning once: on its own cleaned text
    [parse_llm_json] returns what it returned on the text. *)
Theorem parse_llm_json_idempotent (L : limits) (raw : str) :
  strip_fences (strip_fences raw) = strip_fences raw /\
  parse_llm_json L (strip_fences raw) = parse_llm_json L raw.
Proof.
  assert (H : strip_fences (strip_fences raw) = strip_fences raw)
    by apply strip_fences_absent, strip_fences_clean.
  split; [exact H|].
  unfold parse_llm_json. fold (strip_fences raw).
  fold (strip_fences (strip_fences raw)). now rewrite H.
Qed.

(** X3. On a text without a fence [parse_llm_json] is [json.loads] with the
    failure object in place of the exception, and raw_output is then the
    text as it was received. *)
Theorem parse_llm_json_without_fence (L : limits) (raw : str) :
  contains fence raw = false ->
  (exists v, json_loads L raw = Return v /\ parse_llm_json L raw = Return v) \/
  (exists e, json_loads L raw = Raise e /\
             parse_llm_json L raw = Return (failure_object raw)).
Proof.
  intros H. pose proof (parse_llm_json_cases L raw) as Hc.
  now rewrite (strip_fences_absent raw H) in Hc.
Qed.

Lemma parse_llm_json_without_fence_witness :
  (exists v, json_loads sample_limits (u "not json at all") = Return v /\
             parse_llm_json sample_limits (u "not json at all") = Return v) \/
  (exists e, json_loads sample_limits (u "not json at all") = Raise e /\
             parse_llm_json sample_limits (u "not json at all")
             = Return (failure_object (u "not json at all"))).
Proof.
  apply (parse_llm_json_without_fence sample_limits (u "not json at all")).
  vm_compute. reflexivity.
Defined.

(** ** Cleaning works line by line *)

Lemma strip_fences_line (x y : str) :
  strip_fences (x ++ 10 :: y) = strip_fences x ++ 10 :: strip_fences y.
Proof.
  unfold strip_fences, str_replace.
  change fence_json with (96 :: u "``json"). change fence with (96 :: u "``").
  cbv iota.
  assert (Hj : ~ In 10 (96 :: u "``json")).
  { cbn. intros H. repeat (destruct H as [H|H]; [discriminate H|]). exact H. }
  assert (Hf : ~ In 10 (96 :: u "``")).
  { cbn. intros H. repeat (destruct H as [H|H]; [discriminate H|]). exact H. }
  rewrite (replace_from_split (96 :: u "``json") [] x y 10 Hj)
    by (discriminate || apply Nat.le_0_l).
  apply replace_from_split; [exact Hf|discriminate|apply Nat.le_0_l].
Qed.

(** X4. A fence never spans a line break: cleaning a text is cleaning each
    of its lines. *)
Theorem strip_fences_lines (x y : str) :
  strip_fences (x ++ LF ++ y) = strip_fences x ++ LF ++ strip_fences y.
Proof. apply strip_fences_line. Qed.

Lemma skip_ws_app_ws (w s : str) :
  forallb is_ws w = true -> skip_ws (w ++ s) = skip_ws s.
Proof.
  induction w as [|c w IH]; [reflexivity|]. cbn [forallb app skip_ws].
  intros H. apply andb_true_iff in H as [Hc Hw]. rewrite Hc. auto.
Qed.

(** White space on both sides of a text that decodes. *)
Lemma json_loads_ws_around (L : limits) (s w1 w2 : str) (v : value) :
  json_loads L s = Return v ->
  forallb is_ws w1 = true -> forallb is_ws w2 = true ->
  json_loads L (w1 ++ s ++ w2) = Return v.
Proof.
  intros H H1 H2.
  assert (Hs : exists c t, skip_ws s = c :: t).
  { unfold json_loads in H. destruct (startswith [65279] s); [discriminate|].
    apply bind_Return in H as ([obj rest] & Hobj & _).
    apply expecting_value_Return in Hobj.
    destruct (scan_once_starts_ok _ _ _ _ _ Hobj) as (c & t & Hs & _). eauto. }
  destruct Hs as (c & t & Hs).
  destruct (json_loads_sim_ws L padded True padded_cons padded_nil padded_string
              s (w1 ++ s ++ w2) v H) as (v' & H' & Hv).
  - rewrite (skip_ws_app_ws w1 _ H1).
    rewrite skip_ws_more by (rewrite Hs; discriminate).
    now exists w2.
  - destruct w1 as [|a w1].
    + cbn [app]. unfold json_loads in H.
      destruct s as [|c0 s0]; [discriminate Hs|].
      cbn [app startswith] in *.
      destruct (65279 =? c0); [discriminate H|reflexivity].
    + cbn [forallb] in H1. apply andb_true_iff in H1 as [Ha _].
      cbn [app startswith]. destruct (N.eqb_spec 65279 a) as [<-|];
        [discriminate Ha|reflexivity].
  - now rewrite H', (Hv I).
Qed.

(** X5. Lines around the JSON that clean to white space do not count: when
    the text decodes once cleaned, [parse_llm_json] returns the same value
    for the text with such a line before it and such a line after it.  A
    bare fence, a json fence, an empty line are such lines. *)
Theorem parse_llm_json_framed (L : limits) (head t tail : str) (v : value) :
  json_loads L (strip_fences t) = Return v ->
  forallb is_ws (strip_fences head) = true ->
  forallb is_ws (strip_fences tail) = true ->
  parse_llm_json L (head ++ LF ++ t ++ LF ++ tail) = Return v /\
  parse_llm_json L t = Return v.
Proof.
  intros Hv Hh Ht. split;
    [|destruct (parse_llm_json_cases L t) as [(v' & Hv' & ->)|(e & He & _)];
      congruence].
  destruct (parse_llm_json_cases L (head ++ LF ++ t ++ LF ++ tail))
    as [(v' & Hv' & ->)|(e & He & _)];
    unfold LF in *; cbn [app] in *;
    rewrite strip_fences_line, strip_fences_line in *;
    change (strip_fences head ++ 10 :: strip_fences t ++ 10 :: strip_fences tail)
      with (strip_fences head ++ [10] ++ strip_fences t ++ [10] ++ strip_fences tail)
      in *;
    rewrite (app_assoc (strip_fences head) [10]) in *;
    rewrite (json_loads_ws_around L (strip_fences t) (strip_fences head ++ [10])
               ([10] ++ strip_fences tail) v Hv) in *;
    try congruence;
    rewrite ?forallb_app; cbn [forallb is_ws]; try rewrite Hh; try rewrite Ht;
    reflexivity.
Qed.

Lemma parse_llm_json_framed_witness :
  parse_llm_json sample_limits
    (fence ++ LF ++ fenced_sample ++ LF ++ (fence ++ u " "))
  = Return
      (VDict [ (u "answer", VStr (u "see the  block"));
               (u "score",
                VList [VFloat (py_float (u "1") (u ".5") (u "e3")); VInt (-2); VNone]) ]) /\
  parse_llm_json sample_limits fenced_sample
  = Return
      (VDict [ (u "answer", VStr (u "see the  block"));
               (u "score",
                VList [VFloat (py_float (u "1") (u ".5") (u "e3")); VInt (-2); VNone]) ]).
Proof.
  apply (parse_llm_json_framed sample_limits fence fenced_sample
           (fence ++ u " "));
    vm_compute; reflexivity.
Defined.

(** ** Text that is not JSON from its first code point *)

Lemma scan_once_no_start (L : limits) (depth : nat) (c : char) (s : str) :
  value_start c = false ->
  scan_once L (S depth) (c :: s) = Raise (mk_exn StopIteration []).
Proof.
  unfold value_start. intros H.
  apply orb_false_iff in H as [H HI]. apply orb_false_iff in H as [H HN].
  apply orb_false_iff in H as [H Hd]. apply orb_false_iff in H as [H Hm].
  apply orb_false_iff in H as [H Hf]. apply orb_false_iff in H as [H Ht].
  apply orb_false_iff in H as [H Hn]. apply orb_false_iff in H as [H Hb].
  apply orb_false_iff in H as [Hq Ho].
  cbn [scan_once]. rewrite Hq, Ho, Hb.
  assert (Hs : forall p k,
             (c =? p) = false -> startswith (p :: k) (c :: s) = false).
  { intros p k Hp. cbn [startswith]. now rewrite N.eqb_sym, Hp. }
  change (u "null") with (110 :: u "ull"). rewrite (Hs _ _ Hn).
  change (u "true") with (116 :: u "rue"). rewrite (Hs _ _ Ht).
  change (u "false") with (102 :: u "alse"). rewrite (Hs _ _ Hf).
  change (u "NaN") with (78 :: u "aN"). rewrite (Hs _ _ HN).
  change (u "Infinity") with (73 :: u "nfinity"). rewrite (Hs _ _ HI).
  change (u "-Infinity") with (45 :: u "Infinity"). rewrite (Hs _ _ Hm).
  destruct (match_number (c :: s)) as [m|] eqn:Em; [|reflexivity].
  apply match_number_head in Em as [Em| ->]; [congruence|discriminate Hm].
Qed.

Lemma json_loads_no_value (L : limits) (s : str) :
  no_value_ahead s = true ->
  exists e, json_loads L s = Raise e.
Proof.
  unfold no_value_ahead, json_loads, decoder_depth. intros H.
  destruct (startswith [65279] s); [eexists; reflexivity|].
  destruct (skip_ws s) as [|c t].
  - eexists. reflexivity.
  - apply negb_true_iff in H. rewrite (scan_once_no_start L _ c t H).
    eexists. reflexivity.
Qed.

(** X6. A reply that is empty once cleaned, or holds only white space, or
    starts with words in front of the JSON, is not decoded: the failure
    object is returned, with the cleaned reply as raw_output. *)
Theorem parse_llm_json_no_value (L : limits) (raw : str) :
  no_value_ahead (strip_fences raw) = true ->
  parse_llm_json L raw = Return (failure_object (strip_fences raw)).
Proof.
  intros H. destruct (json_loads_no_value L _ H) as (e & He).
  destruct (parse_llm_json_cases L raw) as [(v & Hv & _)|(e' & _ & Hp)];
    [congruence|exact Hp].
Qed.

Lemma parse_llm_json_no_value_witness :
  parse_llm_json sample_limits prose_answer
  = Return (failure_object prose_answer).
Proof.
  apply (parse_llm_json_no_value sample_limits prose_answer).
  vm_compute. reflexivity.
Defined.

(** ** What kind of value comes back *)

Lemma object_loop_dict (scan : scanner) (fuel : nat) (s : str)
    (pairs : list (str * value)) (v : value) (r : str) :
  object_loop scan fuel s pairs = Return (v, r) -> is_dict v = true.
Proof.
  revert s pairs. induction fuel as [|fuel IH]; intros s pairs;
    [discriminate|].
  cbn [object_loop]. intros H.
  apply bind_Return in H as ([key r0] & _ & H). cbv beta iota in H.
  destruct (skip_ws r0) as [|c r1]; [discriminate H|].
  destruct (c =? 58); [|discriminate H].
  apply bind_Return in H as ([v2 r2] & _ & H). cbv beta iota zeta in H.
  destruct (skip_ws r2) as [|c' r3]; [discriminate H|].
  destruct (c' =? 125); [now injection H as <- _|].
  destruct (c' =? 44); [|discriminate H].
  destruct (skip_ws r3) as [|q r4]; [discriminate H|].
  destruct (q =? 34); [|discriminate H].
  exact (IH _ _ H).
Qed.

Lemma array_loop_list (scan : scanner) (fuel : nat) (s : str)
    (values : list value) (v : value) (r : str) :
  array_loop scan fuel s values = Return (v, r) -> is_dict v = false.
Proof.
  revert s values. induction fuel as [|fuel IH]; intros s values;
    [discriminate|].
  cbn [array_loop]. intros H.
  apply bind_Return in H as ([v1 r1] & _ & H). cbv beta iota zeta in H.
  destruct (skip_ws r1) as [|c r2]; [discriminate H|].
  destruct (c =? 93); [now injection H as <- _|].
  destruct (c =? 44); [|discriminate H].
  exact (IH _ _ H).
Qed.

(** The first code point decides the kind of value [scan_once] returns. *)
Lemma scan_once_dict (L : limits) (depth : nat) (c : char) (s r : str)
    (v : value) :
  scan_once L depth (c :: s) = Return (v, r) -> is_dict v = (c =? 123).
Proof.
  destruct depth as [|depth]; [discriminate|]. cbn [scan_once].
  destruct (N.eqb_spec c 34) as [->|_].
  { intros H. apply bind_Return in H as ([x r0] & _ & H).
    now injection H as <- _. }
  destruct (c =? 123) eqn:Eo.
  { unfold JSONObject. destruct (skip_ws s) as [|a r0]; [discriminate|].
    destruct (a =? 125); [intros [= <- _]; reflexivity|].
    destruct (a =? 34); [|discriminate]. apply object_loop_dict. }
  destruct (c =? 91).
  { unfold JSONArray. destruct (skip_ws s) as [|a r0].
    - apply array_loop_list.
    - destruct (a =? 93); [intros [= <- _]; reflexivity|].
      apply array_loop_list. }
  destruct (startswith (u "null") (c :: s)); [intros [= <- _]; reflexivity|].
  destruct (startswith (u "true") (c :: s)); [intros [= <- _]; reflexivity|].
  destruct (startswith (u "false") (c :: s)); [intros [= <- _]; reflexivity|].
  destruct (match_number (c :: s)) as [[[[ip frac] exp] rest]|].
  - destruct (frac ++ exp); [|intros [= <- _]; reflexivity].
    intros H. apply bind_Return in H as (n & _ & H). now injection H as <- _.
  - destruct (startswith (u "NaN") (c :: s)); [intros [= <- _]; reflexivity|].
    destruct (startswith (u "Infinity") (c :: s));
      [intros [= <- _]; reflexivity|].
    destruct (startswith (u "-Infinity") (c :: s));
      [intros [= <- _]; reflexivity|discriminate].
Qed.

Lemma json_loads_dict (L : limits) (s : str) (v : value) :
  json_loads L s = Return v -> is_dict v = opens_object s.
Proof.
  unfold json_loads, opens_object. intros H.
  destruct (startswith [65279] s); [discriminate|].
  apply bind_Return in H as ([obj rest] & Hobj & H).
  apply expecting_value_Return in Hobj.
  destruct (skip_ws rest); [|discriminate]. injection H as <-.
  destruct (skip_ws s) as [|c t]; [discriminate Hobj|].
  exact (scan_once_dict _ _ _ _ _ _ Hobj).
Qed.

(** X8. What [parse_llm_json] returns is a mapping exactly when the
    cleaned text starts with an opening brace, white space apart, or does
    not decode: text that decodes and starts otherwise gives a list, a
    string, a number, a boolean or [None]. *)
Theorem parse_llm_json_returns_dict_iff (L : limits) (raw : str) (v : value) :
  parse_llm_json L raw = Return v ->
  is_dict v = opens_object (strip_fences raw)
              || raises (json_loads L (strip_fences raw)).
Proof.
  intros H.
  destruct (parse_llm_json_cases L raw) as [(v' & Hv' & Hp)|(e & He & Hp)];
    rewrite Hp in H; injection H as <-.
  - rewrite Hv', (json_loads_dict _ _ _ Hv'). cbn [raises].
    now rewrite orb_false_r.
  - rewrite He. cbn [raises]. now rewrite orb_true_r.
Qed.

Lemma parse_llm_json_returns_dict_iff_witness :
  is_dict (VList [VInt 1; VInt 2])
  = opens_object (strip_fences (fence_json ++ LF ++ u "[1, 2]" ++ LF ++ fence))
    || raises (json_loads sample_limits
                 (strip_fences (fence_json ++ LF ++ u "[1, 2]" ++ LF ++ fence))).
Proof.
  apply (parse_llm_json_returns_dict_iff sample_limits
           (fence_json ++ LF ++ u "[1, 2]" ++ LF ++ fence)
           (VList [VInt 1; VInt 2])).
  vm_compute. reflexivity.
Defined.

(** X9. Text that [json.loads] decodes as it stands, called where
    [parse_llm_json] calls it and so under the same limits on digits and
    on nesting, never ends in the failure object: it still decodes once
    the fences are taken out of it, and [parse_llm_json] returns the
    decoded value. *)
Theorem parse_llm_json_keeps_json (L : limits) (t : str) (v : value) :
  json_loads L t = Return v ->
  exists v', json_loads L (strip_fences t) = Return v' /\
             parse_llm_json L t = Return v'.
Proof.
  intros H. destruct (json_loads_strip_fences L t v H) as (v' & Hv').
  exists v'. split; [exact Hv'|].
  destruct (parse_llm_json_cases L t) as [(v1 & Hv1 & ->)|(e & He & _)];
    congruence.
Qed.

Lemma parse_llm_json_keeps_json_witness :
  exists v', json_loads sample_limits (strip_fences fenced_sample) = Return v' /\
             parse_llm_json sample_limits fenced_sample = Return v'.
Proof.
  apply (parse_llm_json_keeps_json sample_limits fenced_sample
           (VDict [ (u "answer", VStr (u "see the ```json block"));
                    (u "score",
                     VList [VFloat (py_float (u "1") (u ".5") (u "e3")); VInt (-2); VNone]) ])).
  vm_compute. reflexivity.
Defined.

(** ** The integers of a decoded value can be written *)

Lemma digits_from_cons (c : char) (ds : str) (a : Z) :
  digits_from (c :: ds) a = digits_from ds (a * 10 + Z.of_N (c - 48))%Z.
Proof. reflexivity. Qed.

Lemma digits_from_split (ds : str) (a : Z) :
  digits_from ds a
  = (a * 10 ^ Z.of_nat (List.length ds) + digits_from ds 0)%Z.
Proof.
  revert a. induction ds as [|c ds IH]; intros a.
  - unfold digits_from. cbn [fold_left List.length].
    change (10 ^ Z.of_nat 0)%Z with 1%Z. lia.
  - rewrite !digits_from_cons, (IH (a * 10 + Z.of_N (c - 48))%Z),
      (IH (0 * 10 + Z.of_N (c - 48))%Z).
    cbn [List.length]. rewrite Nat2Z.inj_succ, Z.pow_succ_r by lia. ring.
Qed.

Lemma digit_value (c : char) :
  is_digit c = true -> (0 <= Z.of_N (c - 48) <= 9)%Z.
Proof.
  unfold is_digit. intros H. apply andb_true_iff in H as [H1 H2].
  apply N.leb_le in H1. apply N.leb_le in H2. lia.
Qed.

Lemma digits_from_bound (ds : str) :
  forallb is_digit ds = true ->
  (0 <= digits_from ds 0 < 10 ^ Z.of_nat (List.length ds))%Z.
Proof.
  induction ds as [|c ds IH]; intros H.
  - unfold digits_from. cbn. lia.
  - cbn [forallb] in H. apply andb_true_iff in H as [Hc Hds].
    specialize (IH Hds). pose proof (digit_value c Hc) as Hv.
    rewrite digits_from_cons, digits_from_split.
    cbn [List.length]. rewrite Nat2Z.inj_succ, Z.pow_succ_r by lia.
    revert IH. generalize (digits_from ds 0), (10 ^ Z.of_nat (List.length ds))%Z.
    intros n p IH. nia.
Qed.

(** [int.__repr__] writes no more digits than any text of the number has. *)
Lemma repr_N_short (n : N) (k : nat) :
  (Z.of_N n < 10 ^ Z.of_nat k)%Z -> (1 <= k)%nat ->
  (List.length (repr_N n) <= k)%nat.
Proof.
  intros Hn Hk.
  destruct (repr_N_spec n) as (ds & Hds & Hdig & Hne & Hval & Hhd).
  rewrite Hds. destruct ds as [|c ds']; [contradiction|].
  destruct (N.eqb_spec c 48) as [->|Hc].
  - specialize (Hhd eq_refl). subst n. vm_compute in Hds.
    injection Hds as <-. cbn [List.length]. lia.
  - cbn [forallb] in Hdig. apply andb_true_iff in Hdig as [Hc' Hdig'].
    rewrite digits_from_cons, digits_from_split in Hval.
    pose proof (digits_from_bound ds' Hdig') as Hb.
    assert (Hone : (1 <= Z.of_N (c - 48))%Z).
    { unfold is_digit in Hc'. apply andb_true_iff in Hc' as [H1 _].
      apply N.leb_le in H1. lia. }
    assert (Hpow : (10 ^ Z.of_nat (List.length ds') < 10 ^ Z.of_nat k)%Z).
    { revert Hb Hval. generalize (digits_from ds' 0),
        (10 ^ Z.of_nat (List.length ds'))%Z. intros m p Hb Hval. nia. }
    apply Z.pow_lt_mono_r_iff in Hpow; [|lia|lia]. cbn [List.length]. lia.
Qed.

Lemma too_many_digits_mono (L : limits) (a b : nat) :
  (a <= b)%nat -> too_many_digits L b = false -> too_many_digits L a = false.
Proof.
  unfold too_many_digits. intros Hab.
  destruct (N.ltb_spec 640 (N.of_nat b)), (N.ltb_spec 0 (max_str_digits L)),
    (N.ltb_spec (max_str_digits L) (N.of_nat b)),
    (N.ltb_spec 640 (N.of_nat a)),
    (N.ltb_spec (max_str_digits L) (N.of_nat a));
    cbn [andb]; try reflexivity; try discriminate; lia.
Qed.

Lemma match_number_integer (s integer frac exp rest : str) :
  match_number s = Some (integer, frac, exp, rest) ->
  exists sign ip,
    integer = sign ++ ip /\ (sign = [] \/ sign = [45]) /\
    forallb is_digit ip = true /\ ip <> [].
Proof.
  unfold match_number.
  assert (Hbody : forall sign s1,
    match match_integer s1 with
    | Some (ip, r1) =>
        let (fr, r2) := match_frac r1 in
        let (ex, r3) := match_exp r2 in Some (sign ++ ip, fr, ex, r3)
    | None => None
    end = Some (integer, frac, exp, rest) ->
    exists ip, integer = sign ++ ip /\ forallb is_digit ip = true /\ ip <> []).
  { intros sign s1 H.
    destruct (match_integer s1) as [[ip r1]|] eqn:Ei; [|discriminate].
    destruct (match_frac r1) as [fr r2]. destruct (match_exp r2) as [ex r3].
    injection H as <- _ _ _. exists ip. split; [reflexivity|].
    exact (match_integer_is_digits _ _ _ Ei). }
  destruct s as [|c s1].
  - intros H. destruct (Hbody [] [] H) as (ip & ? & ? & ?). exists [], ip. auto.
  - destruct (N.eqb_spec c 45) as [->|_]; intros H.
    + destruct (Hbody [45] s1 H) as (ip & ? & ? & ?). exists [45], ip. auto.
    + destruct (Hbody [] (c :: s1) H) as (ip & ? & ? & ?). exists [], ip. auto.
Qed.

(** An integer that [int(text)] accepts is one [int.__repr__] writes. *)
Lemma py_int_digits (L : limits) (sign ip : str) (z : Z) :
  sign = [] \/ sign = [45] -> forallb is_digit ip = true -> ip <> [] ->
  py_int L (sign ++ ip) = Return z ->
  too_many_digits L (int_digits z) = false.
Proof.
  intros Hsign Hdig Hne. unfold py_int.
  destruct (too_many_digits L (digit_count (sign ++ ip))) eqn:E; [discriminate|].
  intros [= <-]. apply (too_many_digits_mono L _ _) with (2 := E).
  pose proof (digits_from_bound ip Hdig) as Hb.
  assert (Hlen : (1 <= List.length ip)%nat).
  { destruct ip; [contradiction|cbn [List.length]; lia]. }
  assert (Hcount : digit_count (sign ++ ip) = List.length ip).
  { destruct Hsign as [-> | ->]; [|reflexivity]. cbn [app].
    destruct ip as [|c ds]; [contradiction|]. unfold digit_count.
    cbn [forallb] in Hdig. apply andb_true_iff in Hdig as [Hc _].
    destruct (N.eqb_spec c 45) as [->|]; [discriminate Hc|reflexivity]. }
  assert (Hvalue : Z.abs (parse_int (sign ++ ip)) = digits_from ip 0).
  { destruct Hsign as [-> | ->].
    - cbn [app]. destruct ip as [|c ds]; [contradiction|]. unfold parse_int.
      cbn [forallb] in Hdig. apply andb_true_iff in Hdig as [Hc _].
      destruct (N.eqb_spec c 45) as [->|]; [discriminate Hc|].
      rewrite digits_value_from. lia.
    - cbn [app]. unfold parse_int. cbn [N.eqb Pos.eqb]. cbv iota.
      rewrite digits_value_from. lia. }
  rewrite Hcount. unfold int_digits. apply repr_N_short; [|exact Hlen].
  rewrite N2Z.inj_abs_N, Hvalue. apply Hb.
Qed.

Lemma dict_set_forallb (P : value -> bool) (d : pydict) (k : str) (v : value) :
  forallb (fun kv => P (snd kv)) d = true -> P v = true ->
  forallb (fun kv => P (snd kv)) (dict_set d k v) = true.
Proof.
  intros Hd Hv. induction d as [|[k' v'] d IH]; cbn [dict_set forallb snd].
  - now rewrite Hv.
  - cbn [forallb snd] in Hd. apply andb_true_iff in Hd as [Hv' Hd].
    destruct (str_eqb k k'); cbn [forallb snd].
    + now rewrite Hv, Hd.
    + now rewrite Hv', (IH Hd).
Qed.

Lemma dict_of_pairs_forallb (P : value -> bool) (pairs : list (str * value)) :
  forallb (fun kv => P (snd kv)) pairs = true ->
  forallb (fun kv => P (snd kv)) (dict_of_pairs pairs) = true.
Proof.
  unfold dict_of_pairs.
  assert (H : forall d0,
            forallb (fun kv => P (snd kv)) d0 = true ->
            forallb (fun kv => P (snd kv)) pairs = true ->
            forallb (fun kv => P (snd kv))
              (fold_left (fun d kv => dict_set d (fst kv) (snd kv)) pairs d0)
            = true).
  { induction pairs as [|[k v] pairs IH]; intros d0 Hd0 Hp; [exact Hd0|].
    cbn [forallb snd] in Hp. apply andb_true_iff in Hp as [Hv Hp].
    cbn [fold_left fst snd]. apply IH; [|exact Hp].
    now apply dict_set_forallb. }
  now apply H.
Qed.

Section LoopIntegers.
Variable L : limits.
Variable scan : scanner.
Hypothesis scan_ints : forall s v r, scan s = Return (v, r) -> ints_ok L v = true.

Lemma array_loop_ints (fuel : nat) :
  forall s values v r,
    array_loop scan fuel s values = Return (v, r) ->
    forallb (ints_ok L) values = true -> ints_ok L v = true.
Proof.
  induction fuel as [|fuel IH]; intros s values v r H Hvalues; [discriminate|].
  cbn [array_loop] in H.
  apply bind_Return in H as ([v1 r1] & H1 & H). cbv beta iota zeta in H.
  apply expecting_value_Return in H1. apply scan_ints in H1.
  assert (Hall : forallb (ints_ok L) (values ++ [v1]) = true).
  { rewrite forallb_app, Hvalues. cbn [forallb]. now rewrite H1. }
  destruct (skip_ws r1) as [|c r2]; [discriminate H|].
  destruct (c =? 93); [now injection H as <- _|].
  destruct (c =? 44); [|discriminate H].
  exact (IH _ _ _ _ H Hall).
Qed.

Lemma JSONArray_ints (s : str) (v : value) (r : str) :
  JSONArray scan s = Return (v, r) -> ints_ok L v = true.
Proof.
  unfold JSONArray. destruct (skip_ws s) as [|c r0].
  - intros H. now apply (array_loop_ints _ _ _ _ _ H).
  - destruct (c =? 93); [now intros [= <- _]|].
    intros H. now apply (array_loop_ints _ _ _ _ _ H).
Qed.

Lemma object_loop_ints (fuel : nat) :
  forall s pairs v r,
    object_loop scan fuel s pairs = Return (v, r) ->
    forallb (fun kv => ints_ok L (snd kv)) pairs = true -> ints_ok L v = true.
Proof.
  induction fuel as [|fuel IH]; intros s pairs v r H Hpairs; [discriminate|].
  cbn [object_loop] in H.
  apply bind_Return in H as ([key r0] & _ & H). cbv beta iota in H.
  destruct (skip_ws r0) as [|c r1]; [discriminate H|].
  destruct (c =? 58); [|discriminate H].
  apply bind_Return in H as ([v2 r2] & H2 & H). cbv beta iota zeta in H.
  apply expecting_value_Return in H2. apply scan_ints in H2.
  assert (Hall : forallb (fun kv => ints_ok L (snd kv)) (pairs ++ [(key, v2)])
                 = true).
  { rewrite forallb_app, Hpairs. cbn [forallb snd]. now rewrite H2. }
  destruct (skip_ws r2) as [|c' r3]; [discriminate H|].
  destruct (c' =? 125).
  { injection H as <- _. cbn [ints_ok].
    now apply (dict_of_pairs_forallb (ints_ok L)). }
  destruct (c' =? 44); [|discriminate H].
  destruct (skip_ws r3) as [|q r4]; [discriminate H|].
  destruct (q =? 34); [|discriminate H].
  exact (IH _ _ _ _ H Hall).
Qed.

Lemma JSONObject_ints (s : str) (v : value) (r : str) :
  JSONObject scan s = Return (v, r) -> ints_ok L v = true.
Proof.
  unfold JSONObject. destruct (skip_ws s) as [|c r0]; [discriminate|].
  destruct (c =? 125); [now intros [= <- _]|].
  destruct (c =? 34); [|discriminate].
  intros H. now apply (object_loop_ints _ _ _ _ _ H).
Qed.

End LoopIntegers.

Section DecodedIntegers.
Variable L : limits.

Lemma scan_once_ints (depth : nat) :
  forall s v r, scan_once L depth s = Return (v, r) -> ints_ok L v = true.
Proof.
  induction depth as [|depth IH]; intros s v r H; [discriminate|].
  cbn [scan_once] in H. destruct s as [|c s1]; [discriminate|].
  destruct (c =? 34).
  { apply bind_Return in H as ([a rest] & _ & H). now injection H as <- _. }
  destruct (c =? 123); [exact (JSONObject_ints L _ IH _ _ _ H)|].
  destruct (c =? 91); [exact (JSONArray_ints L _ IH _ _ _ H)|].
  destruct (startswith (u "null") (c :: s1)); [now injection H as <- _|].
  destruct (startswith (u "true") (c :: s1)); [now injection H as <- _|].
  destruct (startswith (u "false") (c :: s1)); [now injection H as <- _|].
  destruct (match_number (c :: s1)) as [[[[integer frac] exp] rest]|] eqn:En.
  - destruct (frac ++ exp); [|now injection H as <- _].
    apply bind_Return in H as (n & Hn & H). injection H as <- _.
    destruct (match_number_integer _ _ _ _ _ En) as (sign & ip & -> & Hs & Hd & Hne).
    cbn [ints_ok]. now rewrite (py_int_digits L sign ip n Hs Hd Hne Hn).
  - destruct (startswith (u "NaN") (c :: s1)); [now injection H as <- _|].
    destruct (startswith (u "Infinity") (c :: s1)); [now injection H as <- _|].
    destruct (startswith (u "-Infinity") (c :: s1));
      [now injection H as <- _|discriminate].
Qed.

Lemma json_loads_ints (s : str) (v : value) :
  json_loads L s = Return v -> ints_ok L v = true.
Proof.
  unfold json_loads. destruct (startswith [65279] s); [discriminate|].
  intros H. apply bind_Return in H as ([obj rest] & Hobj & H).
  apply expecting_value_Return in Hobj.
  destruct (skip_ws rest); [|discriminate]. injection H as <-.
  exact (scan_once_ints _ _ _ _ Hobj).
Qed.

(** What [parse_llm_json] returns has integers that [jsonify] can write. *)
Lemma parse_llm_json_ints (raw : str) (v : value) :
  parse_llm_json L raw = Return v -> ints_ok L v = true.
Proof.
  intros H.
  destruct (parse_llm_json_cases L raw) as [(v' & Hv' & Hp)|(e & _ & Hp)];
    rewrite Hp in H; injection H as <-; [|reflexivity].
  exact (json_loads_ints _ _ Hv').
Qed.

End DecodedIntegers.

(** ** The [/chat] handler *)

Section Handler.
Variable L : limits.
Variable answer_question : str -> outcome str.

Lemma first_error_In (l : list (option exn)) (e : exn) :
  first_error l = Some e -> In (Some e) l.
Proof.
  induction l as [|x l IH]; [discriminate|]. cbn [first_error fold_right].
  destruct x as [e'|]; [intros [= ->]; now left|]. intros H. right. now apply IH.
Qed.

(** What encoding raises derives from [Exception]. *)
Lemma dumps_error_caught (sort_keys : bool) (x : value) :
  forall depth e,
    dumps_error L sort_keys depth x = Some e ->
    is_Exception (exn_class e) = true.
Proof.
  induction x as [| b | z | f | s | l IHl | d IHd] using value_ind;
    intros depth e H; try discriminate H.
  - cbn [dumps_error] in H.
    destruct (too_many_digits L (int_digits z)); [|discriminate].
    now injection H as <-.
  - cbn [dumps_error] in H. destruct depth as [|depth]; [now injection H as <-|].
    apply first_error_In, in_map_iff in H as (x & Hx & Hin).
    rewrite Forall_forall in IHl. exact (IHl x Hin _ _ Hx).
  - cbn [dumps_error] in H. destruct depth as [|depth]; [now injection H as <-|].
    apply first_error_In, in_map_iff in H as ([k e'] & He' & Hk).
    cbn [snd] in He'. subst e'.
    assert (Hin : In (k, Some e)
              (map (fun kv => (fst kv, dumps_error L sort_keys depth (snd kv))) d)).
    { destruct sort_keys; [now apply In_sort_items|exact Hk]. }
    apply in_map_iff in Hin as ([k' v] & [= _ Hv] & Hkv).
    rewrite Forall_forall in IHd. exact (IHd (k', v) Hkv _ _ Hv).
Qed.

(** [chat] written out as the decisions it takes. *)
Lemma chat_decisions (get_json : outcome value) (calls : list str) :
  chat L answer_question get_json calls =
  match get_json with
  | Return (VDict d) =>
      match asked d with
      | VStr q =>
          match strip q with
          | [] => (Return empty_question, calls)
          | _ :: _ =>
              (match answer_question (strip q) with
               | Return raw =>
                   result <- parse_llm_json L raw ;;
                   Return (final_answer L (strip q) result)
               | Raise e =>
                   if is_Exception (exn_class e)
                   then Return (server_error e) else Raise e
               | OutOfFuel => OutOfFuel
               end, calls ++ [strip q])
          end
      | x => (Return (server_error (no_attribute x "strip")), calls)
      end
  | Return v => (Return (server_error (no_attribute v "get")), calls)
  | Raise e =>
      (if is_Exception (exn_class e) then Return (server_error e) else Raise e,
       calls)
  | OutOfFuel => (OutOfFuel, calls)
  end.
Proof.
  unfold chat, io_try, io_bind, io_lift, io_ret, call_pipeline, asked.
  destruct get_json as [v|e|]; [|now destruct (is_Exception (exn_class e))|reflexivity].
  destruct v; try reflexivity. cbn [py_get bind].
  destruct (dict_get d (u "question")) as [x|].
  - destruct x; try reflexivity. cbn [py_strip].
    destruct (strip s) as [|c q']; [reflexivity|].
    destruct (answer_question (c :: q')) as [raw|e|];
      [|now destruct (is_Exception (exn_class e))|reflexivity].
    destruct (parse_llm_json_cases L raw) as [(v & _ & ->)|(e & _ & ->)];
      cbn [bind];
      match goal with
      | |- context [jsonify L (VDict [(?k, VStr ?q); (?k', ?v)])] =>
          change (VDict [(k, VStr q); (k', v)]) with (body (answered q v));
          rewrite (jsonify_answer L q v); unfold final_answer;
          destruct (dumps_error L true (S (encoder_room L)) v) as [e'|] eqn:E;
          [rewrite (dumps_error_caught _ _ _ _ E)|]; reflexivity
      end.
  - cbn [py_strip]. destruct (strip []) as [|c q'] eqn:E; [reflexivity|].
    discriminate E.
Qed.

Lemma chat_asked (d : pydict) (q : str) (calls : list str) :
  dict_get d (u "question") = Some (VStr q) -> strip q <> [] ->
  chat L answer_question (Return (VDict d)) calls =
  (match answer_question (strip q) with
   | Return raw =>
       result <- parse_llm_json L raw ;; Return (final_answer L (strip q) result)
   | Raise e =>
       if is_Exception (exn_class e) then Return (server_error e) else Raise e
   | OutOfFuel => OutOfFuel
   end, calls ++ [strip q]).
Proof.
  intros Hd Hq. rewrite chat_decisions. unfold asked. rewrite Hd.
  destruct (strip q); [contradiction|reflexivity].
Qed.

(** The 200 answer is given for a result that [jsonify] has room for. *)
Lemma final_answer_fits (q : str) (v : value) :
  (value_depth v <= S (encoder_room L))%nat -> ints_ok L v = true ->
  final_answer L q v = answered q v.
Proof.
  intros Hd Hi. unfold final_answer.
  now rewrite (dumps_error_fits L true v _ Hd Hi).
Qed.

(** What the handler answers to a request without a question; the
    pipeline is left alone. *)
Lemma chat_rejected (get_json : outcome value) (calls : list str)
    (r : response) :
  rejected get_json r ->
  chat L answer_question get_json calls = (Return r, calls).
Proof.
  intros H. rewrite chat_decisions. unfold asked.
  destruct H as [d Hd|d q Hd Hq|v Hv|e He].
  - rewrite Hd. reflexivity.
  - rewrite Hd, Hq. reflexivity.
  - destruct v; try reflexivity. now destruct (Hv d).
  - rewrite He. reflexivity.
Qed.

Lemma lacks_question_rejected (get_json : outcome value) :
  lacks_question get_json ->
  exists r, rejected get_json r /\
            (forall d, get_json = Return (VDict d) -> r = empty_question).
Proof.
  intros [(e & -> & He)|[->|[(v & -> & Hv)|[(d & -> & Hd)|(d & q & -> & Hd & Hq)]]]].
  - exists (server_error e). split; [|discriminate].
    apply rejected_absent. now rewrite He.
  - exists (server_error (no_attribute VNone "get")). split; [|discriminate].
    apply rejected_not_object. discriminate.
  - exists (server_error (no_attribute v "get")). split.
    + now apply rejected_not_object.
    + intros d [= ->]. now destruct (Hv d).
  - exists empty_question. split; [now apply rejected_missing|reflexivity].
  - exists empty_question. split; [|reflexivity].
    now apply (rejected_blank d q).
Qed.

(** C3, amended. A payload that is an object without a question field, or
    whose question is a string that trims to the empty string, is answered
    400 with the error Empty question; and for every request of the claim,
    a missing payload or one that is not an object included, the pipeline is
    not called. *)
Theorem chat_empty_question (get_json : outcome value) (calls : list str) :
  lacks_question get_json ->
  snd (chat L answer_question get_json calls) = calls /\
  (forall d, get_json = Return (VDict d) ->
             chat L answer_question get_json calls
             = (Return empty_question, calls)).
Proof.
  intros H. destruct (lacks_question_rejected _ H) as (r & Hr & Hd).
  rewrite (chat_rejected _ calls _ Hr). split; [reflexivity|].
  intros d Hgj. now rewrite (Hd d Hgj).
Qed.

(** C10. A payload whose question field holds a value that is not a string
    is answered 500 with the message of the [AttributeError] that [strip]
    raises, and the pipeline is not called. *)
Theorem chat_question_not_a_string (d : pydict) (x : value)
    (calls : list str) :
  dict_get d (u "question") = Some x ->
  (forall q, x <> VStr q) ->
  chat L answer_question (Return (VDict d)) calls =
  (Return (server_error (no_attribute x "strip")), calls).
Proof.
  intros Hd Hx. rewrite chat_decisions. unfold asked. rewrite Hd.
  destruct x; try reflexivity. now destruct (Hx s).
Qed.

(** C8, amended. When the question trims to a non-empty text and the
    pipeline returns a text that, once its fences are removed, is a JSON
    object nested no deeper than [jsonify] has room for, the answer is 200
    with the trimmed question and that object, and the pipeline has been
    called once, with the trimmed question, which has no white space at
    either end. *)
Theorem chat_success (d m : pydict) (q raw : str) (calls : list str) :
  dict_get d (u "question") = Some (VStr q) ->
  strip q <> [] ->
  answer_question (strip q) = Return raw ->
  json_loads L (strip_fences raw) = Return (VDict m) ->
  (value_depth (VDict m) <= S (encoder_room L))%nat ->
  chat L answer_question (Return (VDict d)) calls =
  (Return (mk_response 200
             (VDict [(u "question", VStr (strip q)); (u "result", VDict m)])),
   calls ++ [strip q])
  /\ trimmed (strip q).
Proof.
  intros Hd Hq Ha Hm Hdepth. split; [|apply strip_trimmed].
  rewrite (chat_asked d q calls Hd Hq), Ha.
  destruct (parse_llm_json_cases L raw) as [[v [Hv ->]]|[e [He _]]];
    [|congruence].
  rewrite Hm in Hv. injection Hv as <-. cbn [bind].
  rewrite final_answer_fits; [reflexivity|exact Hdepth|].
  exact (json_loads_ints L _ _ Hm).
Qed.

(** X10. A question that is a string is answered 400 Empty question, the
    pipeline not called, exactly when it is made of white space only. *)
Theorem chat_blank_question (d : pydict) (q : str) (calls : list str) :
  dict_get d (u "question") = Some (VStr q) ->
  chat L answer_question (Return (VDict d)) calls
  = (Return empty_question, calls)
  <-> forallb py_isspace q = true.
Proof.
  intros Hd. rewrite <- strip_nil. split.
  - intros H. destruct (strip q) as [|c q'] eqn:E; [reflexivity|].
    rewrite (chat_asked d q calls Hd) in H by (rewrite E; discriminate).
    injection H as _ H. exfalso.
    apply (f_equal (@List.length (list N))) in H.
    rewrite length_app in H. cbn [List.length] in H. lia.
  - intros H. apply chat_rejected. now apply (rejected_blank d q).
Qed.

(** X11. A question with a code point that is not white space reaches the
    pipeline, whatever the pipeline then does: it is called once, with the
    question trimmed at both ends, which is not empty. *)
Theorem chat_calls_pipeline (d : pydict) (q : str) (calls : list str) :
  dict_get d (u "question") = Some (VStr q) ->
  forallb py_isspace q = false ->
  snd (chat L answer_question (Return (VDict d)) calls) = calls ++ [strip q] /\
  strip q <> [] /\ trimmed (strip q).
Proof.
  intros Hd Hq.
  assert (Hs : strip q <> []).
  { intros H. apply strip_nil in H. congruence. }
  rewrite (chat_asked d q calls Hd Hs).
  repeat split; [exact Hs|apply strip_trimmed|apply strip_trimmed].
Qed.

(** X12. When the pipeline raises an exception derived from [Exception],
    the answer is 500 with the message of that exception. *)
Theorem chat_pipeline_raises (d : pydict) (q : str) (e : exn)
    (calls : list str) :
  dict_get d (u "question") = Some (VStr q) ->
  strip q <> [] ->
  answer_question (strip q) = Raise e ->
  is_Exception (exn_class e) = true ->
  chat L answer_question (Return (VDict d)) calls =
  (Return (server_error e), calls ++ [strip q]).
Proof.
  intros Hd Hq Ha He. now rewrite (chat_asked d q calls Hd Hq), Ha, He.
Qed.

(** X13. An exception of the pipeline that is not derived from [Exception],
    a keyboard interrupt or a system exit, is not turned into an answer:
    it leaves [chat]. *)
Theorem chat_pipeline_interrupted (d : pydict) (q : str) (e : exn)
    (calls : list str) :
  dict_get d (u "question") = Some (VStr q) ->
  strip q <> [] ->
  answer_question (strip q) = Raise e ->
  is_Exception (exn_class e) = false ->
  chat L answer_question (Return (VDict d)) calls
  = (Raise e, calls ++ [strip q]).
Proof.
  intros Hd Hq Ha He. now rewrite (chat_asked d q calls Hd Hq), Ha, He.
Qed.

(** X14. Whatever text the pipeline returns, [chat] answers, after one
    call to the pipeline: 200 with the trimmed question and what
    [parse_llm_json] returns for that text when that value is nested no
    deeper than [jsonify] has room for, and 500 otherwise. *)
Theorem chat_pipeline_returns (d : pydict) (q raw : str) (calls : list str) :
  dict_get d (u "question") = Some (VStr q) ->
  strip q <> [] ->
  answer_question (strip q) = Return raw ->
  exists v r,
    parse_llm_json L raw = Return v /\
    chat L answer_question (Return (VDict d)) calls
    = (Return r, calls ++ [strip q]) /\
    ((value_depth v <= S (encoder_room L))%nat -> r = answered (strip q) v) /\
    (r = answered (strip q) v \/ status r = 500).
Proof.
  intros Hd Hq Ha. rewrite (chat_asked d q calls Hd Hq), Ha.
  assert (Hret : exists v, parse_llm_json L raw = Return v).
  { destruct (parse_llm_json_cases L raw) as [(v & _ & H)|(e & _ & H)]; eauto. }
  destruct Hret as (v & Hv).
  exists v, (final_answer L (strip q) v). rewrite Hv. cbn [bind].
  repeat split.
  - intros Hdepth. apply final_answer_fits; [exact Hdepth|].
    exact (parse_llm_json_ints L _ _ Hv).
  - unfold final_answer.
    destruct (dumps_error L true (S (encoder_room L)) v); [now right|now left].
Qed.

(** X15. When the text of the pipeline does not decode, the answer is still
    200: its result is the failure object, with the cleaned text as
    raw_output. *)
Theorem chat_unparsable_answer (d : pydict) (q raw : str) (e : exn)
    (calls : list str) :
  dict_get d (u "question") = Some (VStr q) ->
  strip q <> [] ->
  answer_question (strip q) = Return raw ->
  json_loads L (strip_fences raw) = Raise e ->
  chat L answer_question (Return (VDict d)) calls =
  (Return (answered (strip q) (failure_object (strip_fences raw))),
   calls ++ [strip q]).
Proof.
  intros Hd Hq Ha He.
  rewrite (chat_asked d q calls Hd Hq), Ha.
  destruct (parse_llm_json_cases L raw) as [(v & Hv & _)|(e' & _ & ->)];
    [congruence|reflexivity].
Qed.

(** X16. When reading the request and running the pipeline end in a result
    or in an exception derived from [Exception], [chat] answers: it does
    not raise, and the status is 200, 400 or 500. *)
Theorem chat_always_answers (get_json : outcome value) (calls : list str) :
  catchable get_json ->
  (forall q, catchable (answer_question q)) ->
  exists r calls',
    chat L answer_question get_json calls = (Return r, calls') /\
    (status r = 200 \/ status r = 400 \/ status r = 500).
Proof.
  intros Hg Ha. rewrite chat_decisions.
  destruct get_json as [v|e|]; cbn [catchable] in Hg; [| |contradiction].
  - destruct v; try (do 2 eexists; split; [reflexivity|cbn; auto]).
    destruct (asked d); try (do 2 eexists; split; [reflexivity|cbn; auto]).
    destruct (strip s) as [|c q'];
      [do 2 eexists; split; [reflexivity|cbn; auto]|].
    specialize (Ha (c :: q')).
    destruct (answer_question (c :: q')) as [raw|e|]; cbn [catchable] in Ha;
      [| |contradiction].
    + destruct (parse_llm_json_cases L raw) as [(v & _ & ->)|(e & _ & ->)];
        cbn [bind];
        match goal with
        | |- context [final_answer L ?q ?v] =>
            do 2 eexists; (split; [reflexivity|]); unfold final_answer;
            destruct (dumps_error L true (S (encoder_room L)) v); cbn; auto
        end.
    + rewrite Ha. do 2 eexists; split; [reflexivity|cbn; auto].
  - rewrite Hg. do 2 eexists; split; [reflexivity|cbn; auto].
Qed.

(** X17. Whatever the request and whatever the pipeline does, [chat] calls
    the pipeline at most once, and never with an empty text or with a text
    that has white space at an end. *)
Theorem chat_calls_at_most_once (get_json : outcome value)
    (calls : list str) :
  snd (chat L answer_question get_json calls) = calls \/
  exists q, q <> [] /\ trimmed q /\
            snd (chat L answer_question get_json calls) = calls ++ [q].
Proof.
  rewrite chat_decisions.
  destruct get_json as [v|e|]; try (now left).
  destruct v; try (now left). destruct (asked d); try (now left).
  pose proof (strip_trimmed s) as Ht.
  destruct (strip s) as [|c q']; [now left|].
  right. exists (c :: q'). repeat split; try apply Ht. discriminate.
Qed.

(** X18. The answers of [chat], read backwards: a 200 answer carries the
    trimmed question and what [parse_llm_json] made of the text the
    pipeline returned for it; a 400 answer is Empty question and the
    pipeline was not called; every other answer is 500 with an error
    message. *)
Theorem chat_answer_shapes (get_json : outcome value)
    (calls calls' : list str) (r : response) :
  chat L answer_question get_json calls = (Return r, calls') ->
  (exists q raw v,
     answer_question q = Return raw /\ parse_llm_json L raw = Return v /\
     r = answered q v /\ calls' = calls ++ [q])
  \/ (r = empty_question /\ calls' = calls)
  \/ (exists msg, r = mk_response 500 (error_body msg)).
Proof.
  rewrite chat_decisions.
  destruct get_json as [v|e|].
  - destruct v; try (intros [= <- <-]; right; right; eexists; reflexivity).
    destruct (asked d);
      try (intros [= <- <-]; right; right; eexists; reflexivity).
    destruct (strip s) as [|c q']; [intros [= <- <-]; now right; left|].
    destruct (answer_question (c :: q')) as [raw|e|] eqn:Ea.
    + assert (Hret : exists v, parse_llm_json L raw = Return v).
      { destruct (parse_llm_json_cases L raw) as [(v & _ & H)|(e & _ & H)];
          eauto. }
      destruct Hret as (v & Hp). rewrite Hp.
      cbn [bind]. unfold final_answer.
      destruct (dumps_error L true (S (encoder_room L)) v);
        intros [= <- <-];
        [right; right; eexists; reflexivity|left; do 3 eexists; eauto].
    + destruct (is_Exception (exn_class e)); [|discriminate].
      intros [= <- <-]. right; right; eexists; reflexivity.
    + discriminate.
  - destruct (is_Exception (exn_class e)); [|discriminate].
    intros [= <- <-]. right; right; eexists; reflexivity.
  - discriminate.
Qed.

End Handler.

(** C3, as stated, fails: a JSON array as payload is answered with 500. *)
Lemma empty_question_counterexample :
  ~ (forall L answer_question get_json calls,
        lacks_question get_json ->
        chat L answer_question get_json calls = (Return empty_question, calls)).
Proof.
  intros H.
  specialize (H sample_limits (fun _ => Return []) (Return (VList [])) []).
  assert (Hl : lacks_question (Return (VList []))).
  { right; right; left. exists (VList []). split; [reflexivity|discriminate]. }
  specialize (H Hl). vm_compute in H. discriminate H.
Qed.

Lemma chat_empty_question_witness :
  snd (chat sample_limits (fun _ => Return [])
         (Return (VDict [(u "question", VStr (u "  "))])) []) = [] /\
  (forall d,
     Return (VDict [(u "question", VStr (u "  "))]) = Return (VDict d) ->
     chat sample_limits (fun _ => Return [])
       (Return (VDict [(u "question", VStr (u "  "))])) []
     = (Return empty_question, [])).
Proof.
  apply (chat_empty_question sample_limits (fun _ => Return [])
           (Return (VDict [(u "question", VStr (u "  "))])) []).
  do 4 right. exists [(u "question", VStr (u "  "))], (u "  ").
  repeat split; vm_compute; reflexivity.
Defined.

Lemma chat_question_not_a_string_witness :
  chat sample_limits (fun _ => Return [])
    (Return (VDict [(u "question", VInt 42)])) [] =
  (Return (mk_response 500
             (error_body (u "'int' object has no attribute 'strip'"))), []).
Proof.
  apply (chat_question_not_a_string sample_limits (fun _ => Return [])
           [(u "question", VInt 42)] (VInt 42) []).
  - vm_compute. reflexivity.
  - intros q. discriminate.
Defined.

(** C8, as stated, fails: an object that [json.loads] still reads can be
    nested too deep for [jsonify], which encodes it one level further
    down, inside the answer; the handler then answers 500. *)
Lemma chat_success_counterexample :
  ~ (forall L answer_question (d m : pydict) (q raw : str) (calls : list str),
        dict_get d (u "question") = Some (VStr q) ->
        strip q <> [] ->
        answer_question (strip q) = Return raw ->
        json_loads L (strip_fences raw) = Return (VDict m) ->
        chat L answer_question (Return (VDict d)) calls =
        (Return (mk_response 200
                   (VDict [(u "question", VStr (strip q));
                           (u "result", VDict m)])),
         calls ++ [strip q])).
Proof.
  intros H.
  specialize (H sample_limits (fun _ => Return deep_answer)
                [(u "question", VStr (u "What is EBITDA?"))]
                [(u "a", nested_lists)] (u "What is EBITDA?") deep_answer []).
  vm_compute in H.
  specialize (H eq_refl ltac:(discriminate) eq_refl eq_refl).
  discriminate H.
Qed.

Lemma chat_success_witness :
  chat sample_limits (fun _ => Return ebitda_answer)
       (Return (VDict [(u "question", VStr (u "  What is EBITDA? "))])) [] =
  (Return (mk_response 200
             (VDict [(u "question", VStr (strip (u "  What is EBITDA? ")));
                     (u "result",
                      VDict [(u "answer", VStr (u "X"));
                             (u "justification", VStr (u "Y"))])])),
   [] ++ [strip (u "  What is EBITDA? ")])
  /\ trimmed (strip (u "  What is EBITDA? ")).
Proof.
  apply (chat_success sample_limits (fun _ => Return ebitda_answer)
           [(u "question", VStr (u "  What is EBITDA? "))]
           [(u "answer", VStr (u "X")); (u "justification", VStr (u "Y"))]
           (u "  What is EBITDA? ") ebitda_answer []).
  - vm_compute. reflexivity.
  - vm_compute. discriminate.
  - vm_compute. reflexivity.
  - vm_compute. reflexivity.
  - vm_compute. lia.
Defined.

Lemma chat_blank_question_witness :
  chat sample_limits (fun _ => Return [])
    (Return (VDict [(u "question", VStr [32; 9; 10; 8195])])) []
  = (Return empty_question, [])
  <-> forallb py_isspace [32; 9; 10; 8195] = true.
Proof.
  apply (chat_blank_question sample_limits (fun _ => Return [])
           [(u "question", VStr [32; 9; 10; 8195])] [32; 9; 10; 8195] []).
  vm_compute. reflexivity.
Defined.

Lemma chat_calls_pipeline_witness :
  snd (chat sample_limits (fun _ => Raise (mk_exn KeyboardInterrupt []))
         (Return (VDict [(u "question", VStr (u "  What is EBITDA? "))]))
         [u "earlier"])
  = [u "earlier"] ++ [strip (u "  What is EBITDA? ")] /\
  strip (u "  What is EBITDA? ") <> [] /\
  trimmed (strip (u "  What is EBITDA? ")).
Proof.
  apply (chat_calls_pipeline sample_limits
           (fun _ => Raise (mk_exn KeyboardInterrupt []))
           [(u "question", VStr (u "  What is EBITDA? "))]
           (u "  What is EBITDA? ") [u "earlier"]);
    vm_compute; reflexivity.
Defined.

Lemma chat_pipeline_raises_witness :
  chat sample_limits (fun _ => Raise (mk_exn ValueError (u "timeout")))
    (Return (VDict [(u "question", VStr (u "Q?"))])) []
  = (Return (mk_response 500 (error_body (u "timeout"))), [u "Q?"]).
Proof.
  apply (chat_pipeline_raises sample_limits
           (fun _ => Raise (mk_exn ValueError (u "timeout")))
           [(u "question", VStr (u "Q?"))] (u "Q?")
           (mk_exn ValueError (u "timeout")) []).
  - vm_compute. reflexivity.
  - vm_compute. discriminate.
  - vm_compute. reflexivity.
  - vm_compute. reflexivity.
Defined.

Lemma chat_pipeline_interrupted_witness :
  chat sample_limits (fun _ => Raise (mk_exn SystemExit (u "1")))
    (Return (VDict [(u "question", VStr (u "Q?"))])) []
  = (Raise (mk_exn SystemExit (u "1")), [u "Q?"]).
Proof.
  apply (chat_pipeline_interrupted sample_limits
           (fun _ => Raise (mk_exn SystemExit (u "1")))
           [(u "question", VStr (u "Q?"))] (u "Q?")
           (mk_exn SystemExit (u "1")) []).
  - vm_compute. reflexivity.
  - vm_compute. discriminate.
  - vm_compute. reflexivity.
  - vm_compute. reflexivity.
Defined.

Lemma chat_pipeline_returns_witness :
  exists v r,
    parse_llm_json sample_limits deep_answer = Return v /\
    chat sample_limits (fun _ => Return deep_answer)
      (Return (VDict [(u "question", VStr (u " Q? "))])) []
    = (Return r, [] ++ [strip (u " Q? ")]) /\
    ((value_depth v <= S (encoder_room sample_limits))%nat ->
     r = answered (strip (u " Q? ")) v) /\
    (r = answered (strip (u " Q? ")) v \/ status r = 500).
Proof.
  apply (chat_pipeline_returns sample_limits (fun _ => Return deep_answer)
           [(u "question", VStr (u " Q? "))] (u " Q? ") deep_answer []).
  - vm_compute. reflexivity.
  - vm_compute. discriminate.
  - vm_compute. reflexivity.
Defined.

Lemma chat_unparsable_answer_witness :
  chat sample_limits
    (fun _ => Return (fence_json ++ u "I do not know" ++ fence))
    (Return (VDict [(u "question", VStr (u "Q?"))])) []
  = (Return (answered (u "Q?") (failure_object (u "I do not know"))),
     [u "Q?"]).
Proof.
  apply (chat_unparsable_answer sample_limits
           (fun _ => Return (fence_json ++ u "I do not know" ++ fence))
           [(u "question", VStr (u "Q?"))] (u "Q?")
           (fence_json ++ u "I do not know" ++ fence)
           (mk_exn JSONDecodeError (u "Expecting value")) []).
  - vm_compute. reflexivity.
  - vm_compute. discriminate.
  - vm_compute. reflexivity.
  - vm_compute. reflexivity.
Defined.

Lemma chat_always_answers_witness :
  exists r calls',
    chat sample_limits (fun _ => Raise (mk_exn ValueError (u "boom")))
      (Return (VDict [(u "question", VStr (u "Q?"))])) [] = (Return r, calls') /\
    (status r = 200 \/ status r = 400 \/ status r = 500).
Proof.
  apply (chat_always_answers sample_limits
           (fun _ => Raise (mk_exn ValueError (u "boom")))
           (Return (VDict [(u "question", VStr (u "Q?"))])) []).
  - exact I.
  - intros q. reflexivity.
Defined.

Lemma chat_answer_shapes_witness :
  (exists q raw v,
     (fun _ : list N => Return ebitda_answer) q = Return raw /\
     parse_llm_json sample_limits raw = Return v /\
     answered (u "Q?")
       (VDict [(u "answer", VStr (u "X")); (u "justification", VStr (u "Y"))])
     = answered q v /\ [u "Q?"] = [] ++ [q])
  \/ (answered (u "Q?")
        (VDict [(u "answer", VStr (u "X")); (u "justification", VStr (u "Y"))])
      = empty_question /\ [u "Q?"] = [])
  \/ (exists msg,
        answered (u "Q?")
          (VDict [(u "answer", VStr (u "X")); (u "justification", VStr (u "Y"))])
        = mk_response 500 (error_body msg)).
Proof.
  apply (chat_answer_shapes sample_limits (fun _ => Return ebitda_answer)
           (Return (VDict [(u "question", VStr (u " Q? "))])) [] [u "Q?"]
           (answered (u "Q?")
              (VDict [(u "answer", VStr (u "X"));
                      (u "justification", VStr (u "Y"))]))).
  vm_compute. reflexivity.
Defined.
